(** * The ER diagram editor: a shallow embedding of its geometry, layout,
      interaction, export and persistence code

    The editor keeps three global arrays ([entities], [attributes],
    [relationships]) and a set of functions that read and mutate them.  This
    file embeds those functions as Rocq functions over an explicit [Model]
    value and proves the properties the specification states about them.

    Numbers.  The source computes with JavaScript numbers, which are
    binary64 values.  Where a function only stores, compares or copies
    numbers, or where a statement is about the structure of what it builds,
    every number is an exact rational ([Q]): rounding, overflow and underflow
    are outside that reading, and a division whose divisor can be zero is
    written with [js_div], which has no finite result there.  Where what a
    function promises depends on rounding or on the special values
    ([getEntityBorderPoint], [draggedEntity]), the function is embedded over
    binary64 itself, in the module [Binary64], and the two readings are
    related by an explicit condition: no operation of the run rounds.

    The browser.  Text measurement, the CSS font sizes, [Math.PI], [Math.cos],
    [Math.sin], the identifiers drawn from the clock and the random generator,
    and the dagre layout library are parameters of the development. *)

From Stdlib Require Import Floats.
From Stdlib Require Import QArith Qminmax Qabs Qpower Lqa.
From Stdlib Require Import List String Bool Arith Lia.
Import ListNotations.

Open Scope string_scope.
Open Scope list_scope.
Open Scope Q_scope.

(** ** JavaScript idioms *)

(** [a || b] on strings that may be absent: the empty string, [null] and
    [undefined] are falsy. *)
Definition js_or (a : option string) (b : string) : string :=
  match a with
  | Some s => if String.eqb s "" then b else s
  | None => b
  end.

(** [a / b] where [b] may be zero: JavaScript then yields [Infinity] or [NaN],
    which are not finite numbers.  The model does not follow a computation
    past such a value: [None] says that one was met. *)
Definition js_div (a b : Q) : option Q :=
  if Qeq_bool b 0 then None else Some (a / b).

Definition obind {A B : Type} (o : option A) (k : A -> option B) : option B :=
  match o with
  | Some a => k a
  | None => None
  end.

Notation "x <- e ;; k" := (obind e (fun x => k))
  (at level 61, e at next level, right associativity).


(** [Math.max(...xs, floor)]. *)
Definition js_max_spread (xs : list Q) (floor : Q) : Q :=
  fold_right Qmax floor xs.

(** A number converted from an array index or an array length. *)
Definition ofNat (n : nat) : Q := inject_Z (Z.of_nat n).

(** ** The data model *)

Module EREntity.
Record t : Type := make
  { id : string;
    name : string;
    displayName : string;
    x : Q;
    y : Q;
    width : Q;
    height : Q }.
End EREntity.

Module ERAttribute.
Record t : Type := make
  { id : string;
    name : string;
    displayName : string;
    comment : option string;
    type : string;
    entityId : string;
    isPK : bool;
    isFK : bool;
    x : Q;
    y : Q;
    rx : Q;
    ry : Q }.
End ERAttribute.

Module ERRelationship.
Record t : Type := make
  { id : string;
    name : string;
    displayName : string;
    fromEntityId : string;
    toEntityId : string;
    type : string;
    fromAttr : option string;
    toAttr : option string;
    x : Q;
    y : Q;
    width : Q;
    height : Q }.
End ERRelationship.

(** The three global arrays. *)
Record Model : Type := mkModel
  { entities : list EREntity.t;
    attributes : list ERAttribute.t;
    relationships : list ERRelationship.t }.

Record Point : Type := mkPoint { px : Q; py : Q }.

(** [defaultSizes]. *)
Record DefaultSizes : Type := mkDefaultSizes
  { ds_entity_width : Q; ds_entity_height : Q;
    ds_attribute_rx : Q; ds_attribute_ry : Q;
    ds_relationship_width : Q; ds_relationship_height : Q }.

Definition initialDefaultSizes : DefaultSizes :=
  mkDefaultSizes 120 60 60 25 80 50.

(** The result of [getCurrentFontSizes()]. *)
Record FontSizes : Type := mkFontSizes
  { fs_entity : Q; fs_attr : Q; fs_rel : Q }.

(** Field updates written [obj.x = ...; obj.y = ...] in the source. *)
Definition entityMoveTo (e : EREntity.t) (x y : Q) : EREntity.t :=
  EREntity.make (EREntity.id e) (EREntity.name e) (EREntity.displayName e)
    x y (EREntity.width e) (EREntity.height e).

Definition attributeMoveTo (a : ERAttribute.t) (x y : Q) : ERAttribute.t :=
  ERAttribute.make (ERAttribute.id a) (ERAttribute.name a)
    (ERAttribute.displayName a) (ERAttribute.comment a) (ERAttribute.type a)
    (ERAttribute.entityId a) (ERAttribute.isPK a) (ERAttribute.isFK a)
    x y (ERAttribute.rx a) (ERAttribute.ry a).

Definition relationshipMoveTo (r : ERRelationship.t) (x y : Q)
    : ERRelationship.t :=
  ERRelationship.make (ERRelationship.id r) (ERRelationship.name r)
    (ERRelationship.displayName r) (ERRelationship.fromEntityId r)
    (ERRelationship.toEntityId r) (ERRelationship.type r)
    (ERRelationship.fromAttr r) (ERRelationship.toAttr r)
    x y (ERRelationship.width r) (ERRelationship.height r).

(** [entities.find(e => e.id === id)]. *)
Definition findEntity (id : string) (es : list EREntity.t)
    : option EREntity.t :=
  find (fun e => String.eqb (EREntity.id e) id) es.

(** [attributes.filter(a => a.entityId === id)]. *)
Definition attributesOf (id : string) (attrs : list ERAttribute.t)
    : list ERAttribute.t :=
  filter (fun a => String.eqb (ERAttribute.entityId a) id) attrs.

(** ** Connector ports *)

(** The port of a connector, read over the rationals: the point that
    [getEntityBorderPoint] computes when none of its operations rounds
    (lemma [getEntityBorderPoint_value] below relates it to the function on
    binary64 numbers, [Binary64.getEntityBorderPoint]).  The connectors are
    placed with this reading. *)

(** The divisor [scale] of [getEntityBorderPoint], for a target away from the
    centre. *)
Definition borderScale (entity : EREntity.t) (targetX targetY : Q)
    : option Q :=
  let cx := EREntity.x entity + EREntity.width entity / 2 in
  let cy := EREntity.y entity + EREntity.height entity / 2 in
  let dx := targetX - cx in
  let dy := targetY - cy in
  let halfW := EREntity.width entity / 2 in
  let halfH := EREntity.height entity / 2 in
  sx <- js_div (Qabs dx) halfW ;;
  sy <- js_div (Qabs dy) halfH ;;
  Some (Qmax sx sy).

(** The port of a connector on the entity's box; [None] when a divisor is
    zero on the way, which takes a box of zero width or height: nothing is
    said of the port there. *)
Definition getEntityBorderPoint (entity : EREntity.t) (targetX targetY : Q)
    : option Point :=
  let cx := EREntity.x entity + EREntity.width entity / 2 in
  let cy := EREntity.y entity + EREntity.height entity / 2 in
  let dx := targetX - cx in
  let dy := targetY - cy in
  if Qeq_bool dx 0 && Qeq_bool dy 0 then Some (mkPoint cx cy)
  else
    scale <- borderScale entity targetX targetY ;;
    qx <- js_div dx scale ;;
    qy <- js_div dy scale ;;
    Some (mkPoint (cx + qx) (cy + qy)).

(** The centre of the entity's rectangle. *)
Definition entityCenter (entity : EREntity.t) : Point :=
  mkPoint (EREntity.x entity + EREntity.width entity / 2)
          (EREntity.y entity + EREntity.height entity / 2).

(** A point on the border of the entity's rectangle. *)
Definition onBorder (entity : EREntity.t) (p : Point) : Prop :=
  let x0 := EREntity.x entity in
  let y0 := EREntity.y entity in
  let x1 := EREntity.x entity + EREntity.width entity in
  let y1 := EREntity.y entity + EREntity.height entity in
  ((px p == x0 \/ px p == x1) /\ y0 <= py p <= y1) \/
  ((py p == y0 \/ py p == y1) /\ x0 <= px p <= x1).

(** ** Geometry primitives and constructors *)

Section Editor.

(** [measureTextWidth(text, fontSize, fontFamily, fontWeight)]: the canvas
    text metric. *)
Variable measureTextWidth : string -> Q -> string -> string -> Q.
Variable fontSizes : FontSizes.
Variable defaultSizes : DefaultSizes.

(** [Math.PI], [Math.cos], [Math.sin]. *)
Variable Math_PI : Q.
Variable Math_cos : Q -> Q.
Variable Math_sin : Q -> Q.

Definition arial : string := "Arial, sans-serif".

Definition calculateEntityWidth (name : string) : Q :=
  let entity := fs_entity fontSizes in
  let textWidth := measureTextWidth name entity arial "600" in
  let padding := 40 in
  let minWidth := 80 in
  let maxWidth := 300 in
  Qmin maxWidth (Qmax minWidth (textWidth + padding)).

Definition calculateAttributeWidth (name : string) : Q :=
  let attr := fs_attr fontSizes in
  let textWidth := measureTextWidth name attr arial "normal" in
  let padding := 30 in
  let minRx := 40 in
  let maxRx := 150 in
  Qmin maxRx (Qmax minRx ((textWidth + padding) / 2)).

Definition calculateRelationshipWidth (name : string) : Q :=
  let rel := fs_rel fontSizes in
  let textWidth := measureTextWidth name rel arial "normal" in
  let padding := 30 in
  let minWidth := 50 in
  let maxWidth := 200 in
  Qmin maxWidth (Qmax minWidth (textWidth + padding)).

(** Each constructor draws its identifier from the clock and the random
    generator; [nonce] is the text of
    [Date.now() + '_' + Math.random().toString(36).substr(2, 9)]. *)
Definition newEREntity (nonce : string) (name : string) (x y : Q)
    (displayName : option string) : EREntity.t :=
  let dn := js_or displayName name in
  EREntity.make ("entity_" ++ nonce)%string name dn x y
    (calculateEntityWidth dn) (ds_entity_height defaultSizes).

Definition newERAttribute (nonce : string) (name type entityId : string)
    (isPK isFK : bool) (displayName comment : option string)
    : ERAttribute.t :=
  let dn := js_or displayName name in
  ERAttribute.make ("attr_" ++ nonce)%string name dn comment type entityId
    isPK isFK 0 0 (calculateAttributeWidth dn)
    (ds_attribute_ry defaultSizes).

(** The parameter [type] defaults to ['1:1'] when it is [undefined]. *)
Definition newERRelationship (nonce : string) (name : string)
    (fromEntityId toEntityId : string) (type : option string)
    (displayName fromAttr toAttr : option string) : ERRelationship.t :=
  let dn := js_or displayName name in
  ERRelationship.make ("rel_" ++ nonce)%string name dn fromEntityId toEntityId
    (match type with Some t => t | None => "1:1" end)
    fromAttr toAttr 0 0 (calculateRelationshipWidth dn)
    (ds_relationship_height defaultSizes).

(** [updateName(newName)] of [EREntity]. *)
Definition EREntity_updateName (e : EREntity.t) (newName : string)
    : EREntity.t :=
  EREntity.make (EREntity.id e) (EREntity.name e) newName
    (EREntity.x e) (EREntity.y e)
    (calculateEntityWidth newName) (EREntity.height e).

(** ** The attribute ring *)

Record Radii : Type := mkRadii
  { radiusX : Q; radiusY : Q; maxRx : Q; maxRy : Q }.

(** [attrs.reduce((sum, a) => sum + (a.rx * 2) + 20, 0)]. *)
Definition attrPerimeter (entityAttrs : list ERAttribute.t) : Q :=
  fold_left (fun sum a => sum + (ERAttribute.rx a * 2) + 20) entityAttrs 0.

(** [radiusMultiplier], shared by [estimateAttributeRadii] and
    [arrangeAttributes].  The divisor [2 * Math.PI * 80] is a non-zero
    constant. *)
Definition radiusMultiplier (entityAttrs : list ERAttribute.t) : Q :=
  let requiredCircumference :=
    Qmax (attrPerimeter entityAttrs) (2 * Math_PI * 80) in
  Qmax 1 (requiredCircumference / (2 * Math_PI * 80)).

Definition estimateAttributeRadii (entity : EREntity.t)
    (entityAttrs : list ERAttribute.t) : Radii :=
  match entityAttrs with
  | [] => mkRadii 0 0 0 0
  | _ :: _ =>
    let baseRadiusX := Qmax (EREntity.width entity / 2 + 50) 80 in
    let baseRadiusY := Qmax (EREntity.height entity / 2 + 40) 70 in
    let maxRx := js_max_spread (map ERAttribute.rx entityAttrs) 30 in
    let maxRy := js_max_spread (map ERAttribute.ry entityAttrs) 20 in
    let radiusMultiplier := radiusMultiplier entityAttrs in
    let baseRadiusX := baseRadiusX * Qmin radiusMultiplier 1.5 + 30 in
    let baseRadiusY := baseRadiusY * Qmin radiusMultiplier 1.5 + 25 in
    mkRadii baseRadiusX baseRadiusY maxRx maxRy
  end.

(** The values of [baseRadiusX] and [baseRadiusY] of [arrangeAttributes] when
    the proximity loop starts. *)
Definition baseRadii (entity : EREntity.t) (entityAttrs : list ERAttribute.t)
    : Q * Q :=
  let baseRadiusX := Qmax (EREntity.width entity / 2 + 50) 80 in
  let baseRadiusY := Qmax (EREntity.height entity / 2 + 40) 70 in
  let radiusMultiplier := radiusMultiplier entityAttrs in
  (baseRadiusX * Qmin radiusMultiplier 1.5 + 30,
   baseRadiusY * Qmin radiusMultiplier 1.5 + 25).

(** One iteration of [for (const otherEntity of otherEntities)]. *)
Definition proximityStep (entity : EREntity.t) (base : Q * Q)
    (final : Q * Q) (otherEntity : EREntity.t) : Q * Q :=
  let '(baseRadiusX, baseRadiusY) := base in
  let '(finalRadiusX, finalRadiusY) := final in
  let distanceX :=
    Qabs (EREntity.x entity + EREntity.width entity / 2
          - EREntity.x otherEntity - EREntity.width otherEntity / 2) in
  let distanceY :=
    Qabs (EREntity.y entity + EREntity.height entity / 2
          - EREntity.y otherEntity - EREntity.height otherEntity / 2) in
  if Qlt_le_dec distanceX 200 then
    if Qlt_le_dec distanceY 200 then
      let minRequiredX := distanceX / 3 + EREntity.width otherEntity / 2 + 20 in
      let minRequiredY :=
        distanceY / 3 + EREntity.height otherEntity / 2 + 20 in
      (if Qlt_le_dec finalRadiusX minRequiredX
       then Qmin minRequiredX (baseRadiusX * 1.3) else finalRadiusX,
       if Qlt_le_dec finalRadiusY minRequiredY
       then Qmin minRequiredY (baseRadiusY * 1.3) else finalRadiusY)
    else final
  else final.

(** [finalRadiusX] and [finalRadiusY] when the loop ends. *)
Definition finalRadii (entityId : string) (es : list EREntity.t)
    (entity : EREntity.t) (entityAttrs : list ERAttribute.t) : Q * Q :=
  let base := baseRadii entity entityAttrs in
  let otherEntities :=
    filter (fun e => negb (String.eqb (EREntity.id e) entityId)) es in
  fold_left (proximityStep entity base) otherEntities base.

Definition startAngle (n : nat) : Q :=
  match n with
  | 2%nat => - Math_PI / 3
  | 3%nat => - Math_PI / 2
  | _ => - Math_PI / 2
  end.

(** The ring on which [arrangeAttributes] places the attributes. *)
Record Ring : Type := mkRing
  { ring_cx : Q; ring_cy : Q;
    ring_radiusX : Q; ring_radiusY : Q;
    ring_start : Q; ring_step : Q }.

Definition attributeRing (entityId : string) (es : list EREntity.t)
    (entity : EREntity.t) (entityAttrs : list ERAttribute.t) : Ring :=
  let final := finalRadii entityId es entity entityAttrs in
  let n := List.length entityAttrs in
  mkRing (EREntity.x entity + EREntity.width entity / 2)
         (EREntity.y entity + EREntity.height entity / 2)
         (fst final) (snd final)
         (startAngle n) ((2 * Math_PI) / ofNat n).

(** [entityAttrs.forEach((attr, i) => ...)]: the elements of [entityAttrs]
    are the objects of [attributes] whose [entityId] is [entityId], so the
    assignment is made in place, [i] counting the owned attributes seen. *)
Fixpoint placeOnRing (ring : Ring) (entityId : string) (i : nat)
    (attrs : list ERAttribute.t) : list ERAttribute.t :=
  match attrs with
  | [] => []
  | attr :: rest =>
    if String.eqb (ERAttribute.entityId attr) entityId then
      let angle := ring_start ring + ofNat i * ring_step ring in
      attributeMoveTo attr
        (ring_cx ring + Math_cos angle * ring_radiusX ring)
        (ring_cy ring + Math_sin angle * ring_radiusY ring)
      :: placeOnRing ring entityId (S i) rest
    else attr :: placeOnRing ring entityId i rest
  end.

(** [arrangeAttributes] on the two arrays it reads. *)
Definition arrangeAttrs (es : list EREntity.t) (entityId : string)
    (attrs : list ERAttribute.t) : list ERAttribute.t :=
  match findEntity entityId es with
  | None => attrs
  | Some entity =>
    match attributesOf entityId attrs with
    | [] => attrs
    | entityAttrs =>
      placeOnRing (attributeRing entityId es entity entityAttrs)
        entityId 0 attrs
    end
  end.

Definition arrangeAttributes (entityId : string) (m : Model) : Model :=
  mkModel (entities m)
          (arrangeAttrs (entities m) entityId (attributes m))
          (relationships m).

(** ** Import *)

(** The records of the parsing service's reply. *)
Record AttrData : Type := mkAttrData
  { ad_name : string;
    ad_displayName : option string;
    ad_type : string;
    ad_isPK : bool;
    ad_isFK : bool;
    ad_comment : option string }.

Record EntityData : Type := mkEntityData
  { ed_name : string;
    ed_displayName : option string;
    ed_attributes : list AttrData }.

Record RelData : Type := mkRelData
  { rd_name : string;
    rd_displayName : option string;
    rd_from : string;
    rd_to : string;
    rd_type : option string;
    rd_fromAttr : option string;
    rd_toAttr : option string }.

Record ParseData : Type := mkParseData
  { need_login : bool;
    need_recharge : bool;
    pd_error : option string;
    pd_entities : list EntityData;
    pd_relationships : list RelData;
    translationApplied : bool;
    translationCharged : bool }.

(** What [await fetch(...)] followed by [await response.json()] gives:
    either of the two promises rejects, or a reply arrives with its
    [response.ok] flag and its body. *)
Inductive FetchResult : Type :=
| FetchRejected (message : string)
| JsonRejected (message : string)
| Response (ok : bool) (data : ParseData).

(** What the user sees; message texts and the query string of the login
    address are left out. *)
Inductive Effect : Type :=
| ShowLoading
| HideLoading
| Toast (type : string)
| Confirm
| Navigate (url : string)
| CloseModal (modalId : string)
| UpdateEntityList
| ScheduleAutoLayout.

(** The parse request failed: a promise rejected or the reply is not ok. *)
Definition requestFailed (r : FetchResult) : bool :=
  match r with
  | FetchRejected _ => true
  | JsonRejected _ => true
  | Response ok _ => negb ok
  end.

(** The identifiers' random parts, by order of construction. *)
Variable nonce : nat -> string.

(** [entityData.attributes.forEach(attrData => ...)] of [doImport]. *)
Fixpoint importAttributes (entityId : string) (clock : nat)
    (attrDatas : list AttrData) (attrs : list ERAttribute.t)
    : list ERAttribute.t * nat :=
  match attrDatas with
  | [] => (attrs, clock)
  | attrData :: rest =>
    let attr :=
      newERAttribute (nonce clock) (ad_name attrData) (ad_type attrData)
        entityId (ad_isPK attrData) (ad_isFK attrData)
        (ad_displayName attrData) (ad_comment attrData) in
    importAttributes entityId (S clock) rest (attrs ++ [attr])
  end.

(** [data.entities.forEach((entityData, index) => ...)] of [doImport]. *)
Fixpoint importEntities (index clock : nat) (entityDatas : list EntityData)
    (m : Model) : Model * nat :=
  match entityDatas with
  | [] => (m, clock)
  | entityData :: rest =>
    let entity :=
      newEREntity (nonce clock) (ed_name entityData)
        (200 + ofNat (index mod 3) * 300)
        (100 + ofNat (index / 3) * 300)
        (ed_displayName entityData) in
    let es := entities m ++ [entity] in
    let '(attrs, clock') :=
      importAttributes (EREntity.id entity) (S clock)
        (ed_attributes entityData) (attributes m) in
    let m' :=
      arrangeAttributes (EREntity.id entity)
        (mkModel es attrs (relationships m)) in
    importEntities (S index) clock' rest m'
  end.

(** [data.relationships.forEach(relData => ...)] of [doImport]. *)
Fixpoint importRelationships (clock : nat) (relDatas : list RelData)
    (m : Model) : Model :=
  match relDatas with
  | [] => m
  | relData :: rest =>
    let fromEntity :=
      find (fun e => String.eqb (EREntity.name e) (rd_from relData))
        (entities m) in
    let toEntity :=
      find (fun e => String.eqb (EREntity.name e) (rd_to relData))
        (entities m) in
    match fromEntity, toEntity with
    | Some fromEntity, Some toEntity =>
      let rel :=
        newERRelationship (nonce clock) (rd_name relData)
          (EREntity.id fromEntity) (EREntity.id toEntity)
          (Some (js_or (rd_type relData) "1:N"))
          (rd_displayName relData) (rd_fromAttr relData)
          (rd_toAttr relData) in
      let rel :=
        relationshipMoveTo rel
          ((EREntity.x fromEntity + EREntity.x toEntity) / 2
           + EREntity.width fromEntity / 2)
          ((EREntity.y fromEntity + EREntity.y toEntity) / 2
           + EREntity.height fromEntity / 2) in
      importRelationships (S clock) rest
        (mkModel (entities m) (attributes m) (relationships m ++ [rel]))
    | _, _ => importRelationships clock rest m
    end
  end.

(** [doImport(sql, enableTranslation)], given the outcome of its request, the
    user's answer to [confirm] and the clock at the call.  The automatic
    layout it schedules runs later, under [setTimeout]. *)
Definition doImport (response : FetchResult) (confirmed : bool)
    (clock : nat) (m : Model) : Model * list Effect :=
  match response with
  | FetchRejected _ => (m, [ShowLoading; Toast "error"; HideLoading])
  | JsonRejected _ => (m, [ShowLoading; Toast "error"; HideLoading])
  | Response false data =>
    if need_login data then
      (m, [ShowLoading; Toast "warning"; Confirm]
          ++ (if confirmed then [Navigate "/login"] else [])
          ++ [HideLoading])
    else if need_recharge data then
      (m, [ShowLoading; Toast "warning"; Confirm]
          ++ (if confirmed then [Navigate "/profile#recharge"] else [])
          ++ [HideLoading])
    else (m, [ShowLoading; Toast "error"; HideLoading])
  | Response true data =>
    let '(m1, clock1) :=
      importEntities 0 clock (pd_entities data) (mkModel [] [] []) in
    let m2 := importRelationships clock1 (pd_relationships data) m1 in
    (m2, [ShowLoading; CloseModal "sql-modal"; UpdateEntityList;
          ScheduleAutoLayout; HideLoading])
  end.

(** ** Automatic layout *)

(** The graph handed to dagre: [setGraph], [setNode] and [setEdge] of
    [dagre.graphlib.Graph]. *)
Record GraphConfig : Type := mkGraphConfig
  { rankdir : string;
    nodesep : Q; ranksep : Q;
    marginx : Q; marginy : Q;
    edgesep : Q; rankmargin : Q }.

Record NodeLabel : Type := mkNodeLabel
  { nl_label : string; nl_width : Q; nl_height : Q }.

Record EdgeLabel : Type := mkEdgeLabel
  { el_label : string; el_weight : Q }.

Record Graph : Type := mkGraph
  { g_config : GraphConfig;
    g_nodes : list (string * option NodeLabel);
    g_edges : list (string * string * EdgeLabel) }.

(** [setNode(v, label)]: a node already present has its label replaced. *)
Fixpoint setNodeLabel (v : string) (label : option NodeLabel)
    (nodes : list (string * option NodeLabel))
    : list (string * option NodeLabel) :=
  match nodes with
  | [] => [(v, label)]
  | (w, l) :: rest =>
    if String.eqb w v then (w, label) :: rest
    else (w, l) :: setNodeLabel v label rest
  end.

Definition setNode (v : string) (label : NodeLabel) (g : Graph) : Graph :=
  mkGraph (g_config g) (setNodeLabel v (Some label) (g_nodes g)) (g_edges g).

(** [setEdge] adds the end points that are not nodes yet, without a label. *)
Definition ensureNode (v : string)
    (nodes : list (string * option NodeLabel))
    : list (string * option NodeLabel) :=
  if existsb (fun n => String.eqb (fst n) v) nodes then nodes
  else nodes ++ [(v, None)].

Fixpoint setEdgeLabel (v w : string) (label : EdgeLabel)
    (edges : list (string * string * EdgeLabel))
    : list (string * string * EdgeLabel) :=
  match edges with
  | [] => [(v, w, label)]
  | (v', w', l) :: rest =>
    if String.eqb v' v && String.eqb w' w then (v', w', label) :: rest
    else (v', w', l) :: setEdgeLabel v w label rest
  end.

Definition setEdge (v w : string) (label : EdgeLabel) (g : Graph) : Graph :=
  mkGraph (g_config g) (ensureNode w (ensureNode v (g_nodes g)))
    (setEdgeLabel v w label (g_edges g)).

Definition layoutConfig : GraphConfig :=
  mkGraphConfig "TB" 150 200 60 60 30 50.

(** The node of one entity: its box, widened to hold its attribute ring. *)
Definition layoutNode (attrs : list ERAttribute.t) (entity : EREntity.t)
    : NodeLabel :=
  let entityAttrs := attributesOf (EREntity.id entity) attrs in
  match entityAttrs with
  | [] =>
    mkNodeLabel (EREntity.displayName entity)
      (EREntity.width entity) (EREntity.height entity)
  | _ :: _ =>
    let r := estimateAttributeRadii entity entityAttrs in
    let totalHalfW := Qmax (EREntity.width entity / 2) (radiusX r + maxRx r) in
    let totalHalfH := Qmax (EREntity.height entity / 2) (radiusY r + maxRy r) in
    mkNodeLabel (EREntity.displayName entity)
      (totalHalfW * 2) (totalHalfH * 2)
  end.

Definition layoutGraph (m : Model) : Graph :=
  let g0 := mkGraph layoutConfig [] [] in
  let g1 :=
    fold_left
      (fun g entity =>
         setNode (EREntity.id entity) (layoutNode (attributes m) entity) g)
      (entities m) g0 in
  fold_left
    (fun g rel =>
       setEdge (ERRelationship.fromEntityId rel)
         (ERRelationship.toEntityId rel)
         (mkEdgeLabel (ERRelationship.displayName rel) 1) g)
    (relationships m) g1.

(** The dagre library: absent ([None]) when the script did not load;
    otherwise [dagre.layout] maps the graph to the centre it gives each node,
    or throws ([None]). *)
Variable dagre : option (Graph -> option (string -> Q * Q)).

(** [entities.find(e => e.id === nodeId)] followed by the assignment of
    [entity.x] and [entity.y]: the first entity with that id is moved. *)
Fixpoint centerEntityAt (nodeId : string) (node : Q * Q)
    (es : list EREntity.t) : list EREntity.t :=
  match es with
  | [] => []
  | entity :: rest =>
    if String.eqb (EREntity.id entity) nodeId then
      entityMoveTo entity
        (fst node - EREntity.width entity / 2)
        (snd node - EREntity.height entity / 2)
      :: rest
    else entity :: centerEntityAt nodeId node rest
  end.

(** [g_layout.nodes().forEach(nodeId => ...)]: nodes without a label
    ([if (node)]) are passed over. *)
Definition applyPositions (position : string -> Q * Q)
    (nodes : list (string * option NodeLabel)) (es : list EREntity.t)
    : list EREntity.t :=
  fold_left
    (fun es n =>
       match snd n with
       | Some _ => centerEntityAt (fst n) (position (fst n)) es
       | None => es
       end)
    nodes es.

(** [entities.forEach(entity => arrangeAttributes(entity.id))]. *)
Definition arrangeAll (es : list EREntity.t) (attrs : list ERAttribute.t)
    : list ERAttribute.t :=
  fold_left (fun attrs entity => arrangeAttrs es (EREntity.id entity) attrs)
    es attrs.

(** The body of [relationships.forEach(rel => ...)] of [autoLayout]. *)
Definition placeRelationship (es : list EREntity.t) (rel : ERRelationship.t)
    : ERRelationship.t :=
  match findEntity (ERRelationship.fromEntityId rel) es,
        findEntity (ERRelationship.toEntityId rel) es with
  | Some fromEntity, Some toEntity =>
    let fromCenterX := EREntity.x fromEntity + EREntity.width fromEntity / 2 in
    let fromCenterY := EREntity.y fromEntity + EREntity.height fromEntity / 2 in
    let toCenterX := EREntity.x toEntity + EREntity.width toEntity / 2 in
    let toCenterY := EREntity.y toEntity + EREntity.height toEntity / 2 in
    let x := (fromCenterX + toCenterX) / 2 in
    let y := (fromCenterY + toCenterY) / 2 in
    let x := if Qlt_le_dec (Qabs (fromCenterX - toCenterX)) 30
             then x + 25 else x in
    let y := if Qlt_le_dec (Qabs (fromCenterY - toCenterY)) 30
             then y + 20 else y in
    relationshipMoveTo rel x y
  | _, _ => rel
  end.

Definition autoLayout (m : Model) : Model :=
  match entities m with
  | [] => m
  | _ :: _ =>
    match dagre with
    | None => m
    | Some layout =>
      let g_layout := layoutGraph m in
      match layout g_layout with
      | None => m
      | Some position =>
        let es := applyPositions position (g_nodes g_layout) (entities m) in
        let attrs := arrangeAll es (attributes m) in
        let rels := map (placeRelationship es) (relationships m) in
        mkModel es attrs rels
      end
    end
  end.

(** ** Dragging *)

(** [array[k] = v] for [k] within the array. *)
Fixpoint replaceNth {A : Type} (k : nat) (v : A) (l : list A) : list A :=
  match l, k with
  | [], _ => []
  | _ :: rest, O => v :: rest
  | a :: rest, S k' => a :: replaceNth k' v rest
  end.

(** The datum [d] bound to a dragged element is the object at some index [k]
    of its array; the drag handlers are applied to elements of the rendered
    arrays only.  [draggedAttribute] and [draggedRelationship] assign the
    pointer position and compute nothing; [draggedEntity], which adds
    differences, is embedded over binary64 ([Binary64.draggedEntity]). *)
Definition draggedAttribute (event : Point) (k : nat) (m : Model)
    : option Model :=
  match nth_error (attributes m) k with
  | None => None
  | Some d =>
    Some (mkModel (entities m)
            (replaceNth k (attributeMoveTo d (px event) (py event))
               (attributes m))
            (relationships m))
  end.

Definition draggedRelationship (event : Point) (k : nat) (m : Model)
    : option Model :=
  match nth_error (relationships m) k with
  | None => None
  | Some d =>
    Some (mkModel (entities m) (attributes m)
            (replaceNth k (relationshipMoveTo d (px event) (py event))
               (relationships m)))
  end.

(** ** Connectors and cardinality labels *)

(** What [updateConnections] appends to the connection group.  A coordinate
    read from a port is [None] when [getEntityBorderPoint] met a division by
    zero. *)
Inductive Primitive : Type :=
| Line (class : string) (x1 y1 x2 y2 : option Q) (markerEnd : bool)
| LabelRect (x y : option Q) (width height : Q)
| LabelText (x y : option Q) (text : string).

(** The [switch (rel.type)] of [updateConnections]:
    [(typeSymbolFrom, typeSymbolTo)]. *)
Definition typeSymbols (type : string) : string * string :=
  if String.eqb type "1:1" then ("1", "1")
  else if String.eqb type "1:N" then ("N", "1")
  else if String.eqb type "M:N" then ("M", "N")
  else ("N", "1").

Definition midpoint (port : option Q) (attach : Q) : option Q :=
  option_map (fun p => (p + attach) / 2) port.

(** The body of [attributes.forEach(attr => ...)]. *)
Definition attributeConnection (es : list EREntity.t) (attr : ERAttribute.t)
    : list Primitive :=
  match findEntity (ERAttribute.entityId attr) es with
  | None => []
  | Some entity =>
    let p :=
      getEntityBorderPoint entity (ERAttribute.x attr) (ERAttribute.y attr) in
    [Line "connection entity-attr-line"
       (option_map px p) (option_map py p)
       (Some (ERAttribute.x attr)) (Some (ERAttribute.y attr)) false]
  end.

(** The body of [relationships.forEach(rel => ...)]. *)
Definition relationshipConnection (es : list EREntity.t)
    (rel : ERRelationship.t) : list Primitive :=
  match findEntity (ERRelationship.fromEntityId rel) es,
        findEntity (ERRelationship.toEntityId rel) es with
  | Some fromEntity, Some toEntity =>
    let fromCenterX := EREntity.x fromEntity + EREntity.width fromEntity / 2 in
    let fromCenterY := EREntity.y fromEntity + EREntity.height fromEntity / 2 in
    let toCenterX := EREntity.x toEntity + EREntity.width toEntity / 2 in
    let toCenterY := EREntity.y toEntity + EREntity.height toEntity / 2 in
    let diamondW := ERRelationship.width rel / 2 in
    let diamondH := ERRelationship.height rel / 2 in
    let leftPoint :=
      mkPoint (ERRelationship.x rel - diamondW) (ERRelationship.y rel) in
    let rightPoint :=
      mkPoint (ERRelationship.x rel + diamondW) (ERRelationship.y rel) in
    let topPoint :=
      mkPoint (ERRelationship.x rel) (ERRelationship.y rel - diamondH) in
    let bottomPoint :=
      mkPoint (ERRelationship.x rel) (ERRelationship.y rel + diamondH) in
    let deltaX := Qabs (fromCenterX - toCenterX) in
    let deltaY := Qabs (fromCenterY - toCenterY) in
    let '(fromAttachPoint, toAttachPoint) :=
      if Qlt_le_dec deltaY deltaX then
        if Qlt_le_dec fromCenterX toCenterX
        then (leftPoint, rightPoint) else (rightPoint, leftPoint)
      else
        if Qlt_le_dec fromCenterY toCenterY
        then (topPoint, bottomPoint) else (bottomPoint, topPoint) in
    let fromPort :=
      getEntityBorderPoint fromEntity (px fromAttachPoint)
        (py fromAttachPoint) in
    let toPort :=
      getEntityBorderPoint toEntity (px toAttachPoint) (py toAttachPoint) in
    let midX1 := midpoint (option_map px fromPort) (px fromAttachPoint) in
    let midY1 := midpoint (option_map py fromPort) (py fromAttachPoint) in
    let midX2 := midpoint (option_map px toPort) (px toAttachPoint) in
    let midY2 := midpoint (option_map py toPort) (py toAttachPoint) in
    let '(typeSymbolFrom, typeSymbolTo) :=
      typeSymbols (ERRelationship.type rel) in
    [ Line "connection entity-rel-line"
        (option_map px fromPort) (option_map py fromPort)
        (Some (px fromAttachPoint)) (Some (py fromAttachPoint)) false;
      Line "connection entity-rel-line"
        (Some (px toAttachPoint)) (Some (py toAttachPoint))
        (option_map px toPort) (option_map py toPort) true;
      LabelRect (option_map (fun v => v - 20 / 2) midX1)
                (option_map (fun v => v - 18 / 2) midY1) 20 18;
      LabelText midX1 midY1 typeSymbolFrom;
      LabelRect (option_map (fun v => v - 20 / 2) midX2)
                (option_map (fun v => v - 18 / 2) midY2) 20 18;
      LabelText midX2 midY2 typeSymbolTo ]
  | _, _ => []
  end.

Definition updateConnections (showRelationships : bool) (m : Model)
    : list Primitive :=
  flat_map (attributeConnection (entities m)) (attributes m)
  ++ (if showRelationships
      then flat_map (relationshipConnection (entities m)) (relationships m)
      else []).

(** The texts of the cardinality labels among some primitives. *)
Definition labelTexts (ps : list Primitive) : list string :=
  flat_map (fun p => match p with LabelText _ _ t => [t] | _ => [] end) ps.

(** ** Export bounds *)

Record Bounds : Type := mkBounds
  { b_x : Q; b_y : Q; b_width : Q; b_height : Q }.

(** What the export reads from the page: the canvas size, the zoom transform
    and the bounding box of the drawing group. *)
Record Viewport : Type := mkViewport
  { canvasWidth : Q; canvasHeight : Q;
    transform_x : Q; transform_y : Q; transform_k : Q;
    gBBox : Bounds }.

(** [Math.min(acc, v)] and [Math.max(acc, v)] for an accumulator that starts
    at [Infinity], respectively [-Infinity]: [None] is that start value. *)
Definition accMin (acc : option Q) (v : Q) : option Q :=
  match acc with
  | None => Some v
  | Some a => Some (Qmin a v)
  end.

Definition accMax (acc : option Q) (v : Q) : option Q :=
  match acc with
  | None => Some v
  | Some a => Some (Qmax a v)
  end.

(** The running [minX, minY, maxX, maxY] and [hasElements]. *)
Record Extent : Type := mkExtent
  { minX : option Q; minY : option Q;
    maxX : option Q; maxY : option Q;
    hasElements : bool }.

Definition extendEntity (acc : Extent) (entity : EREntity.t) : Extent :=
  mkExtent
    (accMin (minX acc) (EREntity.x entity))
    (accMin (minY acc) (EREntity.y entity))
    (accMax (maxX acc) (EREntity.x entity + EREntity.width entity))
    (accMax (maxY acc) (EREntity.y entity + EREntity.height entity))
    true.

Definition extendAttribute (acc : Extent) (attr : ERAttribute.t) : Extent :=
  mkExtent
    (accMin (minX acc) (ERAttribute.x attr - ERAttribute.rx attr))
    (accMin (minY acc) (ERAttribute.y attr - ERAttribute.ry attr))
    (accMax (maxX acc) (ERAttribute.x attr + ERAttribute.rx attr))
    (accMax (maxY acc) (ERAttribute.y attr + ERAttribute.ry attr))
    true.

Definition extendRelationship (acc : Extent) (rel : ERRelationship.t)
    : Extent :=
  mkExtent
    (accMin (minX acc) (ERRelationship.x rel - ERRelationship.width rel / 2))
    (accMin (minY acc) (ERRelationship.y rel - ERRelationship.height rel / 2))
    (accMax (maxX acc) (ERRelationship.x rel + ERRelationship.width rel / 2))
    (accMax (maxY acc) (ERRelationship.y rel + ERRelationship.height rel / 2))
    true.

(** The connector loop: the centres of the two entities of a relationship. *)
Definition extendConnector (es : list EREntity.t) (acc : Extent)
    (rel : ERRelationship.t) : Extent :=
  match findEntity (ERRelationship.fromEntityId rel) es,
        findEntity (ERRelationship.toEntityId rel) es with
  | Some fromEntity, Some toEntity =>
    let fx := EREntity.x fromEntity + EREntity.width fromEntity / 2 in
    let fy := EREntity.y fromEntity + EREntity.height fromEntity / 2 in
    let tx := EREntity.x toEntity + EREntity.width toEntity / 2 in
    let ty := EREntity.y toEntity + EREntity.height toEntity / 2 in
    mkExtent
      (accMin (accMin (minX acc) fx) tx)
      (accMin (accMin (minY acc) fy) ty)
      (accMax (accMax (maxX acc) fx) tx)
      (accMax (accMax (maxY acc) fy) ty)
      (hasElements acc)
  | _, _ => acc
  end.

Definition diagramExtent (m : Model) : Extent :=
  let acc := mkExtent None None None None false in
  let acc := fold_left extendEntity (entities m) acc in
  let acc := fold_left extendAttribute (attributes m) acc in
  let acc := fold_left extendRelationship (relationships m) acc in
  fold_left (extendConnector (entities m)) (relationships m) acc.

(** The corners after the fallback for a diagram without elements. *)
Definition diagramCorners (vp : Viewport) (m : Model) : Q * Q * Q * Q :=
  let acc := diagramExtent m in
  match hasElements acc, minX acc, minY acc, maxX acc, maxY acc with
  | true, Some minX, Some minY, Some maxX, Some maxY =>
    (minX, minY, maxX, maxY)
  | _, _, _, _, _ =>
    let bbox := gBBox vp in
    if Qlt_le_dec 0 (b_width bbox) then
      if Qlt_le_dec 0 (b_height bbox) then
        (b_x bbox, b_y bbox,
         b_x bbox + b_width bbox, b_y bbox + b_height bbox)
      else (0, 0, canvasWidth vp, canvasHeight vp)
    else (0, 0, canvasWidth vp, canvasHeight vp)
  end.

(** The zoom scale [transform.k] lies in [[0.1, 4]] ([scaleExtent]). *)
Definition currentViewBounds (vp : Viewport) : Bounds :=
  mkBounds (- transform_x vp / transform_k vp)
           (- transform_y vp / transform_k vp)
           (canvasWidth vp / transform_k vp)
           (canvasHeight vp / transform_k vp).

(** [exportBounds] of [exportAsPNG]. *)
Definition exportAsPNG_bounds (currentViewOnly : bool) (vp : Viewport)
    (m : Model) : Bounds :=
  if currentViewOnly then currentViewBounds vp
  else
    let '(minX, minY, maxX, maxY) := diagramCorners vp m in
    let padding := 50 in
    let exportBounds :=
      mkBounds (minX - padding) (minY - padding)
               ((maxX - minX) + padding * 2)
               ((maxY - minY) + padding * 2) in
    mkBounds (b_x exportBounds) (b_y exportBounds)
             (Qmax (b_width exportBounds) 400)
             (Qmax (b_height exportBounds) 300).

(** [exportBounds] of [exportAsSVG]. *)
Definition exportAsSVG_bounds (currentViewOnly : bool) (vp : Viewport)
    (m : Model) : Bounds :=
  if currentViewOnly then currentViewBounds vp
  else
    let '(minX, minY, maxX, maxY) := diagramCorners vp m in
    let padding := 50 in
    mkBounds (minX - padding) (minY - padding)
             (maxX - minX + padding * 2)
             (maxY - minY + padding * 2).

(** ** Project persistence *)

(** The snapshot [projectData] that [saveProject] sends. *)
Record AttrSnapshot : Type := mkAttrSnapshot
  { as_id : string;
    as_name : string;
    as_displayName : string;
    as_type : string;
    as_isPK : bool;
    as_isFK : bool;
    as_comment : option string;
    as_x : Q; as_y : Q; as_rx : Q; as_ry : Q }.

Record EntitySnapshot : Type := mkEntitySnapshot
  { es_id : string;
    es_name : string;
    es_displayName : string;
    es_x : Q; es_y : Q; es_width : Q; es_height : Q;
    es_attributes : option (list AttrSnapshot) }.

Record RelSnapshot : Type := mkRelSnapshot
  { rs_id : string;
    rs_name : string;
    rs_displayName : string;
    rs_fromEntityId : string;
    rs_toEntityId : string;
    rs_type : string;
    rs_x : Q; rs_y : Q; rs_width : Q; rs_height : Q }.

Record ProjectData : Type := mkProjectData
  { project_id : option string;
    project_name : string;
    project_sql : string;
    project_entities : list EntitySnapshot;
    project_relationships : list RelSnapshot }.

Definition attrSnapshot (a : ERAttribute.t) : AttrSnapshot :=
  mkAttrSnapshot (ERAttribute.id a) (ERAttribute.name a)
    (ERAttribute.displayName a) (ERAttribute.type a)
    (ERAttribute.isPK a) (ERAttribute.isFK a) (ERAttribute.comment a)
    (ERAttribute.x a) (ERAttribute.y a) (ERAttribute.rx a) (ERAttribute.ry a).

Definition entitySnapshot (attrs : list ERAttribute.t) (e : EREntity.t)
    : EntitySnapshot :=
  mkEntitySnapshot (EREntity.id e) (EREntity.name e) (EREntity.displayName e)
    (EREntity.x e) (EREntity.y e) (EREntity.width e) (EREntity.height e)
    (Some (map attrSnapshot (attributesOf (EREntity.id e) attrs))).

Definition relSnapshot (r : ERRelationship.t) : RelSnapshot :=
  mkRelSnapshot (ERRelationship.id r) (ERRelationship.name r)
    (ERRelationship.displayName r) (ERRelationship.fromEntityId r)
    (ERRelationship.toEntityId r) (ERRelationship.type r)
    (ERRelationship.x r) (ERRelationship.y r)
    (ERRelationship.width r) (ERRelationship.height r).

(** The construction of [projectData] in [saveProject]. *)
Definition saveProject_projectData (currentProjectId : option string)
    (projectName sql : string) (m : Model) : ProjectData :=
  mkProjectData currentProjectId projectName sql
    (map (entitySnapshot (attributes m)) (entities m))
    (map relSnapshot (relationships m)).

(** [entityData.attributes.forEach(attrData => ...)] of [loadProject]. *)
Fixpoint restoreAttributes (entityId : string) (clock : nat)
    (attrDatas : list AttrSnapshot) (attrs : list ERAttribute.t)
    : list ERAttribute.t * nat :=
  match attrDatas with
  | [] => (attrs, clock)
  | attrData :: rest =>
    let attr :=
      newERAttribute (nonce clock) (as_name attrData) (as_type attrData)
        entityId (as_isPK attrData) (as_isFK attrData)
        (Some (as_displayName attrData)) (as_comment attrData) in
    let attr :=
      ERAttribute.make (as_id attrData) (ERAttribute.name attr)
        (ERAttribute.displayName attr) (ERAttribute.comment attr)
        (ERAttribute.type attr) (ERAttribute.entityId attr)
        (ERAttribute.isPK attr) (ERAttribute.isFK attr)
        (as_x attrData) (as_y attrData) (as_rx attrData) (as_ry attrData) in
    restoreAttributes entityId (S clock) rest (attrs ++ [attr])
  end.

(** [project.entities.forEach(entityData => ...)] of [loadProject]. *)
Fixpoint restoreEntities (clock : nat) (entityDatas : list EntitySnapshot)
    (m : Model) : Model * nat :=
  match entityDatas with
  | [] => (m, clock)
  | entityData :: rest =>
    let entity :=
      newEREntity (nonce clock) (es_name entityData)
        (es_x entityData) (es_y entityData)
        (Some (es_displayName entityData)) in
    let entity :=
      EREntity.make (es_id entityData) (EREntity.name entity)
        (EREntity.displayName entity) (EREntity.x entity) (EREntity.y entity)
        (es_width entityData) (es_height entityData) in
    let es := entities m ++ [entity] in
    let '(attrs, clock') :=
      match es_attributes entityData with
      | Some attrDatas =>
        restoreAttributes (EREntity.id entity) (S clock) attrDatas
          (attributes m)
      | None => (attributes m, S clock)
      end in
    restoreEntities clock' rest (mkModel es attrs (relationships m))
  end.

(** [project.relationships.forEach(relData => ...)] of [loadProject]. *)
Fixpoint restoreRelationships (clock : nat) (relDatas : list RelSnapshot)
    (rels : list ERRelationship.t) : list ERRelationship.t :=
  match relDatas with
  | [] => rels
  | relData :: rest =>
    let rel :=
      newERRelationship (nonce clock) (rs_name relData)
        (rs_fromEntityId relData) (rs_toEntityId relData)
        (Some (rs_type relData)) (Some (rs_displayName relData))
        None None in
    let rel :=
      ERRelationship.make (rs_id relData) (ERRelationship.name rel)
        (ERRelationship.displayName rel) (ERRelationship.fromEntityId rel)
        (ERRelationship.toEntityId rel) (ERRelationship.type rel)
        (ERRelationship.fromAttr rel) (ERRelationship.toAttr rel)
        (rs_x relData) (rs_y relData)
        (rs_width relData) (rs_height relData) in
    restoreRelationships (S clock) rest (rels ++ [rel])
  end.

(** The reconstruction of the three arrays in [loadProject], from
    [entities = []] to the last [relationships.push(rel)]. *)
Definition loadProject_restore (clock : nat) (project : ProjectData)
    : Model :=
  let '(m, clock1) :=
    restoreEntities clock (project_entities project) (mkModel [] [] []) in
  mkModel (entities m) (attributes m)
    (restoreRelationships clock1 (project_relationships project) []).

(** *** The states the editor builds

    Every path that fills the arrays ([doImport], [applySimplifiedERData],
    [loadProject]) pushes an entity and then its attributes, and no path
    removes or reorders elements; a display name is set by a constructor
    ([displayName || name]) or by an inline edit, which refuses the empty
    string. *)

Fixpoint distinct (ids : list string) : bool :=
  match ids with
  | [] => true
  | id :: rest => negb (existsb (String.eqb id) rest) && distinct rest
  end.

(** The attributes that follow the leading run owned by [entityId]. *)
Fixpoint dropOwned (entityId : string) (attrs : list ERAttribute.t)
    : list ERAttribute.t :=
  match attrs with
  | [] => []
  | a :: rest =>
    if String.eqb (ERAttribute.entityId a) entityId
    then dropOwned entityId rest else attrs
  end.

(** The attributes are stored entity by entity, in the order of the
    entities. *)
Fixpoint ownedInOrder (es : list EREntity.t) (attrs : list ERAttribute.t)
    : bool :=
  match es with
  | [] => match attrs with [] => true | _ :: _ => false end
  | e :: rest => ownedInOrder rest (dropOwned (EREntity.id e) attrs)
  end.

(** [displayName || name] is [displayName]. *)
Definition displayNameKept (name displayName : string) : bool :=
  negb (String.eqb displayName "") || String.eqb name "".

Definition wellFormed (m : Model) : bool :=
  distinct (map EREntity.id (entities m))
  && ownedInOrder (entities m) (attributes m)
  && forallb (fun e => displayNameKept (EREntity.name e)
                         (EREntity.displayName e)) (entities m)
  && forallb (fun a => displayNameKept (ERAttribute.name a)
                         (ERAttribute.displayName a)) (attributes m)
  && forallb (fun r => displayNameKept (ERRelationship.name r)
                         (ERRelationship.displayName r)) (relationships m).

(** The relationship as [loadProject] rebuilds it: the snapshot does not
    carry [fromAttr] and [toAttr]. *)
Definition withoutJoinAttrs (r : ERRelationship.t) : ERRelationship.t :=
  ERRelationship.make (ERRelationship.id r) (ERRelationship.name r)
    (ERRelationship.displayName r) (ERRelationship.fromEntityId r)
    (ERRelationship.toEntityId r) (ERRelationship.type r) None None
    (ERRelationship.x r) (ERRelationship.y r)
    (ERRelationship.width r) (ERRelationship.height r).

End Editor.

(** ** The model without its positions

    What the layout reads of an element apart from its position: the element
    with its position set to the origin. *)

Definition eraseEntity (e : EREntity.t) : EREntity.t := entityMoveTo e 0 0.

Definition eraseAttribute (a : ERAttribute.t) : ERAttribute.t :=
  attributeMoveTo a 0 0.

Definition eraseRelationship (r : ERRelationship.t) : ERRelationship.t :=
  relationshipMoveTo r 0 0.

Definition erasePositions (m : Model) : Model :=
  mkModel (map eraseEntity (entities m))
          (map eraseAttribute (attributes m))
          (map eraseRelationship (relationships m)).

(** ** Sample data *)

(** A text metric for examples: six tenths of the font size per character. *)
Definition sampleMeasure (text : string) (fontSize : Q) (_ _ : string) : Q :=
  ofNat (String.length text) * fontSize * 0.6.

Definition sampleFonts : FontSizes := mkFontSizes 14 12 12.

Definition sampleNonce (n : nat) : string :=
  String (Ascii.ascii_of_nat (97 + n)) "".

Definition sampleViewport : Viewport :=
  mkViewport 800 600 0 0 1 (mkBounds 0 0 0 0).

(** One entity at (100,100) of size (120,60), nothing else. *)
Definition singleEntity : EREntity.t :=
  EREntity.make "entity_1" "Department" "Department" 100 100 120 60.

Definition singleEntityModel : Model := mkModel [singleEntity] [] [].

(** An entity of width zero. *)
Definition flatEntity : EREntity.t :=
  EREntity.make "entity_0" "Flat" "Flat" 0 0 0 60.

(** Department and Employee, their attributes and the relationship between
    them. *)
Definition department : EREntity.t :=
  EREntity.make "entity_1" "Department" "Department" 200 100 120 60.

Definition employee : EREntity.t :=
  EREntity.make "entity_2" "Employee" "Employee" 500 100 110 60.

Definition dept_id : ERAttribute.t :=
  ERAttribute.make "attr_1" "dept_id" "dept_id" None "INT" "entity_1"
    true false 260 20 40 25.

Definition emp_id : ERAttribute.t :=
  ERAttribute.make "attr_2" "emp_id" "emp_id" None "INT" "entity_2"
    true false 555 20 40 25.

Definition emp_dept_id : ERAttribute.t :=
  ERAttribute.make "attr_3" "dept_id" "dept_id" None "INT" "entity_2"
    false true 555 240 40 25.

Definition belongs_to : ERRelationship.t :=
  ERRelationship.make "rel_1" "belongs_to" "belongs_to" "entity_2" "entity_1"
    "1:N" (Some "dept_id") (Some "dept_id") 410 130 102 50.

Definition companyModel : Model :=
  mkModel [department; employee] [dept_id; emp_id; emp_dept_id] [belongs_to].

(** A stand-in for dagre: Department above Employee, on one vertical line. *)
Definition sampleDagre : option (Graph -> option (string -> Q * Q)) :=
  Some (fun _ =>
          Some (fun nodeId =>
                  if String.eqb nodeId "entity_1" then (200, 100)
                  else (200, 400))).

(** ** Tactics *)

(** Case analysis on every test of the goal. *)
Ltac case_tests :=
  repeat match goal with
         | |- context [if ?c then _ else _] => destruct c
         end.

(** * More of the editor

    The functions around those above: inline editing, the size settings,
    the view (render, zoom, focus), the import dialogue, the simplified
    diagram and the project dialogue. *)

Section EditorMore.

Variable measureTextWidth : string -> Q -> string -> string -> Q.
Variable fontSizes : FontSizes.
Variable defaultSizes : DefaultSizes.
Variable Math_PI : Q.
Variable Math_cos : Q -> Q.
Variable Math_sin : Q -> Q.
Variable nonce : nat -> string.

(** ** Inline editing *)

(** [updateName(newName)] of [ERAttribute] and [ERRelationship]. *)
Definition ERAttribute_updateName (a : ERAttribute.t) (newName : string)
    : ERAttribute.t :=
  ERAttribute.make (ERAttribute.id a) (ERAttribute.name a) newName
    (ERAttribute.comment a) (ERAttribute.type a) (ERAttribute.entityId a)
    (ERAttribute.isPK a) (ERAttribute.isFK a)
    (ERAttribute.x a) (ERAttribute.y a)
    (calculateAttributeWidth measureTextWidth fontSizes newName)
    (ERAttribute.ry a).

Definition ERRelationship_updateName (r : ERRelationship.t)
    (newName : string) : ERRelationship.t :=
  ERRelationship.make (ERRelationship.id r) (ERRelationship.name r) newName
    (ERRelationship.fromEntityId r) (ERRelationship.toEntityId r)
    (ERRelationship.type r) (ERRelationship.fromAttr r)
    (ERRelationship.toAttr r) (ERRelationship.x r) (ERRelationship.y r)
    (calculateRelationshipWidth measureTextWidth fontSizes newName)
    (ERRelationship.height r).

(** The test of [handleSave] in [createInlineEditor]:
    [newValue && newValue !== currentText], where [newValue] is
    [input.value.trim()]. *)
Definition handleSave_commits (newValue currentText : string) : bool :=
  negb (String.eqb newValue "") && negb (String.eqb newValue currentText).

(** [editEntityName(entityData, textElement)] followed by a save with the
    trimmed text [newValue]; [entityData] is the object at index [k] of
    [entities].  A cancel, by button, Escape or a click outside, calls
    nothing. *)
Definition editEntityName (k : nat) (newValue : string) (m : Model)
    : option Model :=
  match nth_error (entities m) k with
  | None => None
  | Some entityData =>
    if handleSave_commits newValue (EREntity.displayName entityData) then
      Some (mkModel
              (replaceNth k
                 (EREntity_updateName measureTextWidth fontSizes entityData
                    newValue)
                 (entities m))
              (attributes m) (relationships m))
    else Some m
  end.

Definition editAttributeName (k : nat) (newValue : string) (m : Model)
    : option Model :=
  match nth_error (attributes m) k with
  | None => None
  | Some attributeData =>
    if handleSave_commits newValue (ERAttribute.displayName attributeData)
    then
      Some (mkModel (entities m)
              (replaceNth k (ERAttribute_updateName attributeData newValue)
                 (attributes m))
              (relationships m))
    else Some m
  end.

Definition editRelationshipName (k : nat) (newValue : string) (m : Model)
    : option Model :=
  match nth_error (relationships m) k with
  | None => None
  | Some relationshipData =>
    if handleSave_commits newValue
         (ERRelationship.displayName relationshipData)
    then
      Some (mkModel (entities m) (attributes m)
              (replaceNth k
                 (ERRelationship_updateName relationshipData newValue)
                 (relationships m)))
    else Some m
  end.

(** ** The size settings *)

(** [parseInt(value) || fallback]: [parseInt] gives an integer or [NaN]
    ([None]); [NaN] and zero are falsy. *)
Definition parsedOr (parsed : option Z) (fallback : Q) : Q :=
  match parsed with
  | Some z => if Z.eqb z 0 then fallback else inject_Z z
  | None => fallback
  end.

(** [updateEntitySize()], given what [parseInt] reads in the two inputs. *)
Definition updateEntitySize (widthInput heightInput : option Z)
    (st : DefaultSizes * Model) : DefaultSizes * Model :=
  let '(sizes, m) := st in
  let width := parsedOr widthInput 120 in
  let height := parsedOr heightInput 60 in
  (mkDefaultSizes width height
     (ds_attribute_rx sizes) (ds_attribute_ry sizes)
     (ds_relationship_width sizes) (ds_relationship_height sizes),
   mkModel
     (map (fun entity =>
             EREntity.make (EREntity.id entity) (EREntity.name entity)
               (EREntity.displayName entity)
               (EREntity.x entity) (EREntity.y entity)
               (Qmax width
                  (calculateEntityWidth measureTextWidth fontSizes
                     (EREntity.displayName entity)))
               height)
          (entities m))
     (attributes m) (relationships m)).

Definition updateAttributeSize (rxInput ryInput : option Z)
    (st : DefaultSizes * Model) : DefaultSizes * Model :=
  let '(sizes, m) := st in
  let rx := parsedOr rxInput 60 in
  let ry := parsedOr ryInput 25 in
  (mkDefaultSizes (ds_entity_width sizes) (ds_entity_height sizes) rx ry
     (ds_relationship_width sizes) (ds_relationship_height sizes),
   mkModel (entities m)
     (map (fun attr =>
             ERAttribute.make (ERAttribute.id attr) (ERAttribute.name attr)
               (ERAttribute.displayName attr) (ERAttribute.comment attr)
               (ERAttribute.type attr) (ERAttribute.entityId attr)
               (ERAttribute.isPK attr) (ERAttribute.isFK attr)
               (ERAttribute.x attr) (ERAttribute.y attr)
               (Qmax rx
                  (calculateAttributeWidth measureTextWidth fontSizes
                     (ERAttribute.displayName attr)))
               ry)
          (attributes m))
     (relationships m)).

Definition updateRelationshipSize (widthInput heightInput : option Z)
    (st : DefaultSizes * Model) : DefaultSizes * Model :=
  let '(sizes, m) := st in
  let width := parsedOr widthInput 80 in
  let height := parsedOr heightInput 50 in
  (mkDefaultSizes (ds_entity_width sizes) (ds_entity_height sizes)
     (ds_attribute_rx sizes) (ds_attribute_ry sizes) width height,
   mkModel (entities m) (attributes m)
     (map (fun rel =>
             ERRelationship.make (ERRelationship.id rel)
               (ERRelationship.name rel) (ERRelationship.displayName rel)
               (ERRelationship.fromEntityId rel)
               (ERRelationship.toEntityId rel) (ERRelationship.type rel)
               (ERRelationship.fromAttr rel) (ERRelationship.toAttr rel)
               (ERRelationship.x rel) (ERRelationship.y rel)
               (Qmax width
                  (calculateRelationshipWidth measureTextWidth fontSizes
                     (ERRelationship.displayName rel)))
               height)
          (relationships m))).

(** What [parseInt] reads in the six inputs of the size panel. *)
Record SizeInputs : Type := mkSizeInputs
  { in_entity_width : option Z; in_entity_height : option Z;
    in_attr_width : option Z; in_attr_height : option Z;
    in_rel_width : option Z; in_rel_height : option Z }.

(** [applyUniformSize()]. *)
Definition applyUniformSize (inputs : SizeInputs)
    (st : DefaultSizes * Model) : DefaultSizes * Model :=
  let st := updateEntitySize (in_entity_width inputs)
              (in_entity_height inputs) st in
  let st := updateAttributeSize (in_attr_width inputs)
              (in_attr_height inputs) st in
  let '(sizes, m) := updateRelationshipSize (in_rel_width inputs)
                       (in_rel_height inputs) st in
  (sizes,
   mkModel (entities m)
     (arrangeAll Math_PI Math_cos Math_sin (entities m) (attributes m))
     (relationships m)).

(** ** Clearing *)

(** [clearDiagram()], given the user's answer to [confirm]. *)
Definition clearDiagram (confirmed : bool) (m : Model) : Model :=
  if confirmed then mkModel [] [] [] else m.

(** ** The rendered scene *)

(** What [renderDiagram] leaves in the drawing group: the data bound to the
    entity, attribute and relationship groups, and the connectors. *)
Record Scene : Type := mkScene
  { entityGroups : list EREntity.t;
    attributeGroups : list ERAttribute.t;
    relationshipGroups : list ERRelationship.t;
    connections : list Primitive }.

Definition renderDiagram (showRelationships : bool) (m : Model) : Scene :=
  mkScene (entities m) (attributes m)
    (if showRelationships then relationships m else [])
    (updateConnections showRelationships m).

(** [toggleRelationships()]: the flag is flipped and the diagram rendered. *)
Definition toggleRelationships (showRelationships : bool) (m : Model)
    : bool * Scene :=
  let showRelationships := negb showRelationships in
  (showRelationships, renderDiagram showRelationships m).

(** The class of a connector between an entity and an attribute. *)
Definition isAttributeLine (p : Primitive) : bool :=
  match p with
  | Line class _ _ _ _ _ => String.eqb class "connection entity-attr-line"
  | _ => false
  end.

(** ** Zoom and focus *)

(** A zoom transform [{k, x, y}] of d3. *)
Record Transform : Type := mkTransform { t_k : Q; t_x : Q; t_y : Q }.

(** The transform applied to a point of the diagram, as d3 does. *)
Definition applyTransform (t : Transform) (p : Point) : Point :=
  mkPoint (t_k t * px p + t_x t) (t_k t * py p + t_y t).

(** [d3.zoomIdentity.translate(x, y).scale(k)]. *)
Definition translateThenScale (x y k : Q) : Transform :=
  mkTransform (1 * k) (0 + 1 * x) (0 + 1 * y).

(** The rendered groups in document order, each with the position of its
    datum and the size of its bounding box; [getBBox] depends on the datum
    and the fonts only. *)
Definition renderedBoxes (entityBBox : EREntity.t -> Q * Q)
    (attributeBBox : ERAttribute.t -> Q * Q)
    (relationshipBBox : ERRelationship.t -> Q * Q)
    (showRelationships : bool) (m : Model) : list Bounds :=
  map (fun d => mkBounds (EREntity.x d) (EREntity.y d)
                  (fst (entityBBox d)) (snd (entityBBox d)))
      (entities m)
  ++ map (fun d => mkBounds (ERAttribute.x d) (ERAttribute.y d)
                     (fst (attributeBBox d)) (snd (attributeBBox d)))
       (attributes m)
  ++ (if showRelationships
      then map (fun d => mkBounds (ERRelationship.x d) (ERRelationship.y d)
                           (fst (relationshipBBox d))
                           (snd (relationshipBBox d)))
             (relationships m)
      else []).

(** One step of the [each] loop of [zoomFit] on [(minX, minY, maxX, maxY)]. *)
Definition extendBox (acc : Q * Q * Q * Q) (box : Bounds) : Q * Q * Q * Q :=
  let '(minX, minY, maxX, maxY) := acc in
  (Qmin minX (b_x box), Qmin minY (b_y box),
   Qmax maxX (b_x box + b_width box), Qmax maxY (b_y box + b_height box)).

(** The bounds [zoomFit] computes.  With an entity rendered the loop runs at
    least once, and its first step, from [Infinity] and [-Infinity], gives
    the corners of the first box. *)
Definition zoomFitBounds (boxes : list Bounds) : option (Q * Q * Q * Q) :=
  match boxes with
  | [] => None
  | box :: rest =>
    Some (fold_left extendBox rest
            (b_x box, b_y box,
             b_x box + b_width box, b_y box + b_height box))
  end.

(** [zoomFit()]: the transform it animates to, or [None] when it returns
    early.  The rendered groups are those of the current arrays. *)
Definition zoomFit (entityBBox : EREntity.t -> Q * Q)
    (attributeBBox : ERAttribute.t -> Q * Q)
    (relationshipBBox : ERRelationship.t -> Q * Q)
    (showRelationships : bool) (width height : Q) (m : Model)
    : option Transform :=
  match entities m with
  | [] => None
  | _ :: _ =>
    match zoomFitBounds
            (renderedBoxes entityBBox attributeBBox relationshipBBox
               showRelationships m) with
    | None => None
    | Some (minX, minY, maxX, maxY) =>
      let boundsWidth := maxX - minX in
      let boundsHeight := maxY - minY in
      if Qeq_bool boundsWidth 0 || Qeq_bool boundsHeight 0 then None
      else
        let fullWidth := width in
        let fullHeight := height in
        let midX := minX + boundsWidth / 2 in
        let midY := minY + boundsHeight / 2 in
        let scale :=
          Qmin (fullWidth / boundsWidth) (fullHeight / boundsHeight) * 0.9 in
        Some (translateThenScale (fullWidth / 2 - scale * midX)
                (fullHeight / 2 - scale * midY) scale)
    end
  end.

(** The transform of [focusEntity(entityId)], [focusAttribute(attrId)] and
    [focusRelationship(relId)]; [None] when the element is not found. *)
Definition focusEntity (entityId : string) (width height : Q) (m : Model)
    : option Transform :=
  match findEntity entityId (entities m) with
  | None => None
  | Some entity =>
    Some (translateThenScale (width / 2 - EREntity.x entity * 1.5)
            (height / 2 - EREntity.y entity * 1.5) 1.5)
  end.

Definition focusAttribute (attrId : string) (width height : Q) (m : Model)
    : option Transform :=
  match find (fun a => String.eqb (ERAttribute.id a) attrId)
          (attributes m) with
  | None => None
  | Some attr =>
    Some (translateThenScale (width / 2 - ERAttribute.x attr * 1.5)
            (height / 2 - ERAttribute.y attr * 1.5) 1.5)
  end.

Definition focusRelationship (relId : string) (width height : Q) (m : Model)
    : option Transform :=
  match find (fun r => String.eqb (ERRelationship.id r) relId)
          (relationships m) with
  | None => None
  | Some rel =>
    Some (translateThenScale (width / 2 - ERRelationship.x rel * 1.5)
            (height / 2 - ERRelationship.y rel * 1.5) 1.5)
  end.

(** The zoom transform the current-view export reads. *)
Definition viewportTransform (vp : Viewport) : Transform :=
  mkTransform (transform_k vp) (transform_x vp) (transform_y vp).

(** ** The import dialogue *)

(** The reply of [/api/get_translation_price]. *)
Record PriceData : Type := mkPriceData
  { price_success : bool;
    price_logged_in : bool;
    price_sufficient : bool }.

Inductive PriceResult : Type :=
| PriceRejected
| PriceReply (priceData : PriceData).

(** [pendingImportData]: the text and the translation flag of the import
    that waits for the user's agreement to the charge. *)
Definition Pending : Type := option (string * bool).

(** [executeImport()].  [blank] is [!sql.trim()]; the price reply is read
    only when the translation is asked for, the parse reply only when
    [doImport] runs. *)
Definition executeImport (sql : string) (blank : bool)
    (enableTranslation : bool) (price : PriceResult)
    (response : FetchResult) (confirmed : bool) (clock : nat)
    (st : Pending * Model) : Pending * Model :=
  let '(pending, m) := st in
  if blank then (pending, m)
  else if enableTranslation then
    match price with
    | PriceRejected => (pending, m)
    | PriceReply priceData =>
      if negb (price_success priceData) then (pending, m)
      else if negb (price_logged_in priceData) then (pending, m)
      else if negb (price_sufficient priceData) then (pending, m)
      else (Some (sql, enableTranslation), m)
    end
  else
    (pending,
     fst (doImport measureTextWidth fontSizes defaultSizes
            Math_PI Math_cos Math_sin nonce response confirmed clock m)).

(** [confirmCharge()]. *)
Definition confirmCharge (response : FetchResult) (confirmed : bool)
    (clock : nat) (st : Pending * Model) : Pending * Model :=
  let '(pending, m) := st in
  match pending with
  | Some _ =>
    (None,
     fst (doImport measureTextWidth fontSizes defaultSizes
            Math_PI Math_cos Math_sin nonce response confirmed clock m))
  | None => (pending, m)
  end.

(** [closeChargeConfirm()]. *)
Definition closeChargeConfirm (st : Pending * Model) : Pending * Model :=
  (None, snd st).

(** ** The simplified diagram *)

(** The reply of [/api/generate_simplified_er]; a field that may be absent
    is an [option]. *)
Record SimplifiedEntityData : Type := mkSimplifiedEntityData
  { se_name : string;
    se_displayName : option string;
    se_attributes : option (list AttrData) }.

Record SimplifiedData : Type := mkSimplifiedData
  { sd_entities : option (list SimplifiedEntityData);
    sd_relationships : option (list RelData);
    sd_hideAttributes : bool }.

Inductive SimplifiedResult : Type :=
| SimplifiedFetchRejected
| SimplifiedJsonRejected
| SimplifiedResponse (ok : bool) (data : SimplifiedData).

(** [data.entities.forEach((entityData, index) => ...)] of
    [applySimplifiedERData].  The mark [entity.simplified = true] is left
    out: nothing reads it. *)
Fixpoint simplifiedEntities (hideAttributes : bool) (index clock : nat)
    (entityDatas : list SimplifiedEntityData) (m : Model) : Model * nat :=
  match entityDatas with
  | [] => (m, clock)
  | entityData :: rest =>
    let entity :=
      newEREntity measureTextWidth fontSizes defaultSizes
        (nonce clock) (se_name entityData)
        (200 + ofNat (index mod 3) * 250)
        (100 + ofNat (index / 3) * 200)
        (se_displayName entityData) in
    let es := entities m ++ [entity] in
    match (if hideAttributes then None else se_attributes entityData) with
    | Some attrDatas =>
      let '(attrs, clock') :=
        importAttributes measureTextWidth fontSizes defaultSizes nonce
          (EREntity.id entity) (S clock) attrDatas (attributes m) in
      simplifiedEntities hideAttributes (S index) clock' rest
        (arrangeAttributes Math_PI Math_cos Math_sin (EREntity.id entity)
           (mkModel es attrs (relationships m)))
    | None =>
      simplifiedEntities hideAttributes (S index) (S clock) rest
        (mkModel es (attributes m) (relationships m))
    end
  end.

(** [data.relationships.forEach(relData => ...)] of
    [applySimplifiedERData]: the relationship stays at the origin and has no
    join attributes. *)
Fixpoint simplifiedRelationships (clock : nat) (relDatas : list RelData)
    (m : Model) : Model :=
  match relDatas with
  | [] => m
  | relData :: rest =>
    let fromEntity :=
      find (fun e => String.eqb (EREntity.name e) (rd_from relData))
        (entities m) in
    let toEntity :=
      find (fun e => String.eqb (EREntity.name e) (rd_to relData))
        (entities m) in
    match fromEntity, toEntity with
    | Some fromEntity, Some toEntity =>
      let rel :=
        newERRelationship measureTextWidth fontSizes defaultSizes
          (nonce clock) (rd_name relData)
          (EREntity.id fromEntity) (EREntity.id toEntity)
          (Some (js_or (rd_type relData) "1:N"))
          (rd_displayName relData) None None in
      simplifiedRelationships (S clock) rest
        (mkModel (entities m) (attributes m) (relationships m ++ [rel]))
    | _, _ => simplifiedRelationships clock rest m
    end
  end.

(** [applySimplifiedERData(data)]: the arrays it leaves, and whether it
    reached [renderDiagram()]; reading [forEach] of an absent array
    throws. *)
Definition applySimplifiedERData (data : SimplifiedData) (clock : nat)
    (m : Model) : Model * bool :=
  match sd_entities data with
  | None => (m, false)
  | Some entityDatas =>
    let '(m1, clock1) :=
      simplifiedEntities (sd_hideAttributes data) 0 clock entityDatas m in
    match sd_relationships data with
    | None => (m1, false)
    | Some relDatas => (simplifiedRelationships clock1 relDatas m1, true)
    end
  end.

(** [executeSimplifiedGeneration()] for a text that is not blank: the arrays
    it leaves, and whether the automatic layout is scheduled. *)
Definition executeSimplifiedGeneration (result : SimplifiedResult)
    (clock : nat) (m : Model) : Model * bool :=
  match result with
  | SimplifiedFetchRejected => (m, false)
  | SimplifiedJsonRejected => (m, false)
  | SimplifiedResponse false _ => (m, false)
  | SimplifiedResponse true data =>
    applySimplifiedERData data clock (mkModel [] [] [])
  end.

(** ** The project dialogue *)

(** [currentProjectId] and [currentProjectName]. *)
Record ProjectState : Type := mkProjectState
  { currentProjectId : option string;
    currentProjectName : option string }.

Inductive SaveResult : Type :=
| SaveFetchRejected
| SaveJsonRejected
| SaveResponse (ok : bool) (newProjectId : option string).

(** [currentProjectName || prompt(...)]: the answer of [prompt] is [null]
    ([None]) when the user cancels. *)
Definition projectNameFor (st : ProjectState) (promptAnswer : option string)
    : option string :=
  match currentProjectName st with
  | Some n => if String.eqb n "" then promptAnswer else Some n
  | None => promptAnswer
  end.

(** [saveProject()]: the project state it leaves and the body it sends, if
    it sends one. *)
Definition saveProject (promptAnswer : option string) (sql : string)
    (result : SaveResult) (st : ProjectState) (m : Model)
    : ProjectState * option ProjectData :=
  match projectNameFor st promptAnswer with
  | None => (st, None)
  | Some projectName =>
    if String.eqb projectName "" then (st, None)
    else
      let projectData :=
        saveProject_projectData (currentProjectId st) projectName sql m in
      match result with
      | SaveResponse true newProjectId =>
        (mkProjectState newProjectId (Some projectName), Some projectData)
      | _ => (st, Some projectData)
      end
  end.

(** The project of the reply of [/api/load_project]; a field that may be
    absent is an [option]. *)
Record LoadedProject : Type := mkLoadedProject
  { lp_id : option string;
    lp_name : option string;
    lp_entities : option (list EntitySnapshot);
    lp_relationships : option (list RelSnapshot) }.

Inductive LoadResult : Type :=
| LoadFetchRejected
| LoadJsonRejected
| LoadResponse (ok : bool) (project : option LoadedProject).

(** [loadProject(projectId)]: the project state and the arrays it leaves,
    and whether it reached [renderDiagram()].  The arrays are emptied before
    the project is read, and reading a field of an absent project, or
    [forEach] of an absent array, throws. *)
Definition loadProject (result : LoadResult) (clock : nat)
    (st : ProjectState) (m : Model) : ProjectState * Model * bool :=
  match result with
  | LoadFetchRejected => (st, m, false)
  | LoadJsonRejected => (st, m, false)
  | LoadResponse false _ => (st, m, false)
  | LoadResponse true None => (st, mkModel [] [] [], false)
  | LoadResponse true (Some project) =>
    match lp_entities project with
    | None => (st, mkModel [] [] [], false)
    | Some entityDatas =>
      let '(m1, clock1) :=
        restoreEntities measureTextWidth fontSizes defaultSizes nonce
          clock entityDatas (mkModel [] [] []) in
      match lp_relationships project with
      | None => (st, m1, false)
      | Some relDatas =>
        (mkProjectState (lp_id project) (lp_name project),
         mkModel (entities m1) (attributes m1)
           (restoreRelationships measureTextWidth fontSizes defaultSizes
              nonce clock1 relDatas []),
         true)
      end
    end
  end.

(** [deleteProject(projectId)], given the user's answer to [confirm] and
    whether the request succeeded. *)
Definition deleteProject (confirmed : bool) (projectId : string)
    (succeeded : bool) (st : ProjectState) : ProjectState :=
  if confirmed && succeeded then
    match currentProjectId st with
    | Some id =>
      if String.eqb projectId id then mkProjectState None None else st
    | None => st
    end
  else st.

End EditorMore.

(** ** Notions for the layout *)

(** The node [v] of a graph has a label. *)
Definition hasLabel (v : string) (nodes : list (string * option NodeLabel))
    : bool :=
  existsb (fun n => String.eqb (fst n) v
                    && match snd n with Some _ => true | None => false end)
    nodes.

(** The entity with its centre at the point dagre gives its node. *)
Definition centredOn (position : string -> Q * Q) (entity : EREntity.t)
    : EREntity.t :=
  entityMoveTo entity
    (fst (position (EREntity.id entity)) - EREntity.width entity / 2)
    (snd (position (EREntity.id entity)) - EREntity.height entity / 2).

(** The point of the ring for the owned attribute of index [i]. *)
Definition ringPoint (Math_cos Math_sin : Q -> Q) (ring : Ring) (i : nat)
    : Q * Q :=
  let angle := ring_start ring + ofNat i * ring_step ring in
  (ring_cx ring + Math_cos angle * ring_radiusX ring,
   ring_cy ring + Math_sin angle * ring_radiusY ring).

(** ** Elements without their sizes

    What the size settings leave of an element: the element with its size
    set to zero. *)

Definition withoutEntitySize (e : EREntity.t) : EREntity.t :=
  EREntity.make (EREntity.id e) (EREntity.name e) (EREntity.displayName e)
    (EREntity.x e) (EREntity.y e) 0 0.

Definition withoutAttributeSize (a : ERAttribute.t) : ERAttribute.t :=
  ERAttribute.make (ERAttribute.id a) (ERAttribute.name a)
    (ERAttribute.displayName a) (ERAttribute.comment a) (ERAttribute.type a)
    (ERAttribute.entityId a) (ERAttribute.isPK a) (ERAttribute.isFK a)
    (ERAttribute.x a) (ERAttribute.y a) 0 0.

Definition withoutRelationshipSize (r : ERRelationship.t)
    : ERRelationship.t :=
  ERRelationship.make (ERRelationship.id r) (ERRelationship.name r)
    (ERRelationship.displayName r) (ERRelationship.fromEntityId r)
    (ERRelationship.toEntityId r) (ERRelationship.type r)
    (ERRelationship.fromAttr r) (ERRelationship.toAttr r)
    (ERRelationship.x r) (ERRelationship.y r) 0 0.

(** ** Notions for the export bounds *)

(** [v] is at least the running minimum, at most the running maximum. *)
Definition aboveMin (acc : option Q) (v : Q) : Prop :=
  match acc with Some a => a <= v | None => False end.

Definition belowMax (acc : option Q) (v : Q) : Prop :=
  match acc with Some a => v <= a | None => False end.

(** The running extent covers the box from [(x0, y0)] to [(x1, y1)]. *)
Definition covers (acc : Extent) (x0 y0 x1 y1 : Q) : Prop :=
  aboveMin (minX acc) x0 /\ aboveMin (minY acc) y0 /\
  belowMax (maxX acc) x1 /\ belowMax (maxY acc) y1 /\
  hasElements acc = true.

(** The box from [(x0, y0)] to [(x1, y1)] lies in the bounds with a margin
    of 50 on every side. *)
Definition encloses (b : Bounds) (x0 y0 x1 y1 : Q) : Prop :=
  b_x b + 50 <= x0 /\ b_y b + 50 <= y0 /\
  x1 + 50 <= b_x b + b_width b /\ y1 + 50 <= b_y b + b_height b.

(** ** Notions for the zoom *)

(** The box lies within the corners [(minX, minY, maxX, maxY)]. *)
Definition boxWithin (corners : Q * Q * Q * Q) (box : Bounds) : Prop :=
  let '(minX, minY, maxX, maxY) := corners in
  minX <= b_x box /\ minY <= b_y box /\
  b_x box + b_width box <= maxX /\ b_y box + b_height box <= maxY.

(** The two corners of a box as the transform shows them on the canvas. *)
Definition shownWithin (t : Transform) (box : Bounds)
    (left top right bottom : Q) : Prop :=
  left <= px (applyTransform t (mkPoint (b_x box) (b_y box))) /\
  top <= py (applyTransform t (mkPoint (b_x box) (b_y box))) /\
  px (applyTransform t
        (mkPoint (b_x box + b_width box) (b_y box + b_height box)))
  <= right /\
  py (applyTransform t
        (mkPoint (b_x box + b_width box) (b_y box + b_height box)))
  <= bottom.

(** ** The simplified ring *)

(** [keyAttrs.forEach((attr, index) => ...)] of
    [arrangeAttributesSimplified]: the key attributes of the entity are
    those it owns that are a primary or a foreign key. *)
Fixpoint placeKeyAttrs (Math_PI : Q) (Math_cos Math_sin : Q -> Q)
    (cx cy radius angleStep : Q) (entityId : string) (index : nat)
    (attrs : list ERAttribute.t) : list ERAttribute.t :=
  match attrs with
  | [] => []
  | attr :: rest =>
    if String.eqb (ERAttribute.entityId attr) entityId
       && (ERAttribute.isPK attr || ERAttribute.isFK attr)
    then
      let angle := ofNat index * angleStep - Math_PI / 2 in
      attributeMoveTo attr (cx + radius * Math_cos angle)
                           (cy + radius * Math_sin angle)
      :: placeKeyAttrs Math_PI Math_cos Math_sin cx cy radius angleStep
           entityId (S index) rest
    else
      attr :: placeKeyAttrs Math_PI Math_cos Math_sin cx cy radius angleStep
                entityId index rest
  end.

(** The key attributes of an entity. *)
Definition keyAttrsOf (entityId : string) (attrs : list ERAttribute.t)
    : list ERAttribute.t :=
  filter (fun a => ERAttribute.isPK a || ERAttribute.isFK a)
    (attributesOf entityId attrs).

(** [arrangeAttributesSimplified(entityId)]. *)
Definition arrangeAttributesSimplified (Math_PI : Q)
    (Math_cos Math_sin : Q -> Q) (entityId : string) (m : Model) : Model :=
  match findEntity entityId (entities m) with
  | None => m
  | Some entity =>
    let keyAttrs := keyAttrsOf entityId (attributes m) in
    let radius := Qmax 80 (EREntity.width entity * 0.6) in
    let angleStep :=
      (2 * Math_PI) / Qmax (ofNat (List.length keyAttrs)) 1 in
    mkModel (entities m)
      (placeKeyAttrs Math_PI Math_cos Math_sin
         (EREntity.x entity + EREntity.width entity / 2)
         (EREntity.y entity + EREntity.height entity / 2)
         radius angleStep entityId 0 (attributes m))
      (relationships m)
  end.

(** ** More sample data *)

(** The reply of the parsing service for Department and Employee. *)
Definition sampleParseData : ParseData :=
  mkParseData false false None
    [mkEntityData "Department" None
       [mkAttrData "dept_id" None "INT" true false None];
     mkEntityData "Employee" None
       [mkAttrData "emp_id" None "INT" true false None;
        mkAttrData "dept_id" None "INT" false true None]]
    [mkRelData "belongs_to" None "Employee" "Department" (Some "1:N")
       None None]
    false false.

(** Identifiers that never repeat, for examples: [n] times the letter x. *)
Fixpoint unaryNonce (n : nat) : string :=
  match n with
  | O => ""
  | S k => ("x" ++ unaryNonce k)%string
  end.

(** * The functions whose results depend on rounding, over binary64

    A JavaScript number is an IEEE 754 binary64 value.  Where what a
    function promises depends on rounding, underflow or the special values,
    the function is embedded a second time with Rocq's primitive floats,
    which are these values, operation by operation: [getEntityBorderPoint]
    and [draggedEntity]. *)

Module Binary64.

Module EREntity.
Record t : Type := make
  { id : string;
    name : string;
    displayName : string;
    x : float;
    y : float;
    width : float;
    height : float }.
End EREntity.

Module ERAttribute.
Record t : Type := make
  { id : string;
    name : string;
    displayName : string;
    comment : option string;
    type : string;
    entityId : string;
    isPK : bool;
    isFK : bool;
    x : float;
    y : float;
    rx : float;
    ry : float }.
End ERAttribute.

Record Point : Type := mkPoint { px : float; py : float }.

(** [Math.max(a, b)]: [NaN] when an argument is [NaN], and [+0] is larger
    than [-0]. *)
Definition Math_max (a b : float) : float :=
  if PrimFloat.is_nan a || PrimFloat.is_nan b then PrimFloat.nan
  else if PrimFloat.ltb a b then b
  else if PrimFloat.ltb b a then a
  else if PrimFloat.get_sign a then b else a.

(** [getEntityBorderPoint(entity, targetX, targetY)]; [===] on numbers is
    the equality of IEEE 754. *)
Definition getEntityBorderPoint (entity : EREntity.t)
    (targetX targetY : float) : Point :=
  let cx := (EREntity.x entity + EREntity.width entity / 2)%float in
  let cy := (EREntity.y entity + EREntity.height entity / 2)%float in
  let dx := (targetX - cx)%float in
  let dy := (targetY - cy)%float in
  if PrimFloat.eqb dx 0 && PrimFloat.eqb dy 0 then mkPoint cx cy
  else
    let halfW := (EREntity.width entity / 2)%float in
    let halfH := (EREntity.height entity / 2)%float in
    let scale :=
      Math_max (PrimFloat.abs dx / halfW)%float
               (PrimFloat.abs dy / halfH)%float in
    mkPoint (cx + dx / scale)%float (cy + dy / scale)%float.

Definition entityMoveTo (e : EREntity.t) (x y : float) : EREntity.t :=
  EREntity.make (EREntity.id e) (EREntity.name e) (EREntity.displayName e)
    x y (EREntity.width e) (EREntity.height e).

Definition attributeMoveTo (a : ERAttribute.t) (x y : float)
    : ERAttribute.t :=
  ERAttribute.make (ERAttribute.id a) (ERAttribute.name a)
    (ERAttribute.displayName a) (ERAttribute.comment a) (ERAttribute.type a)
    (ERAttribute.entityId a) (ERAttribute.isPK a) (ERAttribute.isFK a)
    x y (ERAttribute.rx a) (ERAttribute.ry a).

(** [draggedEntity(event, d)] on the arrays [entities] and [attributes]; the
    datum [d] is the object at index [k] of [entities]. *)
Definition draggedEntity (event : Point) (k : nat)
    (st : list EREntity.t * list ERAttribute.t)
    : option (list EREntity.t * list ERAttribute.t) :=
  let '(es, attrs) := st in
  match nth_error es k with
  | None => None
  | Some d =>
    let dx := (px event - EREntity.x d)%float in
    let dy := (py event - EREntity.y d)%float in
    let d' := entityMoveTo d (px event) (py event) in
    Some (replaceNth k d' es,
          map (fun attr =>
                 if String.eqb (ERAttribute.entityId attr) (EREntity.id d)
                 then attributeMoveTo attr (ERAttribute.x attr + dx)%float
                                           (ERAttribute.y attr + dy)%float
                 else attr)
              attrs)
  end.

(** d3 calls [draggedEntity] once for every pointer move of a gesture, with
    the same datum. *)
Fixpoint dragEntityGesture (events : list Point) (k : nat)
    (st : list EREntity.t * list ERAttribute.t)
    : option (list EREntity.t * list ERAttribute.t) :=
  match events with
  | [] => Some st
  | event :: rest =>
    match draggedEntity event k st with
    | None => None
    | Some st' => dragEntityGesture rest k st'
    end
  end.

(** The coordinate of an owned attribute along a gesture: every pointer
    move adds the difference between the pointer and the entity's coordinate
    before the move, each rounded. *)
Fixpoint dragPath (start : float) (pointer : list float) (a : float)
    : float :=
  match pointer with
  | [] => a
  | p :: rest => dragPath p rest (a + (p - start))%float
  end.

(** ** The values of binary64 numbers *)

(** The rational number a finite binary64 value stands for; [NaN] and the
    infinities stand for none. *)
Definition SFvalue (f : spec_float) : option Q :=
  match f with
  | S754_zero _ => Some 0
  | S754_finite s m e =>
    Some ((if s then - (1) else 1) * (inject_Z (Z.pos m) * 2 ^ e))
  | S754_infinity _ => None
  | S754_nan => None
  end.

Definition valueOf (f : float) : option Q := SFvalue (Prim2SF f).

(** [f] is finite and stands for [q]. *)
Definition hasValue (f : float) (q : Q) : Prop :=
  exists v, valueOf f = Some v /\ v == q.

(** The operation, on these two operands, returns the exact result: it does
    not round, overflow or underflow. *)
Definition exactOp (opF : float -> float -> float) (opQ : Q -> Q -> Q)
    (a b : float) : Prop :=
  forall va vb,
    valueOf a = Some va -> valueOf b = Some vb ->
    hasValue (opF a b) (opQ va vb).

(** The arithmetic of [getEntityBorderPoint] up to its test on the centre
    is exact: the halves of the sizes, the centre [(cx, cy)] and the offset
    [(dx, dy)] of the target. *)
Definition centreExact (entity : EREntity.t) (targetX targetY : float)
    : Prop :=
  let halfW := (EREntity.width entity / 2)%float in
  let halfH := (EREntity.height entity / 2)%float in
  let cx := (EREntity.x entity + halfW)%float in
  let cy := (EREntity.y entity + halfH)%float in
  exactOp PrimFloat.div Qdiv (EREntity.width entity) 2%float /\
  exactOp PrimFloat.div Qdiv (EREntity.height entity) 2%float /\
  exactOp PrimFloat.add Qplus (EREntity.x entity) halfW /\
  exactOp PrimFloat.add Qplus (EREntity.y entity) halfH /\
  exactOp PrimFloat.sub Qminus targetX cx /\
  exactOp PrimFloat.sub Qminus targetY cy.

(** The arithmetic of [getEntityBorderPoint] past its test on the centre is
    exact: the two ratios, the two quotients by [scale] and the two sums. *)
Definition portExact (entity : EREntity.t) (targetX targetY : float)
    : Prop :=
  let halfW := (EREntity.width entity / 2)%float in
  let halfH := (EREntity.height entity / 2)%float in
  let cx := (EREntity.x entity + halfW)%float in
  let cy := (EREntity.y entity + halfH)%float in
  let dx := (targetX - cx)%float in
  let dy := (targetY - cy)%float in
  let scale :=
    Math_max (PrimFloat.abs dx / halfW)%float
             (PrimFloat.abs dy / halfH)%float in
  exactOp PrimFloat.div Qdiv (PrimFloat.abs dx) halfW /\
  exactOp PrimFloat.div Qdiv (PrimFloat.abs dy) halfH /\
  exactOp PrimFloat.div Qdiv dx scale /\
  exactOp PrimFloat.div Qdiv dy scale /\
  exactOp PrimFloat.add Qplus cx (dx / scale)%float /\
  exactOp PrimFloat.add Qplus cy (dy / scale)%float.

(** One coordinate of a pointer move from [start] to [pointer] applied to
    the coordinate [a] of an attribute: the three numbers are finite, and
    neither [pointer - start] nor [a + (pointer - start)] rounds. *)
Definition dragExact (pointer start a : float) : Prop :=
  (exists v, valueOf pointer = Some v) /\
  (exists v, valueOf start = Some v) /\
  (exists v, valueOf a = Some v) /\
  exactOp PrimFloat.sub Qminus pointer start /\
  exactOp PrimFloat.add Qplus a (pointer - start)%float.

(** The coordinate [a'] is as far from [a] as [pointer] is from [start], and
    as far from [pointer] as [a] is from [start]. *)
Definition sameOffset (pointer start a a' : float) : Prop :=
  exists vp vs va va',
    valueOf pointer = Some vp /\ valueOf start = Some vs /\
    valueOf a = Some va /\ valueOf a' = Some va' /\
    va' - va == vp - vs /\
    va' - vp == va - vs.

(** ** Sample data *)

(** An entity of 120 by 60 around the origin. *)
Definition centredEntity : EREntity.t :=
  EREntity.make "entity_1" "Department" "Department" (-60) (-30) 120 60.

(** One entity at (100,100) of size (120,60). *)
Definition singleEntity : EREntity.t :=
  EREntity.make "entity_1" "Department" "Department" 100 100 120 60.

(** The smallest positive number, [Number.MIN_VALUE], [5e-324]. *)
Definition MIN_VALUE : float := 0x1p-1074%float.

(** An entity whose width, 113.7, is not a binary fraction. *)
Definition fractionalEntity : EREntity.t :=
  EREntity.make "entity_1" "Department" "Department" 200 100 (1137 / 10) 60.

(** Department and Employee with their attributes. *)
Definition department : EREntity.t :=
  EREntity.make "entity_1" "Department" "Department" 200 100 120 60.

Definition employee : EREntity.t :=
  EREntity.make "entity_2" "Employee" "Employee" 500 100 110 60.

Definition dept_id : ERAttribute.t :=
  ERAttribute.make "attr_1" "dept_id" "dept_id" None "INT" "entity_1"
    true false 260 20 40 25.

Definition emp_id : ERAttribute.t :=
  ERAttribute.make "attr_2" "emp_id" "emp_id" None "INT" "entity_2"
    true false 555 20 40 25.

Definition emp_dept_id : ERAttribute.t :=
  ERAttribute.make "attr_3" "dept_id" "dept_id" None "INT" "entity_2"
    false true 555 240 40 25.

End Binary64.

(** ** From binary64 to the rationals *)

(** The entity with the rational values of its numbers, when they are
    finite. *)
Definition entityValue (e : Binary64.EREntity.t) : option EREntity.t :=
  x <- Binary64.valueOf (Binary64.EREntity.x e) ;;
  y <- Binary64.valueOf (Binary64.EREntity.y e) ;;
  width <- Binary64.valueOf (Binary64.EREntity.width e) ;;
  height <- Binary64.valueOf (Binary64.EREntity.height e) ;;
  Some (EREntity.make (Binary64.EREntity.id e) (Binary64.EREntity.name e)
          (Binary64.EREntity.displayName e) x y width height).

Definition pointValue (p : Binary64.Point) : option Point :=
  x <- Binary64.valueOf (Binary64.px p) ;;
  y <- Binary64.valueOf (Binary64.py p) ;;
  Some (mkPoint x y).

(** ** Tactics for given numbers *)

(** Solves [Binary64.exactOp] on two given numbers by computing the
    operation. *)
Ltac exact_at :=
  let va := fresh "va" in
  let vb := fresh "vb" in
  let Ha := fresh "Ha" in
  let Hb := fresh "Hb" in
  intros va vb Ha Hb;
  vm_compute in Ha; vm_compute in Hb;
  injection Ha as <-; injection Hb as <-;
  eexists; split; [vm_compute; reflexivity | vm_compute; reflexivity].

(** Solves [Binary64.dragExact] on three given numbers by computing. *)
Ltac dragExact_at :=
  unfold Binary64.dragExact;
  split; [eexists; vm_compute; reflexivity |];
  split; [eexists; vm_compute; reflexivity |];
  split; [eexists; vm_compute; reflexivity |];
  split; exact_at.
(** * Properties *)

(** ** Entity width *)


Lemma clamp_bounds (lo hi v : Q) :
  lo <= hi -> lo <= Qmin hi (Qmax lo v) <= hi.
Proof.
  intros Hlh. split.
  - apply Q.min_glb; [exact Hlh | apply Q.le_max_l].
  - apply Q.le_min_l.
Qed.

Lemma clamp_monotone (lo hi v w : Q) :
  v <= w -> Qmin hi (Qmax lo v) <= Qmin hi (Qmax lo w).
Proof.
  intros Hvw.
  apply Q.min_le_compat_l. apply Q.max_le_compat_l. exact Hvw.
Qed.

Lemma clamp_inside (lo hi v : Q) :
  lo <= v -> v <= hi -> Qmin hi (Qmax lo v) == v.
Proof.
  intros Hlo Hhi.
  rewrite (Q.max_r lo v) by exact Hlo.
  apply Q.min_r. exact Hhi.
Qed.

Section EntityWidth.

Variable measureTextWidth : string -> Q -> string -> string -> Q.
Variable fontSizes : FontSizes.

(** C7. For every display name the entity width lies between [minWidth = 80]
    and [maxWidth = 300]; it does not decrease when the measured text width
    grows; and inside the clamp range it is the measured width plus the
    padding of 40. *)
Theorem calculateEntityWidth_clamped_monotone :
  let measured name :=
    measureTextWidth name (fs_entity fontSizes) arial "600" in
  let entityWidth := calculateEntityWidth measureTextWidth fontSizes in
  (forall name, 80 <= entityWidth name <= 300) /\
  (forall name1 name2,
      measured name1 <= measured name2 ->
      entityWidth name1 <= entityWidth name2) /\
  (forall name,
      80 <= measured name + 40 -> measured name + 40 <= 300 ->
      entityWidth name == measured name + 40).
Proof.
  intros measured entityWidth.
  unfold entityWidth, measured, calculateEntityWidth. repeat split.
  - apply clamp_bounds. discriminate.
  - apply clamp_bounds. discriminate.
  - intros name1 name2 H. apply clamp_monotone. lra.
  - intros name Hlo Hhi. apply clamp_inside; assumption.
Qed.

End EntityWidth.

(** The width of "Department" and of "Employee" under the sample metric. *)
Lemma calculateEntityWidth_clamped_monotone_witness :
  80 <= calculateEntityWidth sampleMeasure sampleFonts "Employee" <= 300 /\
  calculateEntityWidth sampleMeasure sampleFonts "Employee"
  <= calculateEntityWidth sampleMeasure sampleFonts "Department" /\
  calculateEntityWidth sampleMeasure sampleFonts "Employee" == 1072 / 10.
Proof.
  destruct (calculateEntityWidth_clamped_monotone sampleMeasure sampleFonts)
    as (Hb & Hm & Hi).
  split; [apply Hb |].
  split.
  - apply Hm. vm_compute. discriminate.
  - rewrite Hi; vm_compute; try reflexivity; discriminate.
Defined.

(** Renaming Employee to a long name: the width is clamped to 300. *)
Example EREntity_updateName_long_name :
  let renamed :=
    EREntity_updateName sampleMeasure sampleFonts employee
      "Staff_Member_With_A_Very_Long_Name" in
  EREntity.displayName renamed = "Staff_Member_With_A_Very_Long_Name" /\
  EREntity.width renamed == 300 /\
  EREntity.x renamed = EREntity.x employee /\
  EREntity.y renamed = EREntity.y employee.
Proof. vm_compute. repeat split; reflexivity. Qed.

(** ** Connector ports over the rationals *)

Lemma js_div_defined (a b : Q) : ~ b == 0 -> js_div a b = Some (a / b).
Proof.
  intros Hb. unfold js_div.
  destruct (Qeq_bool b 0) eqn:E; [| reflexivity].
  apply Qeq_bool_iff in E. contradiction.
Qed.

Lemma centre_test_true (dx dy : Q) :
  dx == 0 /\ dy == 0 -> Qeq_bool dx 0 && Qeq_bool dy 0 = true.
Proof.
  intros [Hx Hy]. apply andb_true_intro.
  split; apply Qeq_bool_iff; assumption.
Qed.

Lemma centre_test_false (dx dy : Q) :
  ~ (dx == 0 /\ dy == 0) -> Qeq_bool dx 0 && Qeq_bool dy 0 = false.
Proof.
  intros H. destruct (Qeq_bool dx 0 && Qeq_bool dy 0) eqn:E; [| reflexivity].
  apply andb_prop in E. destruct E as [Ex Ey].
  apply Qeq_bool_iff in Ex. apply Qeq_bool_iff in Ey. tauto.
Qed.

Lemma Qabs_zero_iff (v : Q) : Qabs v == 0 <-> v == 0.
Proof.
  split; intros H.
  - revert H. apply Qabs_case; intros; lra.
  - rewrite H. reflexivity.
Qed.

(** The quotient of a non-negative number by a positive one, bounded through
    the product. *)
Lemma quotient_nonneg (a b : Q) : 0 <= a -> 0 < b -> 0 <= a / b.
Proof. intros Ha Hb. apply Qle_shift_div_l; lra. Qed.

Lemma quotient_times (a b : Q) : 0 < b -> a / b * b == a.
Proof. intros Hb. field. lra. Qed.

(** Away from the centre of a box of positive size, [scale] is defined and
    positive, it bounds both ratios, it equals one of them, and the port is
    the centre plus the offset divided by [scale]. *)
Lemma borderPoint_away (entity : EREntity.t) (targetX targetY : Q) :
  0 < EREntity.width entity ->
  0 < EREntity.height entity ->
  let c := entityCenter entity in
  let dx := targetX - px c in
  let dy := targetY - py c in
  ~ (dx == 0 /\ dy == 0) ->
  exists scale,
    borderScale entity targetX targetY = Some scale /\
    0 < scale /\
    Qabs dx <= scale * (EREntity.width entity / 2) /\
    Qabs dy <= scale * (EREntity.height entity / 2) /\
    (Qabs dx == scale * (EREntity.width entity / 2) \/
     Qabs dy == scale * (EREntity.height entity / 2)) /\
    getEntityBorderPoint entity targetX targetY
    = Some (mkPoint (px c + dx / scale) (py c + dy / scale)).
Proof.
  intros Hw Hh c dx dy Haway.
  assert (HW : 0 < EREntity.width entity / 2)
    by (apply Qlt_shift_div_l; lra).
  assert (HH : 0 < EREntity.height entity / 2)
    by (apply Qlt_shift_div_l; lra).
  set (sx := Qabs dx / (EREntity.width entity / 2)).
  set (sy := Qabs dy / (EREntity.height entity / 2)).
  assert (Hsx : sx * (EREntity.width entity / 2) == Qabs dx)
    by (apply quotient_times; exact HW).
  assert (Hsy : sy * (EREntity.height entity / 2) == Qabs dy)
    by (apply quotient_times; exact HH).
  assert (Hsx0 : 0 <= sx)
    by (apply quotient_nonneg; [apply Qabs_nonneg | exact HW]).
  assert (Hsy0 : 0 <= sy)
    by (apply quotient_nonneg; [apply Qabs_nonneg | exact HH]).
  assert (Hscale : borderScale entity targetX targetY = Some (Qmax sx sy)).
  { unfold borderScale.
    change (targetX - (EREntity.x entity + EREntity.width entity / 2)) with dx.
    change (targetY - (EREntity.y entity + EREntity.height entity / 2))
      with dy.
    rewrite (js_div_defined (Qabs _) (EREntity.width entity / 2)) by lra.
    rewrite (js_div_defined (Qabs _) (EREntity.height entity / 2)) by lra.
    reflexivity. }
  assert (Hpos : 0 < Qmax sx sy).
  { destruct (Qlt_le_dec 0 sx) as [Px | Nx].
    - apply Qlt_le_trans with sx; [exact Px | apply Q.le_max_l].
    - destruct (Qlt_le_dec 0 sy) as [Py | Ny].
      + apply Qlt_le_trans with sy; [exact Py | apply Q.le_max_r].
      + exfalso. apply Haway.
        assert (Zx : Qabs dx == 0) by nra.
        assert (Zy : Qabs dy == 0) by nra.
        split; apply Qabs_zero_iff; assumption. }
  exists (Qmax sx sy).
  split; [exact Hscale |]. split; [exact Hpos |].
  pose proof (Q.le_max_l sx sy) as Lx.
  pose proof (Q.le_max_r sx sy) as Ly.
  split; [nra |]. split; [nra |]. split.
  - destruct (Q.max_spec sx sy) as [[_ E] | [_ E]].
    + right. rewrite E. symmetry. exact Hsy.
    + left. rewrite E. symmetry. exact Hsx.
  - unfold getEntityBorderPoint.
    change (targetX - (EREntity.x entity + EREntity.width entity / 2)) with dx.
    change (targetY - (EREntity.y entity + EREntity.height entity / 2))
      with dy.
    rewrite (centre_test_false dx dy Haway).
    rewrite Hscale. cbn [obind].
    rewrite !js_div_defined by lra.
    reflexivity.
Qed.

(** Over the rationals: for an entity of positive width and height and a
    target point other than its centre, the port lies on the border of the
    entity's rectangle, on the ray from the centre through the target: its
    offset from the centre is a positive multiple of the target's offset. *)
Lemma borderPoint_on_border
    (entity : EREntity.t) (targetX targetY : Q) :
  0 < EREntity.width entity ->
  0 < EREntity.height entity ->
  ~ (targetX - px (entityCenter entity) == 0 /\
     targetY - py (entityCenter entity) == 0) ->
  exists p,
    getEntityBorderPoint entity targetX targetY = Some p /\
    onBorder entity p /\
    exists t,
      0 < t /\
      px p - px (entityCenter entity)
      == t * (targetX - px (entityCenter entity)) /\
      py p - py (entityCenter entity)
      == t * (targetY - py (entityCenter entity)).
Proof.
  intros Hw Hh Haway.
  destruct (borderPoint_away entity targetX targetY Hw Hh Haway)
    as (scale & _ & Hpos & Bx & By & Hone & Hp).
  set (dx := targetX - px (entityCenter entity)) in *.
  set (dy := targetY - py (entityCenter entity)) in *.
  exists (mkPoint (px (entityCenter entity) + dx / scale)
                  (py (entityCenter entity) + dy / scale)).
  split; [exact Hp |].
  assert (Qx : dx / scale * scale == dx)
    by (apply quotient_times; exact Hpos).
  assert (Qy : dy / scale * scale == dy)
    by (apply quotient_times; exact Hpos).
  set (qx := dx / scale) in *. set (qy := dy / scale) in *.
  assert (Ax : - (scale * (EREntity.width entity / 2)) <= dx
               <= scale * (EREntity.width entity / 2))
    by (apply Qabs_Qle_condition; exact Bx).
  assert (Ay : - (scale * (EREntity.height entity / 2)) <= dy
               <= scale * (EREntity.height entity / 2))
    by (apply Qabs_Qle_condition; exact By).
  assert (Hqx : - (EREntity.width entity / 2) <= qx
                <= EREntity.width entity / 2) by (split; nra).
  assert (Hqy : - (EREntity.height entity / 2) <= qy
                <= EREntity.height entity / 2) by (split; nra).
  assert (W2 : EREntity.width entity == 2 * (EREntity.width entity / 2))
    by field.
  assert (H2 : EREntity.height entity == 2 * (EREntity.height entity / 2))
    by field.
  split.
  - unfold onBorder, entityCenter. cbn [px py].
    destruct Hone as [Ex | Ey].
    + left. split; [| lra].
      revert Ex. apply Qabs_case; intros Sx Ex.
      * right. assert (qx == EREntity.width entity / 2) by nra. lra.
      * left. assert (qx == - (EREntity.width entity / 2)) by nra. lra.
    + right. split; [| lra].
      revert Ey. apply Qabs_case; intros Sy Ey.
      * right. assert (qy == EREntity.height entity / 2) by nra. lra.
      * left. assert (qy == - (EREntity.height entity / 2)) by nra. lra.
  - exists (/ scale). split; [apply Qinv_lt_0_compat; exact Hpos |].
    cbn [px py]. unfold qx, qy. split; field; lra.
Qed.
(** ** Binary64 numbers and their values *)

Lemma digits2_pos_bounds (m : positive) :
  (2 ^ (Z.pos (digits2_pos m) - 1) <= Z.pos m < 2 ^ Z.pos (digits2_pos m))%Z.
Proof.
  induction m as [m IH | m IH |].
  - cbn [digits2_pos]. rewrite Pos2Z.inj_succ.
    replace (Z.succ (Z.pos (digits2_pos m)) - 1)%Z
      with (Z.succ (Z.pos (digits2_pos m) - 1))%Z by lia.
    rewrite !Z.pow_succ_r by lia. lia.
  - cbn [digits2_pos]. rewrite Pos2Z.inj_succ.
    replace (Z.succ (Z.pos (digits2_pos m)) - 1)%Z
      with (Z.succ (Z.pos (digits2_pos m) - 1))%Z by lia.
    rewrite !Z.pow_succ_r by lia. lia.
  - cbn. lia.
Qed.

(** A finite binary64 number has a mantissa below [2^53] and an exponent of
    at least [-1074]; above that exponent the mantissa is at least [2^52]. *)
Lemma valid_finite_bounds (s : bool) (m : positive) (e : Z) :
  valid_binary (S754_finite s m e) = true ->
  (Z.pos m < 2 ^ 53)%Z /\ (-1074 <= e)%Z /\
  ((-1074 < e)%Z -> (2 ^ 52 <= Z.pos m)%Z).
Proof.
  unfold SpecFloat.valid_binary, bounded, canonical_mantissa, fexp.
  intros H. apply andb_prop in H. destruct H as [H _].
  apply Z.eqb_eq in H.
  change (SpecFloat.emin prec emax) with (-1074)%Z in H.
  change prec with 53%Z in H.
  pose proof (digits2_pos_bounds m) as [Lo Hi].
  set (d := Z.pos (digits2_pos m)) in *.
  assert (Hd : (0 < d)%Z) by (unfold d; lia).
  split; [| split].
  - apply Z.lt_le_trans with (2 ^ d)%Z; [exact Hi |].
    apply Z.pow_le_mono_r; lia.
  - lia.
  - intros He.
    assert (Ed : d = 53%Z) by lia.
    rewrite Ed in Lo. exact Lo.
Qed.


Lemma magnitude_pos (m : positive) (e : Z) : 0 < inject_Z (Z.pos m) * 2 ^ e.
Proof.
  apply Qmult_lt_0_compat.
  - change 0 with (inject_Z 0). rewrite <- Zlt_Qlt. lia.
  - apply Qpower_0_lt. reflexivity.
Qed.

(** Finite binary64 magnitudes are ordered by exponent first. *)
Lemma magnitude_lt_exponent (s1 s2 : bool) (m1 m2 : positive) (e1 e2 : Z) :
  valid_binary (S754_finite s1 m1 e1) = true ->
  valid_binary (S754_finite s2 m2 e2) = true ->
  (e1 < e2)%Z ->
  inject_Z (Z.pos m1) * 2 ^ e1 < inject_Z (Z.pos m2) * 2 ^ e2.
Proof.
  intros V1 V2 He.
  apply valid_finite_bounds in V1. destruct V1 as (U1 & L1 & _).
  apply valid_finite_bounds in V2. destruct V2 as (_ & _ & N2).
  specialize (N2 ltac:(lia)).
  assert (P1 : 0 < 2 ^ e1) by (apply Qpower_0_lt; reflexivity).
  assert (S : 2 ^ (e1 + 1) == 2 ^ e1 * 2).
  { rewrite Qpower_plus by (intros H; discriminate H). reflexivity. }
  assert (M : 2 ^ (e1 + 1) <= 2 ^ e2)
    by (apply Qpower_le_compat_l; [lia | discriminate]).
  assert (A1 : inject_Z (Z.pos m1) < inject_Z (2 ^ 53))
    by (rewrite <- Zlt_Qlt; exact U1).
  assert (A2 : inject_Z (2 ^ 52) <= inject_Z (Z.pos m2))
    by (rewrite <- Zle_Qle; exact N2).
  assert (A0 : 0 < inject_Z (Z.pos m1))
    by (change 0 with (inject_Z 0); rewrite <- Zlt_Qlt; lia).
  change (inject_Z (2 ^ 53)) with 9007199254740992 in A1.
  change (inject_Z (2 ^ 52)) with 4503599627370496 in A2.
  set (M1 := inject_Z (Z.pos m1)) in *. set (M2 := inject_Z (Z.pos m2)) in *.
  set (p1 := 2 ^ e1) in *. set (p2 := 2 ^ e2) in *.
  set (p1' := 2 ^ (e1 + 1)) in *.
  assert (B1 : M1 * p1 < 9007199254740992 * p1) by nra.
  assert (B2 : 4503599627370496 * p2 <= M2 * p2) by nra.
  lra.
Qed.

(** [SFcompare] on finite binary64 numbers is the order of their values. *)
Lemma SFcompare_value (f1 f2 : spec_float) (v1 v2 : Q) :
  valid_binary f1 = true -> valid_binary f2 = true ->
  Binary64.SFvalue f1 = Some v1 -> Binary64.SFvalue f2 = Some v2 ->
  exists c,
    SFcompare f1 f2 = Some c /\
    match c with
    | Lt => v1 < v2
    | Eq => v1 == v2
    | Gt => v2 < v1
    end.
Proof.
  intros V1 V2 E1 E2.
  destruct f1 as [s1 | s1 | | s1 m1 e1]; try discriminate E1;
    destruct f2 as [s2 | s2 | | s2 m2 e2]; try discriminate E2;
    cbn [Binary64.SFvalue] in E1, E2; injection E1 as <-; injection E2 as <-.
  - exists Eq. split; reflexivity.
  - pose proof (magnitude_pos m2 e2) as P2.
    destruct s2; eexists; (split; [reflexivity |]); cbn beta iota; lra.
  - pose proof (magnitude_pos m1 e1) as P1.
    destruct s1; eexists; (split; [reflexivity |]); cbn beta iota; lra.
  - pose proof (magnitude_pos m1 e1) as P1.
    pose proof (magnitude_pos m2 e2) as P2.
    assert (Hmag :
      exists c,
        match (e1 ?= e2)%Z with
        | Eq => Pos.compare_cont Eq m1 m2
        | Lt => Lt
        | Gt => Gt
        end = c /\
        match c with
        | Lt => inject_Z (Z.pos m1) * 2 ^ e1 < inject_Z (Z.pos m2) * 2 ^ e2
        | Eq => inject_Z (Z.pos m1) * 2 ^ e1 == inject_Z (Z.pos m2) * 2 ^ e2
        | Gt => inject_Z (Z.pos m2) * 2 ^ e2 < inject_Z (Z.pos m1) * 2 ^ e1
        end).
    { destruct (Z.compare_spec e1 e2) as [Ee | Ee | Ee].
      - subst e2. fold (Pos.compare m1 m2).
        assert (Pp : 0 < 2 ^ e1) by (apply Qpower_0_lt; reflexivity).
        destruct (Pos.compare_spec m1 m2) as [Em | Em | Em];
          eexists; (split; [reflexivity |]); cbn beta iota.
        + subst m2. reflexivity.
        + assert (inject_Z (Z.pos m1) < inject_Z (Z.pos m2))
            by (rewrite <- Zlt_Qlt; lia).
          nra.
        + assert (inject_Z (Z.pos m2) < inject_Z (Z.pos m1))
            by (rewrite <- Zlt_Qlt; lia).
          nra.
      - eexists. split; [reflexivity |]. cbn beta iota.
        exact (magnitude_lt_exponent s1 s2 m1 m2 e1 e2 V1 V2 Ee).
      - eexists. split; [reflexivity |]. cbn beta iota.
        exact (magnitude_lt_exponent s2 s1 m2 m1 e2 e1 V2 V1 Ee). }
    destruct Hmag as (c & Ec & Hc).
    cbn [SFcompare].
    destruct s1, s2.
    + exists (CompOpp c). split.
      * rewrite <- Ec. destruct (e1 ?= e2)%Z; reflexivity.
      * destruct c; cbn [CompOpp]; lra.
    + exists Lt. split; [reflexivity |]. lra.
    + exists Gt. split; [reflexivity |]. lra.
    + exists c. split; [rewrite Ec; reflexivity |]. destruct c; lra.
Qed.

(** [a < b] on finite binary64 numbers is the order of their values. *)
Lemma ltb_value (a b : float) (va vb : Q) :
  Binary64.valueOf a = Some va -> Binary64.valueOf b = Some vb ->
  (PrimFloat.ltb a b = true <-> va < vb).
Proof.
  unfold Binary64.valueOf. intros Ea Eb.
  destruct (SFcompare_value _ _ va vb (Prim2SF_valid a) (Prim2SF_valid b)
              Ea Eb) as (c & Ec & Hc).
  rewrite ltb_spec. unfold SFltb. rewrite Ec.
  destruct c; split; intros H; try reflexivity; try discriminate H; lra.
Qed.

(** [a === b] on finite binary64 numbers is the equality of their values. *)
Lemma eqb_value (a b : float) (va vb : Q) :
  Binary64.valueOf a = Some va -> Binary64.valueOf b = Some vb ->
  (PrimFloat.eqb a b = true <-> va == vb).
Proof.
  unfold Binary64.valueOf. intros Ea Eb.
  destruct (SFcompare_value _ _ va vb (Prim2SF_valid a) (Prim2SF_valid b)
              Ea Eb) as (c & Ec & Hc).
  rewrite FloatAxioms.eqb_spec. unfold SFeqb. rewrite Ec.
  destruct c; split; intros H; try reflexivity; try discriminate H; lra.
Qed.

Lemma valueOf_zero : Binary64.valueOf 0%float = Some 0.
Proof. reflexivity. Qed.

Lemma eqb_zero_value (a : float) (va : Q) :
  Binary64.valueOf a = Some va ->
  (PrimFloat.eqb a 0 = true <-> va == 0).
Proof. intros Ea. exact (eqb_value a 0 va 0 Ea valueOf_zero). Qed.

(** A binary64 number with a value is not [NaN]. *)
Lemma is_nan_value (a : float) (va : Q) :
  Binary64.valueOf a = Some va -> PrimFloat.is_nan a = false.
Proof.
  intros Ea. unfold PrimFloat.is_nan.
  destruct (eqb_value a a va va Ea Ea) as [_ H].
  rewrite H; reflexivity.
Qed.

(** [Math.abs] is exact. *)
Lemma abs_value (a : float) (va : Q) :
  Binary64.valueOf a = Some va ->
  Binary64.hasValue (PrimFloat.abs a) (Qabs va).
Proof.
  unfold Binary64.hasValue, Binary64.valueOf. rewrite abs_spec.
  destruct (Prim2SF a) as [s | s | | s m e]; intros E; try discriminate E;
    cbn [Binary64.SFvalue SFabs] in *; injection E as <-.
  - exists 0. split; reflexivity.
  - eexists. split; [reflexivity |].
    pose proof (magnitude_pos m e) as P.
    destruct s.
    + rewrite Qabs_neg by lra. ring.
    + rewrite Qabs_pos by lra. ring.
Qed.

(** [Math.max] of two finite numbers has the larger of the two values. *)
Lemma Math_max_value (a b : float) (va vb : Q) :
  Binary64.valueOf a = Some va -> Binary64.valueOf b = Some vb ->
  Binary64.hasValue (Binary64.Math_max a b) (Qmax va vb).
Proof.
  intros Ea Eb. unfold Binary64.Math_max, Binary64.hasValue.
  rewrite (is_nan_value a va Ea), (is_nan_value b vb Eb). cbn [orb].
  pose proof (ltb_value a b va vb Ea Eb) as Lab.
  pose proof (ltb_value b a vb va Eb Ea) as Lba.
  destruct (PrimFloat.ltb a b) eqn:Hab.
  - exists vb. split; [exact Eb |].
    assert (va < vb) by (apply Lab; reflexivity).
    symmetry. apply Q.max_r. lra.
  - destruct (PrimFloat.ltb b a) eqn:Hba.
    + exists va. split; [exact Ea |].
      assert (vb < va) by (apply Lba; reflexivity).
      symmetry. apply Q.max_l. lra.
    + assert (Na : ~ va < vb) by (intros H; apply Lab in H; discriminate H).
      assert (Nb : ~ vb < va) by (intros H; apply Lba in H; discriminate H).
      assert (E : va == vb) by lra.
      destruct (PrimFloat.get_sign a).
      * exists vb. split; [exact Eb |]. symmetry. apply Q.max_r. lra.
      * exists va. split; [exact Ea |]. symmetry. apply Q.max_l. lra.
Qed.

Lemma valueOf_two : Binary64.hasValue 2%float 2.
Proof. eexists. split; reflexivity. Qed.

(** ** The port over binary64 and over the rationals *)

Lemma entityValue_fields (e : Binary64.EREntity.t) (E : EREntity.t) :
  entityValue e = Some E ->
  Binary64.valueOf (Binary64.EREntity.x e) = Some (EREntity.x E) /\
  Binary64.valueOf (Binary64.EREntity.y e) = Some (EREntity.y E) /\
  Binary64.valueOf (Binary64.EREntity.width e) = Some (EREntity.width E) /\
  Binary64.valueOf (Binary64.EREntity.height e) = Some (EREntity.height E).
Proof.
  unfold entityValue.
  destruct (Binary64.valueOf (Binary64.EREntity.x e)) as [vx |];
    [| discriminate].
  destruct (Binary64.valueOf (Binary64.EREntity.y e)) as [vy |];
    [| discriminate].
  destruct (Binary64.valueOf (Binary64.EREntity.width e)) as [vw |];
    [| discriminate].
  destruct (Binary64.valueOf (Binary64.EREntity.height e)) as [vh |];
    [| discriminate].
  cbn [obind]. intros H. injection H as <-. cbn. auto.
Qed.

Lemma borderScale_away (entity : EREntity.t) (targetX targetY : Q) :
  0 < EREntity.width entity ->
  0 < EREntity.height entity ->
  borderScale entity targetX targetY
  = Some (Qmax (Qabs (targetX - px (entityCenter entity))
                / (EREntity.width entity / 2))
               (Qabs (targetY - py (entityCenter entity))
                / (EREntity.height entity / 2))).
Proof.
  intros Hw Hh. unfold borderScale, entityCenter. cbn [px py].
  assert (HW : 0 < EREntity.width entity / 2)
    by (apply Qlt_shift_div_l; lra).
  assert (HH : 0 < EREntity.height entity / 2)
    by (apply Qlt_shift_div_l; lra).
  rewrite (js_div_defined (Qabs _) (EREntity.width entity / 2)) by lra.
  rewrite (js_div_defined (Qabs _) (EREntity.height entity / 2)) by lra.
  reflexivity.
Qed.

(** The values up to the test on the centre, when that arithmetic is
    exact. *)
Lemma centre_values (entity : Binary64.EREntity.t) (targetX targetY : float)
    (E : EREntity.t) (TX TY : Q) :
  entityValue entity = Some E ->
  Binary64.valueOf targetX = Some TX ->
  Binary64.valueOf targetY = Some TY ->
  Binary64.centreExact entity targetX targetY ->
  let halfW := (Binary64.EREntity.width entity / 2)%float in
  let halfH := (Binary64.EREntity.height entity / 2)%float in
  let cx := (Binary64.EREntity.x entity + halfW)%float in
  let cy := (Binary64.EREntity.y entity + halfH)%float in
  Binary64.hasValue halfW (EREntity.width E / 2) /\
  Binary64.hasValue halfH (EREntity.height E / 2) /\
  Binary64.hasValue cx (px (entityCenter E)) /\
  Binary64.hasValue cy (py (entityCenter E)) /\
  Binary64.hasValue (targetX - cx)%float (TX - px (entityCenter E)) /\
  Binary64.hasValue (targetY - cy)%float (TY - py (entityCenter E)).
Proof.
  intros HE HTX HTY Hex halfW halfH cx cy.
  destruct (entityValue_fields entity E HE) as (Vx & Vy & Vw & Vh).
  destruct Hex as (Xw & Xh & Xcx & Xcy & Xdx & Xdy).
  destruct valueOf_two as (v2 & V2 & E2).
  destruct (Xw _ _ Vw V2) as (vhw & Vhw & Ehw).
  destruct (Xh _ _ Vh V2) as (vhh & Vhh & Ehh).
  fold halfW in Vhw, Xcx. fold halfH in Vhh, Xcy.
  destruct (Xcx _ _ Vx Vhw) as (vcx & Vcx & Ecx).
  destruct (Xcy _ _ Vy Vhh) as (vcy & Vcy & Ecy).
  fold cx in Vcx, Xdx. fold cy in Vcy, Xdy.
  destruct (Xdx _ _ HTX Vcx) as (vdx & Vdx & Edx).
  destruct (Xdy _ _ HTY Vcy) as (vdy & Vdy & Edy).
  rewrite E2 in Ehw, Ehh.
  unfold entityCenter. cbn [px py].
  repeat split.
  - exists vhw. split; [exact Vhw | exact Ehw].
  - exists vhh. split; [exact Vhh | exact Ehh].
  - exists vcx. split; [exact Vcx |]. rewrite Ecx, Ehw. reflexivity.
  - exists vcy. split; [exact Vcy |]. rewrite Ecy, Ehh. reflexivity.
  - exists vdx. split; [exact Vdx |]. rewrite Edx, Ecx, Ehw. reflexivity.
  - exists vdy. split; [exact Vdy |]. rewrite Edy, Ecy, Ehh. reflexivity.
Qed.

(** When its arithmetic is exact, [getEntityBorderPoint] on binary64 numbers
    returns the point that the function over the rationals returns on the
    values of its arguments. *)
Lemma getEntityBorderPoint_value
    (entity : Binary64.EREntity.t) (targetX targetY : float)
    (E : EREntity.t) (TX TY : Q) :
  entityValue entity = Some E ->
  Binary64.valueOf targetX = Some TX ->
  Binary64.valueOf targetY = Some TY ->
  0 < EREntity.width E ->
  0 < EREntity.height E ->
  Binary64.centreExact entity targetX targetY ->
  (~ (TX - px (entityCenter E) == 0 /\ TY - py (entityCenter E) == 0) ->
   Binary64.portExact entity targetX targetY) ->
  exists P p,
    pointValue (Binary64.getEntityBorderPoint entity targetX targetY)
    = Some P /\
    getEntityBorderPoint E TX TY = Some p /\
    px P == px p /\ py P == py p.
Proof.
  intros HE HTX HTY Hw Hh Hcentre Hport.
  destruct (centre_values entity targetX targetY E TX TY HE HTX HTY Hcentre)
    as ((vhw & Vhw & Ehw) & (vhh & Vhh & Ehh) & (vcx & Vcx & Ecx) &
        (vcy & Vcy & Ecy) & (vdx & Vdx & Edx) & (vdy & Vdy & Edy)).
  unfold Binary64.getEntityBorderPoint.
  set (halfW := (Binary64.EREntity.width entity / 2)%float) in *.
  set (halfH := (Binary64.EREntity.height entity / 2)%float) in *.
  set (cx := (Binary64.EREntity.x entity + halfW)%float) in *.
  set (cy := (Binary64.EREntity.y entity + halfH)%float) in *.
  set (dx := (targetX - cx)%float) in *.
  set (dy := (targetY - cy)%float) in *.
  pose proof (eqb_zero_value dx vdx Vdx) as Gx.
  pose proof (eqb_zero_value dy vdy Vdy) as Gy.
  destruct (PrimFloat.eqb dx 0 && PrimFloat.eqb dy 0) eqn:G.
  - apply andb_prop in G. destruct G as [Zx Zy].
    apply Gx in Zx. apply Gy in Zy.
    exists (mkPoint vcx vcy), (entityCenter E).
    split; [unfold pointValue; cbn [Binary64.px Binary64.py];
            rewrite Vcx, Vcy; reflexivity |].
    split.
    + unfold getEntityBorderPoint.
      change (EREntity.x E + EREntity.width E / 2) with (px (entityCenter E)).
      change (EREntity.y E + EREntity.height E / 2)
        with (py (entityCenter E)).
      rewrite centre_test_true; [reflexivity |].
      split; [rewrite <- Edx; exact Zx | rewrite <- Edy; exact Zy].
    + cbn [px py]. split; assumption.
  - assert (Haway : ~ (TX - px (entityCenter E) == 0 /\
                       TY - py (entityCenter E) == 0)).
    { intros [Zx Zy]. rewrite <- Edx in Zx. rewrite <- Edy in Zy.
      apply Gx in Zx. apply Gy in Zy. rewrite Zx, Zy in G. discriminate G. }
    specialize (Hport Haway).
    destruct Hport as (Xr1 & Xr2 & Xqx & Xqy & Xpx & Xpy).
    fold halfW halfH in Xr1, Xr2, Xqx, Xqy, Xpx, Xpy.
    fold cx cy in Xqx, Xqy, Xpx, Xpy.
    fold dx dy in Xr1, Xr2, Xqx, Xqy, Xpx, Xpy.
    destruct (abs_value dx vdx Vdx) as (vax & Vax & Eax).
    destruct (abs_value dy vdy Vdy) as (vay & Vay & Eay).
    destruct (Xr1 _ _ Vax Vhw) as (r1 & Vr1 & Er1).
    destruct (Xr2 _ _ Vay Vhh) as (r2 & Vr2 & Er2).
    destruct (Math_max_value _ _ r1 r2 Vr1 Vr2) as (vs & Vs & Es).
    set (scale := Binary64.Math_max (PrimFloat.abs dx / halfW)%float
                                    (PrimFloat.abs dy / halfH)%float) in *.
    destruct (Xqx _ _ Vdx Vs) as (vqx & Vqx & Eqx).
    destruct (Xqy _ _ Vdy Vs) as (vqy & Vqy & Eqy).
    destruct (Xpx _ _ Vcx Vqx) as (vpx & Vpx & Epx).
    destruct (Xpy _ _ Vcy Vqy) as (vpy & Vpy & Epy).
    destruct (borderPoint_away E TX TY Hw Hh Haway)
      as (s & Hs & _ & _ & _ & _ & Hp).
    rewrite (borderScale_away E TX TY Hw Hh) in Hs. injection Hs as Hs.
    exists (mkPoint vpx vpy). eexists.
    split; [unfold pointValue; cbn [Binary64.px Binary64.py];
            rewrite Vpx, Vpy; reflexivity |].
    split; [exact Hp |].
    assert (Escale : vs == s).
    { rewrite Es, Er1, Er2, Eax, Eay, Edx, Edy, Ehw, Ehh, <- Hs.
      reflexivity. }
    cbn [px py]. split.
    + rewrite Epx, Eqx, Ecx, Edx, Escale. reflexivity.
    + rewrite Epy, Eqy, Ecy, Edy, Escale. reflexivity.
Qed.

Lemma onBorder_Qeq (E : EREntity.t) (p q : Point) :
  px p == px q -> py p == py q -> onBorder E q -> onBorder E p.
Proof.
  unfold onBorder. intros Hx Hy. rewrite Hx, Hy. tauto.
Qed.




(** C10. The claim fails on the code: for the entity of size (120,60) around
    the origin, whose width and height are positive, and the target point
    (5e-324,0), which is not the centre, both ratios underflow to zero, so
    [scale] is zero and not strictly positive, and the function returns
    (Infinity, NaN). *)
Theorem getEntityBorderPoint_scale_underflow :
  let entity := Binary64.centredEntity in
  let targetX := Binary64.MIN_VALUE in
  let targetY := 0%float in
  let halfW := (Binary64.EREntity.width entity / 2)%float in
  let halfH := (Binary64.EREntity.height entity / 2)%float in
  let cx := (Binary64.EREntity.x entity + halfW)%float in
  let cy := (Binary64.EREntity.y entity + halfH)%float in
  let dx := (targetX - cx)%float in
  let dy := (targetY - cy)%float in
  PrimFloat.ltb 0 (Binary64.EREntity.width entity) = true /\
  PrimFloat.ltb 0 (Binary64.EREntity.height entity) = true /\
  PrimFloat.eqb dx 0 && PrimFloat.eqb dy 0 = false /\
  Binary64.Math_max (PrimFloat.abs dx / halfW)%float
                    (PrimFloat.abs dy / halfH)%float
  = 0%float /\
  Binary64.getEntityBorderPoint entity targetX targetY
  = Binary64.mkPoint PrimFloat.infinity PrimFloat.nan /\
  pointValue (Binary64.getEntityBorderPoint entity targetX targetY) = None.
Proof.
  cbv zeta. repeat split; vm_compute; reflexivity.
Qed.

(** ** Cardinality labels *)

Lemma typeSymbols_table (type : string) :
  (type = "1:1" -> typeSymbols type = ("1", "1")) /\
  (type = "1:N" -> typeSymbols type = ("N", "1")) /\
  (type = "M:N" -> typeSymbols type = ("M", "N")) /\
  (type <> "1:1" -> type <> "1:N" -> type <> "M:N" ->
   typeSymbols type = ("N", "1")).
Proof.
  repeat split.
  - intros ->. reflexivity.
  - intros ->. reflexivity.
  - intros ->. reflexivity.
  - intros H1 H2 H3. unfold typeSymbols.
    apply String.eqb_neq in H1. apply String.eqb_neq in H2.
    apply String.eqb_neq in H3. rewrite H1, H2, H3. reflexivity.
Qed.

(** The labels of one rendered relationship are the two symbols of its type,
    the one of the from end first. *)
Lemma relationshipConnection_labels
    (es : list EREntity.t) (rel : ERRelationship.t)
    (fromEntity toEntity : EREntity.t) :
  findEntity (ERRelationship.fromEntityId rel) es = Some fromEntity ->
  findEntity (ERRelationship.toEntityId rel) es = Some toEntity ->
  labelTexts (relationshipConnection es rel)
  = [fst (typeSymbols (ERRelationship.type rel));
     snd (typeSymbols (ERRelationship.type rel))].
Proof.
  intros Hf Ht. unfold relationshipConnection. rewrite Hf, Ht.
  destruct (typeSymbols (ERRelationship.type rel)) as [symFrom symTo].
  case_tests; reflexivity.
Qed.

Lemma attributeConnection_no_label
    (es : list EREntity.t) (attrs : list ERAttribute.t) :
  labelTexts (flat_map (attributeConnection es) attrs) = [].
Proof.
  induction attrs as [| a attrs IH]; [reflexivity |].
  cbn [flat_map]. unfold labelTexts in *. rewrite flat_map_app, IH.
  unfold attributeConnection.
  destruct (findEntity (ERAttribute.entityId a) es); reflexivity.
Qed.

Lemma updateConnections_label_texts (m : Model) :
  labelTexts (updateConnections true m)
  = flat_map (fun r => labelTexts (relationshipConnection (entities m) r))
      (relationships m).
Proof.
  unfold updateConnections.
  unfold labelTexts at 1. rewrite flat_map_app.
  change (flat_map _ (flat_map (attributeConnection (entities m))
                        (attributes m)))
    with (labelTexts (flat_map (attributeConnection (entities m))
                        (attributes m))).
  rewrite attributeConnection_no_label. cbn [app].
  induction (relationships m) as [| r rs IH]; [reflexivity |].
  cbn [flat_map]. rewrite flat_map_app, IH. reflexivity.
Qed.

(** C8 (amended). The relationships being shown, [updateConnections] draws
    the connectors of the attributes, which carry no label, and then, for
    every relationship in order, what [relationshipConnection] gives.  For a
    relationship whose two entities are found that is: the line from the
    port of the from entity to a corner of the diamond, the line from
    another corner of the diamond to the port of the to entity, and two
    labels, each on a background of 20 by 18 centred on it: the from symbol
    at the middle of the first line and the to symbol at the middle of the
    second.  The symbols are those of the type: ['1:1'] gives ("1","1"),
    ['1:N'] gives ("N","1"), ['M:N'] gives ("M","N"), and any other type
    gives ("N","1").  A relationship one of whose entities is not found gets
    no connector and no label. *)
Theorem updateConnections_cardinality_labels
    (m : Model) (rel : ERRelationship.t) :
  updateConnections true m
  = flat_map (attributeConnection (entities m)) (attributes m)
    ++ flat_map (relationshipConnection (entities m)) (relationships m) /\
  labelTexts (flat_map (attributeConnection (entities m)) (attributes m))
  = [] /\
  (forall fromEntity toEntity,
      findEntity (ERRelationship.fromEntityId rel) (entities m)
      = Some fromEntity ->
      findEntity (ERRelationship.toEntityId rel) (entities m)
      = Some toEntity ->
      exists fromAttachPoint toAttachPoint,
        let fromPort :=
          getEntityBorderPoint fromEntity (px fromAttachPoint)
            (py fromAttachPoint) in
        let toPort :=
          getEntityBorderPoint toEntity (px toAttachPoint)
            (py toAttachPoint) in
        let midX1 :=
          midpoint (option_map px fromPort) (px fromAttachPoint) in
        let midY1 :=
          midpoint (option_map py fromPort) (py fromAttachPoint) in
        let midX2 := midpoint (option_map px toPort) (px toAttachPoint) in
        let midY2 := midpoint (option_map py toPort) (py toAttachPoint) in
        relationshipConnection (entities m) rel
        = [Line "connection entity-rel-line"
             (option_map px fromPort) (option_map py fromPort)
             (Some (px fromAttachPoint)) (Some (py fromAttachPoint)) false;
           Line "connection entity-rel-line"
             (Some (px toAttachPoint)) (Some (py toAttachPoint))
             (option_map px toPort) (option_map py toPort) true;
           LabelRect (option_map (fun v => v - 20 / 2) midX1)
             (option_map (fun v => v - 18 / 2) midY1) 20 18;
           LabelText midX1 midY1
             (fst (typeSymbols (ERRelationship.type rel)));
           LabelRect (option_map (fun v => v - 20 / 2) midX2)
             (option_map (fun v => v - 18 / 2) midY2) 20 18;
           LabelText midX2 midY2
             (snd (typeSymbols (ERRelationship.type rel)))]) /\
  (findEntity (ERRelationship.fromEntityId rel) (entities m) = None \/
   findEntity (ERRelationship.toEntityId rel) (entities m) = None ->
   relationshipConnection (entities m) rel = []) /\
  (ERRelationship.type rel = "1:1" ->
   typeSymbols (ERRelationship.type rel) = ("1", "1")) /\
  (ERRelationship.type rel = "1:N" ->
   typeSymbols (ERRelationship.type rel) = ("N", "1")) /\
  (ERRelationship.type rel = "M:N" ->
   typeSymbols (ERRelationship.type rel) = ("M", "N")) /\
  (ERRelationship.type rel <> "1:1" ->
   ERRelationship.type rel <> "1:N" ->
   ERRelationship.type rel <> "M:N" ->
   typeSymbols (ERRelationship.type rel) = ("N", "1")).
Proof.
  split; [reflexivity |].
  split; [apply attributeConnection_no_label |].
  split.
  { intros fromEntity toEntity Hf Ht. unfold relationshipConnection.
    rewrite Hf, Ht.
    destruct (typeSymbols (ERRelationship.type rel)) as [symFrom symTo].
    destruct (Qlt_le_dec _ _); destruct (Qlt_le_dec _ _);
      do 2 eexists; reflexivity. }
  split.
  { unfold relationshipConnection. intros [H | H].
    - rewrite H. reflexivity.
    - rewrite H.
      destruct (findEntity (ERRelationship.fromEntityId rel) (entities m));
        reflexivity. }
  apply typeSymbols_table.
Qed.

(** The relationship of the sample model is of type ['1:N'], from Employee to
    Department: the label on Employee's line is "N", the one on Department's
    line is "1". *)
Lemma updateConnections_cardinality_labels_witness :
  labelTexts (updateConnections true companyModel) = ["N"; "1"] /\
  typeSymbols (ERRelationship.type belongs_to) = ("N", "1") /\
  exists fromAttachPoint toAttachPoint rect1 text1x text1y rect2 text2x
         text2y,
    relationshipConnection (entities companyModel) belongs_to
    = [Line "connection entity-rel-line"
         (option_map px
            (getEntityBorderPoint employee (px fromAttachPoint)
               (py fromAttachPoint)))
         (option_map py
            (getEntityBorderPoint employee (px fromAttachPoint)
               (py fromAttachPoint)))
         (Some (px fromAttachPoint)) (Some (py fromAttachPoint)) false;
       Line "connection entity-rel-line"
         (Some (px toAttachPoint)) (Some (py toAttachPoint))
         (option_map px
            (getEntityBorderPoint department (px toAttachPoint)
               (py toAttachPoint)))
         (option_map py
            (getEntityBorderPoint department (px toAttachPoint)
               (py toAttachPoint)))
         true;
       rect1; LabelText text1x text1y "N";
       rect2; LabelText text2x text2y "1"].
Proof.
  destruct (updateConnections_cardinality_labels companyModel belongs_to)
    as (_ & _ & Hrel & _ & _ & H1N & _).
  split; [reflexivity |]. split; [exact (H1N eq_refl) |].
  destruct (Hrel employee department eq_refl eq_refl)
    as (fromAttachPoint & toAttachPoint & Heq).
  cbv zeta in Heq. rewrite (H1N eq_refl) in Heq.
  exists fromAttachPoint, toAttachPoint.
  do 6 eexists. exact Heq.
Defined.

(** C8, as stated for every rendered relationship, fails: a relationship
    whose from entity is missing is rendered as a diamond, yet no connector is
    drawn for it and no label assigned. *)
Lemma updateConnections_cardinality_labels_counterexample :
  In belongs_to
    (relationshipGroups
       (renderDiagram true (mkModel [department] [] [belongs_to]))) /\
  connections (renderDiagram true (mkModel [department] [] [belongs_to]))
  = [] /\
  labelTexts (updateConnections true (mkModel [department] [] [belongs_to]))
  = [].
Proof.
  split; [left; reflexivity |]. split; reflexivity.
Qed.

(** ** Dragging an entity *)

Lemma Forall2_map_right {A B : Type} (R : A -> B -> Prop) (f : A -> B)
    (l : list A) :
  (forall a, R a (f a)) -> Forall2 R l (map f l).
Proof.
  intros H. induction l as [| a l IH]; cbn; constructor; auto.
Qed.

Lemma nth_error_replaceNth {A : Type} (k : nat) (v a : A) (l : list A) :
  nth_error l k = Some a -> nth_error (replaceNth k v l) k = Some v.
Proof.
  revert k. induction l as [| b l IH]; intros [| k] H; cbn in *;
    try discriminate; auto.
Qed.

(** One coordinate of a drag, when its arithmetic is exact. *)
Lemma dragExact_sameOffset (pointer start a : float) :
  Binary64.dragExact pointer start a ->
  Binary64.sameOffset pointer start a (a + (pointer - start))%float.
Proof.
  intros ((vp & Vp) & (vs & Vs) & (va & Va) & Xsub & Xadd).
  destruct (Xsub _ _ Vp Vs) as (vd & Vd & Ed).
  destruct (Xadd _ _ Va Vd) as (va' & Va' & Ea').
  exists vp, vs, va, va'.
  repeat (split; [assumption |]).
  split; lra.
Qed.

(** C6 (amended). When [draggedEntity] moves the entity [d] to the pointer,
    every attribute whose [entityId] is [d.id] gets the position
    [(attr.x + dx, attr.y + dy)] with [(dx, dy) = (event.x - d.x,
    event.y - d.y)], all four computed in binary64, and every other attribute
    is unchanged.  Along a coordinate where the subtraction and the addition
    do not round, the attribute is moved by exactly what the entity is moved
    by, and keeps its offset to the entity. *)
Theorem draggedEntity_translates_owned_attributes
    (event : Binary64.Point) (k : nat)
    (es es' : list Binary64.EREntity.t)
    (attrs attrs' : list Binary64.ERAttribute.t)
    (d : Binary64.EREntity.t) :
  nth_error es k = Some d ->
  Binary64.draggedEntity event k (es, attrs) = Some (es', attrs') ->
  let dx := (Binary64.px event - Binary64.EREntity.x d)%float in
  let dy := (Binary64.py event - Binary64.EREntity.y d)%float in
  nth_error es' k
  = Some (Binary64.entityMoveTo d (Binary64.px event) (Binary64.py event)) /\
  Forall2
    (fun a a' =>
       if String.eqb (Binary64.ERAttribute.entityId a) (Binary64.EREntity.id d)
       then a' = Binary64.attributeMoveTo a
                   (Binary64.ERAttribute.x a + dx)%float
                   (Binary64.ERAttribute.y a + dy)%float /\
            (Binary64.dragExact (Binary64.px event) (Binary64.EREntity.x d)
               (Binary64.ERAttribute.x a) ->
             Binary64.sameOffset (Binary64.px event) (Binary64.EREntity.x d)
               (Binary64.ERAttribute.x a) (Binary64.ERAttribute.x a')) /\
            (Binary64.dragExact (Binary64.py event) (Binary64.EREntity.y d)
               (Binary64.ERAttribute.y a) ->
             Binary64.sameOffset (Binary64.py event) (Binary64.EREntity.y d)
               (Binary64.ERAttribute.y a) (Binary64.ERAttribute.y a'))
       else a' = a)
    attrs attrs'.
Proof.
  intros Hd Hdrag dx dy. unfold Binary64.draggedEntity in Hdrag.
  rewrite Hd in Hdrag. injection Hdrag as <- <-.
  split.
  - apply nth_error_replaceNth with d. exact Hd.
  - apply Forall2_map_right. intros a.
    destruct (String.eqb (Binary64.ERAttribute.entityId a)
                         (Binary64.EREntity.id d));
      [| reflexivity].
    split; [reflexivity |].
    cbn [Binary64.attributeMoveTo Binary64.ERAttribute.x
         Binary64.ERAttribute.y].
    split; apply dragExact_sameOffset.
Qed.

(** Dragging Employee from (500,100) to (530,80): its two attributes move by
    (30,-20), where nothing rounds, and Department's attribute stays. *)
Lemma draggedEntity_translates_owned_attributes_witness :
  exists es' a1 a2 a3,
    Binary64.draggedEntity (Binary64.mkPoint 530 80) 1
      ([Binary64.department; Binary64.employee],
       [Binary64.dept_id; Binary64.emp_id; Binary64.emp_dept_id])
    = Some (es', [a1; a2; a3]) /\
    nth_error es' 1 = Some (Binary64.entityMoveTo Binary64.employee 530 80) /\
    a1 = Binary64.dept_id /\
    a2 = Binary64.attributeMoveTo Binary64.emp_id 585 0 /\
    a3 = Binary64.attributeMoveTo Binary64.emp_dept_id 585 220 /\
    Binary64.sameOffset 530 500 555 (Binary64.ERAttribute.x a2) /\
    Binary64.sameOffset 80 100 20 (Binary64.ERAttribute.y a2) /\
    Binary64.sameOffset 530 500 555 (Binary64.ERAttribute.x a3) /\
    Binary64.sameOffset 80 100 240 (Binary64.ERAttribute.y a3).
Proof.
  do 4 eexists. split; [reflexivity |].
  destruct (draggedEntity_translates_owned_attributes
              (Binary64.mkPoint 530 80) 1
              [Binary64.department; Binary64.employee] _
              [Binary64.dept_id; Binary64.emp_id; Binary64.emp_dept_id] _
              Binary64.employee eq_refl eq_refl) as [Hk HF].
  split; [exact Hk |].
  inversion HF as [| ? ? ? ? H1 HF1]; subst.
  inversion HF1 as [| ? ? ? ? H2 HF2]; subst.
  inversion HF2 as [| ? ? ? ? H3 HF3]; subst.
  cbn in H1, H2, H3.
  destruct H2 as (E2 & X2 & Y2). destruct H3 as (E3 & X3 & Y3).
  split; [reflexivity |]. split; [reflexivity |]. split; [reflexivity |].
  split; [apply X2; dragExact_at |].
  split; [apply Y2; dragExact_at |].
  split; [apply X3; dragExact_at | apply Y3; dragExact_at].
Defined.

(** C6, as stated, fails where the arithmetic rounds: dragging Employee from
    (500,100) to (0.1,100) leaves its attribute [emp_id], which was at
    abscissa 555, at an abscissa that is neither 555 plus what the entity
    moved by nor 55 to the right of the entity. *)
Lemma draggedEntity_translates_owned_attributes_counterexample :
  exists es' a1 a2 a3 vp va',
    Binary64.draggedEntity (Binary64.mkPoint (1 / 10) 100) 1
      ([Binary64.department; Binary64.employee],
       [Binary64.dept_id; Binary64.emp_id; Binary64.emp_dept_id])
    = Some (es', [a1; a2; a3]) /\
    Binary64.ERAttribute.entityId Binary64.emp_id
    = Binary64.EREntity.id Binary64.employee /\
    Binary64.hasValue (Binary64.EREntity.x Binary64.employee) 500 /\
    Binary64.hasValue (Binary64.ERAttribute.x Binary64.emp_id) 555 /\
    Binary64.valueOf (1 / 10)%float = Some vp /\
    Binary64.valueOf (Binary64.ERAttribute.x a2) = Some va' /\
    ~ va' - 555 == vp - 500 /\
    ~ va' - vp == 555 - 500.
Proof.
  do 6 eexists.
  split; [vm_compute; reflexivity |].
  split; [reflexivity |].
  split; [eexists; split; [vm_compute; reflexivity | reflexivity] |].
  split; [eexists; split; [vm_compute; reflexivity | reflexivity] |].
  split; [vm_compute; reflexivity |].
  split; [vm_compute; reflexivity |].
  split; intros H; vm_compute in H; discriminate H.
Qed.

(** ** Export bounds *)

(** On the whole diagram the raster export's bounds are the vector export's
    bounds with the width raised to at least 400 and the height to at least
    300: the two computations differ by that last step only. *)
Lemma exportAsPNG_bounds_clamps (vp : Viewport) (m : Model) :
  exportAsPNG_bounds false vp m
  = mkBounds (b_x (exportAsSVG_bounds false vp m))
             (b_y (exportAsSVG_bounds false vp m))
             (Qmax (b_width (exportAsSVG_bounds false vp m)) 400)
             (Qmax (b_height (exportAsSVG_bounds false vp m)) 300).
Proof.
  unfold exportAsPNG_bounds, exportAsSVG_bounds.
  destruct (diagramCorners vp m) as [[[x0 y0] x1] y1]. reflexivity.
Qed.

(** C1. For the diagram of one entity at (100,100) of size (120,60), the
    raster export clamps the padded box (50, 50, 220, 160) up to the minimum
    size 400 by 300, and the vector export leaves it as it is. *)
Theorem exportAsSVG_bounds_single_entity_not_clamped (vp : Viewport) :
  exportAsPNG_bounds false vp singleEntityModel = mkBounds 50 50 400 300 /\
  exportAsSVG_bounds false vp singleEntityModel = mkBounds 50 50 220 160.
Proof. split; reflexivity. Qed.

(** ** Import *)

Section ImportSQL.

Variable measureTextWidth : string -> Q -> string -> string -> Q.
Variable fontSizes : FontSizes.
Variable defaultSizes : DefaultSizes.
Variable Math_PI : Q.
Variable Math_cos : Q -> Q.
Variable Math_sin : Q -> Q.
Variable nonce : nat -> string.

(** C2. When the parse request fails (the fetch or the reading of the body
    rejects, or the reply is not ok, the login and recharge replies
    included), [doImport] leaves the three arrays as they were. *)
Theorem doImport_failure_leaves_model
    (response : FetchResult) (confirmed : bool) (clock : nat) (m : Model) :
  requestFailed response = true ->
  fst (doImport measureTextWidth fontSizes defaultSizes
         Math_PI Math_cos Math_sin nonce response confirmed clock m) = m.
Proof.
  intros Hfail.
  destruct response as [msg | msg | ok data]; cbn in *; try reflexivity.
  destruct ok; [discriminate Hfail |].
  destruct (need_login data); [reflexivity |].
  destruct (need_recharge data); reflexivity.
Qed.

End ImportSQL.

(** A reply that is not ok and asks for a login, on the sample model. *)
Lemma doImport_failure_leaves_model_witness :
  fst (doImport sampleMeasure sampleFonts initialDefaultSizes
         (355 / 113) (fun _ => 0) (fun _ => 1) sampleNonce
         (Response false (mkParseData true false None [] [] false false))
         true 0 companyModel)
  = companyModel.
Proof.
  apply doImport_failure_leaves_model. reflexivity.
Defined.

(** The reply of the specification's scenario: Department and Employee with
    their key attributes, and the relationship belongs_to from Employee to
    Department. *)
Example doImport_success_replaces_model :
  let data :=
    mkParseData false false None
      [mkEntityData "Department" None
         [mkAttrData "dept_id" None "INT" true false None];
       mkEntityData "Employee" None
         [mkAttrData "emp_id" None "INT" true false None;
          mkAttrData "dept_id" None "INT" false true None]]
      [mkRelData "belongs_to" None "Employee" "Department" (Some "1:N")
         None None]
      false false in
  let m :=
    fst (doImport sampleMeasure sampleFonts initialDefaultSizes
           (355 / 113) (fun _ => 0) (fun _ => 1) sampleNonce
           (Response true data) true 0 singleEntityModel) in
  map EREntity.name (entities m) = ["Department"; "Employee"] /\
  map ERAttribute.name (attributes m) = ["dept_id"; "emp_id"; "dept_id"] /\
  map ERAttribute.entityId (attributes m)
  = ["entity_a"; "entity_c"; "entity_c"] /\
  map ERRelationship.type (relationships m) = ["1:N"] /\
  labelTexts (updateConnections true m) = ["N"; "1"].
Proof. vm_compute. repeat split; reflexivity. Qed.

(** ** The attribute ring *)

Section AttributeRing.

Variable Math_PI : Q.

Lemma baseRadii_nonneg (entity : EREntity.t)
    (entityAttrs : list ERAttribute.t) :
  0 <= fst (baseRadii Math_PI entity entityAttrs) /\
  0 <= snd (baseRadii Math_PI entity entityAttrs).
Proof.
  unfold baseRadii. cbn [fst snd].
  set (mult := Qmin (radiusMultiplier Math_PI entityAttrs) 1.5).
  assert (Hmult : 1 <= mult).
  { apply Q.min_glb; [apply Q.le_max_l | discriminate]. }
  pose proof (Q.le_max_r (EREntity.width entity / 2 + 50) 80) as Hx.
  pose proof (Q.le_max_r (EREntity.height entity / 2 + 40) 70) as Hy.
  split; nra.
Qed.

Lemma proximityStep_bound (entity : EREntity.t) (base final : Q * Q)
    (otherEntity : EREntity.t) :
  fst final <= fst base * 1.3 -> snd final <= snd base * 1.3 ->
  fst (proximityStep entity base final otherEntity) <= fst base * 1.3 /\
  snd (proximityStep entity base final otherEntity) <= snd base * 1.3.
Proof.
  destruct base as [bx by_], final as [fx fy]. cbn [fst snd].
  intros Hx Hy. unfold proximityStep.
  case_tests; cbn [fst snd]; split; try assumption; apply Q.le_min_r.
Qed.

Lemma proximityLoop_bound (entity : EREntity.t) (base : Q * Q)
    (otherEntities : list EREntity.t) (final : Q * Q) :
  fst final <= fst base * 1.3 -> snd final <= snd base * 1.3 ->
  fst (fold_left (proximityStep entity base) otherEntities final)
  <= fst base * 1.3 /\
  snd (fold_left (proximityStep entity base) otherEntities final)
  <= snd base * 1.3.
Proof.
  revert final.
  induction otherEntities as [| other rest IH]; intros final Hx Hy.
  - split; assumption.
  - cbn [fold_left].
    destruct (proximityStep_bound entity base final other Hx Hy).
    apply IH; assumption.
Qed.

(** C5. Whatever the other entities are, the radii of the ring on which
    [arrangeAttributes] places an entity's attributes are at most 1.5 times
    the base radii the proximity loop started from. *)
Theorem arrangeAttributes_radius_bound
    (entityId : string) (es : list EREntity.t)
    (entity : EREntity.t) (entityAttrs : list ERAttribute.t) :
  let base := baseRadii Math_PI entity entityAttrs in
  let final := finalRadii Math_PI entityId es entity entityAttrs in
  let ring := attributeRing Math_PI entityId es entity entityAttrs in
  ring_radiusX ring = fst final /\
  ring_radiusY ring = snd final /\
  fst final <= 1.5 * fst base /\
  snd final <= 1.5 * snd base.
Proof.
  intros base final ring.
  split; [reflexivity |]. split; [reflexivity |].
  destruct (baseRadii_nonneg entity entityAttrs) as [Bx By].
  fold base in Bx, By.
  assert (H : fst final <= fst base * 1.3 /\ snd final <= snd base * 1.3).
  { unfold final, finalRadii. fold base.
    apply proximityLoop_bound; lra. }
  destruct H as [Hx Hy]. split; lra.
Qed.

End AttributeRing.

(** ** Automatic layout *)

(** A loop whose steps are idempotent and commute is idempotent as a
    whole. *)
Lemma fold_left_commutes {S K : Type} (op : K -> S -> S) :
  (forall k k' s, op k (op k' s) = op k' (op k s)) ->
  forall l k s,
    op k (fold_left (fun s k => op k s) l s)
    = fold_left (fun s k => op k s) l (op k s).
Proof.
  intros Hcomm l. induction l as [| k' l IH]; intros k s; [reflexivity |].
  cbn [fold_left]. rewrite IH, Hcomm. reflexivity.
Qed.

Lemma fold_left_idempotent {S K : Type} (op : K -> S -> S) :
  (forall k s, op k (op k s) = op k s) ->
  (forall k k' s, op k (op k' s) = op k' (op k s)) ->
  forall l s,
    fold_left (fun s k => op k s) l (fold_left (fun s k => op k s) l s)
    = fold_left (fun s k => op k s) l s.
Proof.
  intros Hidem Hcomm l. induction l as [| k l IH]; intros s; [reflexivity |].
  cbn [fold_left].
  rewrite (fold_left_commutes op Hcomm l k (op k s)).
  rewrite Hidem. apply IH.
Qed.

Lemma fold_left_through_map {A B C : Type} (f : A -> C -> A) (g : B -> C)
    (l : list B) (a : A) :
  fold_left f (map g l) a = fold_left (fun a b => f a (g b)) l a.
Proof.
  revert a. induction l as [| b l IH]; intros a; [reflexivity |].
  cbn. apply IH.
Qed.

Lemma fold_left_agree {A B : Type} (f g : A -> B -> A) (l : list B) (a : A) :
  (forall a b, f a b = g a b) -> fold_left f l a = fold_left g l a.
Proof.
  intros H. revert a. induction l as [| b l IH]; intros a; [reflexivity |].
  cbn. rewrite H. apply IH.
Qed.

(** *** Centring entities on their nodes *)

Lemma centerEntityAt_idempotent (nodeId : string) (node : Q * Q)
    (es : list EREntity.t) :
  centerEntityAt nodeId node (centerEntityAt nodeId node es)
  = centerEntityAt nodeId node es.
Proof.
  induction es as [| e es IH]; [reflexivity |].
  cbn [centerEntityAt].
  destruct (String.eqb (EREntity.id e) nodeId) eqn:E.
  - cbn [centerEntityAt entityMoveTo EREntity.id]. rewrite E. reflexivity.
  - cbn [centerEntityAt]. rewrite E, IH. reflexivity.
Qed.

Lemma centerEntityAt_commutes (n1 n2 : string) (p1 p2 : Q * Q)
    (es : list EREntity.t) :
  n1 <> n2 ->
  centerEntityAt n1 p1 (centerEntityAt n2 p2 es)
  = centerEntityAt n2 p2 (centerEntityAt n1 p1 es).
Proof.
  intros Hne. induction es as [| e es IH]; [reflexivity |].
  cbn [centerEntityAt].
  destruct (String.eqb (EREntity.id e) n1) eqn:E1;
    destruct (String.eqb (EREntity.id e) n2) eqn:E2.
  - apply String.eqb_eq in E1. apply String.eqb_eq in E2. congruence.
  - cbn [centerEntityAt entityMoveTo EREntity.id]. rewrite E1, E2.
    reflexivity.
  - cbn [centerEntityAt entityMoveTo EREntity.id]. rewrite E1, E2.
    reflexivity.
  - cbn [centerEntityAt]. rewrite E1, E2, IH. reflexivity.
Qed.

Lemma centerEntityAt_erased (nodeId : string) (node : Q * Q)
    (es : list EREntity.t) :
  map eraseEntity (centerEntityAt nodeId node es) = map eraseEntity es.
Proof.
  induction es as [| e es IH]; [reflexivity |].
  cbn [centerEntityAt].
  destruct (String.eqb (EREntity.id e) nodeId); cbn [map].
  - reflexivity.
  - rewrite IH. reflexivity.
Qed.

(** The step of [applyPositions] for one node. *)
Lemma applyPositions_idempotent (position : string -> Q * Q)
    (nodes : list (string * option NodeLabel)) (es : list EREntity.t) :
  applyPositions position nodes (applyPositions position nodes es)
  = applyPositions position nodes es.
Proof.
  unfold applyPositions.
  apply (fold_left_idempotent
           (fun (n : string * option NodeLabel) es =>
              match snd n with
              | Some _ => centerEntityAt (fst n) (position (fst n)) es
              | None => es
              end)).
  - intros [n [l |]] s; cbn [fst snd]; [| reflexivity].
    apply centerEntityAt_idempotent.
  - intros [n [l |]] [n' [l' |]] s; cbn [fst snd]; try reflexivity.
    destruct (string_dec n n') as [-> | Hne]; [reflexivity |].
    apply centerEntityAt_commutes. exact Hne.
Qed.

Lemma applyPositions_erased (position : string -> Q * Q)
    (nodes : list (string * option NodeLabel)) (es : list EREntity.t) :
  map eraseEntity (applyPositions position nodes es) = map eraseEntity es.
Proof.
  unfold applyPositions. revert es.
  induction nodes as [| [n [l |]] nodes IH]; intros es; cbn [fold_left].
  - reflexivity.
  - cbn [fst snd]. rewrite IH. apply centerEntityAt_erased.
  - cbn [fst snd]. apply IH.
Qed.

(** *** Arranging attributes *)

Lemma attributesOf_erased (id : string) (attrs : list ERAttribute.t) :
  attributesOf id (map eraseAttribute attrs)
  = map eraseAttribute (attributesOf id attrs).
Proof.
  induction attrs as [| a attrs IH]; [reflexivity |].
  cbn [map attributesOf filter eraseAttribute attributeMoveTo
       ERAttribute.entityId].
  fold (attributesOf id (map eraseAttribute attrs)).
  fold (attributesOf id attrs).
  destruct (String.eqb (ERAttribute.entityId a) id); cbn [map];
    rewrite IH; reflexivity.
Qed.

Lemma attributesOf_same_erasure (id : string)
    (attrs attrs' : list ERAttribute.t) :
  map eraseAttribute attrs' = map eraseAttribute attrs ->
  map eraseAttribute (attributesOf id attrs')
  = map eraseAttribute (attributesOf id attrs).
Proof.
  intros H. rewrite <- !attributesOf_erased, H. reflexivity.
Qed.

Lemma attrPerimeter_erased (own : list ERAttribute.t) :
  attrPerimeter (map eraseAttribute own) = attrPerimeter own.
Proof.
  unfold attrPerimeter. rewrite fold_left_through_map.
  apply fold_left_agree. reflexivity.
Qed.

Lemma map_rx_erased (own : list ERAttribute.t) :
  map ERAttribute.rx (map eraseAttribute own) = map ERAttribute.rx own.
Proof. rewrite map_map. apply map_ext. reflexivity. Qed.

Lemma map_ry_erased (own : list ERAttribute.t) :
  map ERAttribute.ry (map eraseAttribute own) = map ERAttribute.ry own.
Proof. rewrite map_map. apply map_ext. reflexivity. Qed.

Section Layout.

Variable Math_PI : Q.
Variable Math_cos : Q -> Q.
Variable Math_sin : Q -> Q.

Lemma radiusMultiplier_erased (own : list ERAttribute.t) :
  radiusMultiplier Math_PI (map eraseAttribute own)
  = radiusMultiplier Math_PI own.
Proof. unfold radiusMultiplier. rewrite attrPerimeter_erased. reflexivity. Qed.

Lemma attributeRing_erased (entityId : string) (es : list EREntity.t)
    (entity : EREntity.t) (own : list ERAttribute.t) :
  attributeRing Math_PI entityId es entity (map eraseAttribute own)
  = attributeRing Math_PI entityId es entity own.
Proof.
  unfold attributeRing, finalRadii, baseRadii.
  rewrite radiusMultiplier_erased, length_map. reflexivity.
Qed.

Lemma attributeRing_same_erasure (entityId : string) (es : list EREntity.t)
    (entity : EREntity.t) (own own' : list ERAttribute.t) :
  map eraseAttribute own' = map eraseAttribute own ->
  attributeRing Math_PI entityId es entity own'
  = attributeRing Math_PI entityId es entity own.
Proof.
  intros H.
  rewrite <- (attributeRing_erased entityId es entity own'), H.
  apply attributeRing_erased.
Qed.

Lemma placeOnRing_erased (ring : Ring) (entityId : string) (i : nat)
    (attrs : list ERAttribute.t) :
  map eraseAttribute (placeOnRing Math_cos Math_sin ring entityId i attrs)
  = map eraseAttribute attrs.
Proof.
  revert i. induction attrs as [| a attrs IH]; intros i; [reflexivity |].
  cbn [placeOnRing].
  destruct (String.eqb (ERAttribute.entityId a) entityId); cbn [map];
    rewrite IH; reflexivity.
Qed.

Lemma placeOnRing_absorbs (ring ring' : Ring) (entityId : string)
    (i i' : nat) (attrs : list ERAttribute.t) :
  placeOnRing Math_cos Math_sin ring entityId i
    (placeOnRing Math_cos Math_sin ring' entityId i' attrs)
  = placeOnRing Math_cos Math_sin ring entityId i attrs.
Proof.
  revert i i'. induction attrs as [| a attrs IH]; intros i i';
    [reflexivity |].
  cbn [placeOnRing].
  destruct (String.eqb (ERAttribute.entityId a) entityId) eqn:E.
  - cbn [placeOnRing attributeMoveTo ERAttribute.entityId]. rewrite E.
    rewrite IH. reflexivity.
  - cbn [placeOnRing]. rewrite E, IH. reflexivity.
Qed.

Lemma placeOnRing_commutes (ring1 ring2 : Ring) (id1 id2 : string)
    (i j : nat) (attrs : list ERAttribute.t) :
  id1 <> id2 ->
  placeOnRing Math_cos Math_sin ring1 id1 i
    (placeOnRing Math_cos Math_sin ring2 id2 j attrs)
  = placeOnRing Math_cos Math_sin ring2 id2 j
      (placeOnRing Math_cos Math_sin ring1 id1 i attrs).
Proof.
  intros Hne. revert i j.
  induction attrs as [| a attrs IH]; intros i j; [reflexivity |].
  cbn [placeOnRing].
  destruct (String.eqb (ERAttribute.entityId a) id1) eqn:E1;
    destruct (String.eqb (ERAttribute.entityId a) id2) eqn:E2.
  - apply String.eqb_eq in E1. apply String.eqb_eq in E2. congruence.
  - cbn [placeOnRing attributeMoveTo ERAttribute.entityId].
    rewrite E1, E2, IH. reflexivity.
  - cbn [placeOnRing attributeMoveTo ERAttribute.entityId].
    rewrite E1, E2, IH. reflexivity.
  - cbn [placeOnRing]. rewrite E1, E2, IH. reflexivity.
Qed.

(** On all arrays that differ from [attrs] by positions only,
    [arrangeAttributes] for one entity either changes nothing or places the
    owned attributes on one and the same ring. *)
Lemma arrangeAttrs_uniform (es : list EREntity.t) (entityId : string)
    (attrs : list ERAttribute.t) :
  (forall attrs',
      map eraseAttribute attrs' = map eraseAttribute attrs ->
      arrangeAttrs Math_PI Math_cos Math_sin es entityId attrs' = attrs') \/
  (exists ring,
      forall attrs',
        map eraseAttribute attrs' = map eraseAttribute attrs ->
        arrangeAttrs Math_PI Math_cos Math_sin es entityId attrs'
        = placeOnRing Math_cos Math_sin ring entityId 0 attrs').
Proof.
  unfold arrangeAttrs.
  destruct (findEntity entityId es) as [entity |]; [| left; reflexivity].
  destruct (attributesOf entityId attrs) as [| a own] eqn:Hown.
  - left. intros attrs' H.
    pose proof (attributesOf_same_erasure entityId attrs attrs' H) as Hsame.
    rewrite Hown in Hsame.
    destruct (attributesOf entityId attrs'); [reflexivity | discriminate].
  - right. exists (attributeRing Math_PI entityId es entity (a :: own)).
    intros attrs' H.
    pose proof (attributesOf_same_erasure entityId attrs attrs' H) as Hsame.
    rewrite Hown in Hsame.
    destruct (attributesOf entityId attrs') as [| a' own'];
      [discriminate |].
    rewrite (attributeRing_same_erasure _ _ _ _ _ Hsame). reflexivity.
Qed.

Lemma arrangeAttrs_erased (es : list EREntity.t) (entityId : string)
    (attrs : list ERAttribute.t) :
  map eraseAttribute (arrangeAttrs Math_PI Math_cos Math_sin es entityId attrs)
  = map eraseAttribute attrs.
Proof.
  destruct (arrangeAttrs_uniform es entityId attrs) as [H | [ring H]];
    rewrite (H attrs eq_refl); [reflexivity | apply placeOnRing_erased].
Qed.

Lemma arrangeAttrs_idempotent (es : list EREntity.t) (entityId : string)
    (attrs : list ERAttribute.t) :
  arrangeAttrs Math_PI Math_cos Math_sin es entityId
    (arrangeAttrs Math_PI Math_cos Math_sin es entityId attrs)
  = arrangeAttrs Math_PI Math_cos Math_sin es entityId attrs.
Proof.
  destruct (arrangeAttrs_uniform es entityId attrs) as [H | [ring H]].
  - rewrite !(H attrs eq_refl). reflexivity.
  - rewrite (H attrs eq_refl).
    rewrite (H _ (placeOnRing_erased ring entityId 0 attrs)).
    apply placeOnRing_absorbs.
Qed.

Lemma arrangeAttrs_commutes (es : list EREntity.t) (id1 id2 : string)
    (attrs : list ERAttribute.t) :
  arrangeAttrs Math_PI Math_cos Math_sin es id1
    (arrangeAttrs Math_PI Math_cos Math_sin es id2 attrs)
  = arrangeAttrs Math_PI Math_cos Math_sin es id2
      (arrangeAttrs Math_PI Math_cos Math_sin es id1 attrs).
Proof.
  destruct (string_dec id1 id2) as [-> | Hne]; [reflexivity |].
  destruct (arrangeAttrs_uniform es id1 attrs) as [H1 | [ring1 H1]];
    destruct (arrangeAttrs_uniform es id2 attrs) as [H2 | [ring2 H2]];
    pose proof (H1 attrs eq_refl) as E1;
    pose proof (H2 attrs eq_refl) as E2.
  - rewrite E2, E1, E2. reflexivity.
  - rewrite E2, E1, E2.
    apply (H1 _ (placeOnRing_erased ring2 id2 0 attrs)).
  - rewrite E2, E1. symmetry.
    apply (H2 _ (placeOnRing_erased ring1 id1 0 attrs)).
  - rewrite E2, E1.
    rewrite (H1 _ (placeOnRing_erased ring2 id2 0 attrs)).
    rewrite (H2 _ (placeOnRing_erased ring1 id1 0 attrs)).
    apply placeOnRing_commutes. exact Hne.
Qed.

Lemma arrangeAll_idempotent (es : list EREntity.t)
    (attrs : list ERAttribute.t) :
  arrangeAll Math_PI Math_cos Math_sin es
    (arrangeAll Math_PI Math_cos Math_sin es attrs)
  = arrangeAll Math_PI Math_cos Math_sin es attrs.
Proof.
  unfold arrangeAll.
  apply (fold_left_idempotent
           (fun (e : EREntity.t) attrs =>
              arrangeAttrs Math_PI Math_cos Math_sin es (EREntity.id e)
                attrs)).
  - intros e s. apply arrangeAttrs_idempotent.
  - intros e e' s. apply arrangeAttrs_commutes.
Qed.

Lemma arrangeAll_erased (es : list EREntity.t)
    (attrs : list ERAttribute.t) :
  map eraseAttribute (arrangeAll Math_PI Math_cos Math_sin es attrs)
  = map eraseAttribute attrs.
Proof.
  unfold arrangeAll. generalize es at 1. intros es0. revert attrs.
  induction es as [| e es' IH]; intros attrs; [reflexivity |].
  cbn [fold_left]. rewrite IH. apply arrangeAttrs_erased.
Qed.

(** *** Placing relationships *)

Lemma placeRelationship_idempotent (es : list EREntity.t)
    (rel : ERRelationship.t) :
  placeRelationship es (placeRelationship es rel) = placeRelationship es rel.
Proof.
  unfold placeRelationship at 2 3.
  destruct (findEntity (ERRelationship.fromEntityId rel) es) eqn:Hf;
    [| unfold placeRelationship; rewrite Hf; reflexivity].
  destruct (findEntity (ERRelationship.toEntityId rel) es) eqn:Ht;
    [| unfold placeRelationship; rewrite Hf, Ht; reflexivity].
  unfold placeRelationship.
  cbn [relationshipMoveTo ERRelationship.fromEntityId
       ERRelationship.toEntityId].
  rewrite Hf, Ht. reflexivity.
Qed.

Lemma placeRelationship_erased (es : list EREntity.t)
    (rel : ERRelationship.t) :
  eraseRelationship (placeRelationship es rel) = eraseRelationship rel.
Proof.
  unfold placeRelationship.
  destruct (findEntity (ERRelationship.fromEntityId rel) es);
    [| reflexivity].
  destruct (findEntity (ERRelationship.toEntityId rel) es); reflexivity.
Qed.

(** *** The graph does not depend on positions *)

Lemma estimateAttributeRadii_erased (e : EREntity.t)
    (own : list ERAttribute.t) :
  estimateAttributeRadii Math_PI (eraseEntity e) (map eraseAttribute own)
  = estimateAttributeRadii Math_PI e own.
Proof.
  destruct own as [| a own]; [reflexivity |].
  unfold estimateAttributeRadii. cbn [map].
  change (eraseAttribute a :: map eraseAttribute own)
    with (map eraseAttribute (a :: own)).
  rewrite map_rx_erased, map_ry_erased, radiusMultiplier_erased.
  reflexivity.
Qed.

Lemma layoutNode_erased (attrs : list ERAttribute.t) (e : EREntity.t) :
  layoutNode Math_PI (map eraseAttribute attrs) (eraseEntity e)
  = layoutNode Math_PI attrs e.
Proof.
  unfold layoutNode.
  change (EREntity.id (eraseEntity e)) with (EREntity.id e).
  rewrite attributesOf_erased.
  pose proof (estimateAttributeRadii_erased e
                (attributesOf (EREntity.id e) attrs)) as Hr.
  destruct (attributesOf (EREntity.id e) attrs) as [| a own];
    [reflexivity |].
  cbn [map] in *. rewrite Hr. reflexivity.
Qed.

Lemma layoutGraph_erased (m : Model) :
  layoutGraph Math_PI (erasePositions m) = layoutGraph Math_PI m.
Proof.
  unfold layoutGraph, erasePositions.
  cbn [entities attributes relationships].
  rewrite !fold_left_through_map.
  rewrite (fold_left_agree
             (fun g e =>
                setNode (EREntity.id (eraseEntity e))
                  (layoutNode Math_PI (map eraseAttribute (attributes m))
                     (eraseEntity e)) g)
             (fun g e =>
                setNode (EREntity.id e)
                  (layoutNode Math_PI (attributes m) e) g)).
  - apply fold_left_agree. reflexivity.
  - intros g e. rewrite layoutNode_erased. reflexivity.
Qed.

(** A run of [autoLayout] that reaches the layout library and gets
    positions from it. *)
Lemma autoLayout_runs (layout : Graph -> option (string -> Q * Q))
    (position : string -> Q * Q) (m : Model) :
  entities m <> [] ->
  layout (layoutGraph Math_PI m) = Some position ->
  autoLayout Math_PI Math_cos Math_sin (Some layout) m
  = mkModel
      (applyPositions position (g_nodes (layoutGraph Math_PI m))
         (entities m))
      (arrangeAll Math_PI Math_cos Math_sin
         (applyPositions position (g_nodes (layoutGraph Math_PI m))
            (entities m))
         (attributes m))
      (map (placeRelationship
              (applyPositions position (g_nodes (layoutGraph Math_PI m))
                 (entities m)))
         (relationships m)).
Proof.
  intros Hne Hl. unfold autoLayout. rewrite Hl.
  destruct (entities m); [contradiction | reflexivity].
Qed.

(** C4. A second run of [autoLayout], nothing having changed in between,
    leaves every entity, attribute and relationship where the first run put
    it, whatever function of the graph the dagre layout is. *)
Theorem autoLayout_idempotent
    (dagre : option (Graph -> option (string -> Q * Q))) (m : Model) :
  autoLayout Math_PI Math_cos Math_sin dagre
    (autoLayout Math_PI Math_cos Math_sin dagre m)
  = autoLayout Math_PI Math_cos Math_sin dagre m.
Proof.
  destruct (entities m) as [| e0 es0] eqn:He.
  { unfold autoLayout. rewrite He. rewrite He. reflexivity. }
  destruct dagre as [layout |].
  2:{ unfold autoLayout. rewrite He. rewrite He. reflexivity. }
  destruct (layout (layoutGraph Math_PI m)) as [position |] eqn:Hl.
  2:{ unfold autoLayout. rewrite He, Hl. rewrite He, Hl. reflexivity. }
  assert (Hne : entities m <> []) by (rewrite He; discriminate).
  rewrite (autoLayout_runs layout position m Hne Hl).
  set (es := applyPositions position (g_nodes (layoutGraph Math_PI m))
               (entities m)).
  set (attrs := arrangeAll Math_PI Math_cos Math_sin es (attributes m)).
  set (rels := map (placeRelationship es) (relationships m)).
  assert (Hgraph : layoutGraph Math_PI (mkModel es attrs rels)
                   = layoutGraph Math_PI m).
  { rewrite <- layoutGraph_erased, <- (layoutGraph_erased m).
    f_equal. unfold erasePositions. cbn [entities attributes relationships].
    f_equal.
    - apply applyPositions_erased.
    - apply arrangeAll_erased.
    - unfold rels. rewrite map_map. apply map_ext.
      intros r. apply placeRelationship_erased. }
  assert (Hes : entities (mkModel es attrs rels) <> []).
  { cbn [entities]. intros Hnil.
    pose proof (applyPositions_erased position
                  (g_nodes (layoutGraph Math_PI m)) (entities m)) as Hsame.
    fold es in Hsame. rewrite Hnil, He in Hsame. discriminate Hsame. }
  assert (Hl' : layout (layoutGraph Math_PI (mkModel es attrs rels))
                = Some position) by (rewrite Hgraph; exact Hl).
  rewrite (autoLayout_runs layout position _ Hes Hl').
  rewrite Hgraph. cbn [entities attributes relationships].
  assert (Hsame : applyPositions position
                    (g_nodes (layoutGraph Math_PI m)) es = es)
    by apply applyPositions_idempotent.
  rewrite Hsame. f_equal.
  - apply arrangeAll_idempotent.
  - unfold rels. rewrite map_map. apply map_ext.
    intros r. apply placeRelationship_idempotent.
Qed.

End Layout.

(** One run on the sample model: both entities are centred on their nodes,
    and the relationship sits between them, pushed right by 25 because the
    two centres are on one vertical line. *)
Example autoLayout_sample :
  let m := autoLayout (355 / 113) (fun _ => 0) (fun _ => 1) sampleDagre
             companyModel in
  map (fun e => (Qred (EREntity.x e), Qred (EREntity.y e))) (entities m)
  = [(140, 70); (145, 370)] /\
  map (fun r => (Qred (ERRelationship.x r), Qred (ERRelationship.y r)))
    (relationships m)
  = [(225, 250)].
Proof. vm_compute. split; reflexivity. Qed.

(** ** The states the editor builds *)

Lemma dropOwned_erased (id : string) (attrs : list ERAttribute.t) :
  dropOwned id (map eraseAttribute attrs)
  = map eraseAttribute (dropOwned id attrs).
Proof.
  induction attrs as [| a attrs IH]; [reflexivity |].
  cbn [map dropOwned eraseAttribute attributeMoveTo ERAttribute.entityId].
  destruct (String.eqb (ERAttribute.entityId a) id); [exact IH | reflexivity].
Qed.

Lemma ownedInOrder_erased (es : list EREntity.t)
    (attrs : list ERAttribute.t) :
  ownedInOrder (map eraseEntity es) (map eraseAttribute attrs)
  = ownedInOrder es attrs.
Proof.
  revert attrs. induction es as [| e es IH]; intros attrs.
  - destruct attrs; reflexivity.
  - cbn [map ownedInOrder].
    change (EREntity.id (eraseEntity e)) with (EREntity.id e).
    rewrite dropOwned_erased. apply IH.
Qed.

Lemma forallb_through_map {A B : Type} (p : B -> bool) (f : A -> B)
    (l : list A) :
  forallb p (map f l) = forallb (fun a => p (f a)) l.
Proof.
  induction l as [| a l IH]; [reflexivity |]. cbn. rewrite IH. reflexivity.
Qed.

(** Whether a model is well formed does not depend on positions. *)
Lemma wellFormed_erased (m : Model) :
  wellFormed (erasePositions m) = wellFormed m.
Proof.
  unfold wellFormed, erasePositions.
  cbn [entities attributes relationships].
  rewrite ownedInOrder_erased, map_map, !forallb_through_map.
  reflexivity.
Qed.

Lemma wellFormed_same_erasure (m m' : Model) :
  erasePositions m' = erasePositions m -> wellFormed m' = wellFormed m.
Proof.
  intros H. rewrite <- (wellFormed_erased m'), H. apply wellFormed_erased.
Qed.

Lemma displayNameKept_js_or (displayName : option string) (name : string) :
  displayNameKept name (js_or displayName name) = true.
Proof.
  unfold displayNameKept, js_or.
  destruct displayName as [s |].
  - destruct (String.eqb s "") eqn:E.
    + destruct (String.eqb name "") eqn:En; [| reflexivity].
      apply orb_true_r.
    + rewrite E. reflexivity.
  - destruct (String.eqb name ""); reflexivity.
Qed.

Lemma distinct_snoc (ids : list string) (id : string) :
  distinct ids = true -> ~ In id ids -> distinct (ids ++ [id]) = true.
Proof.
  induction ids as [| i ids IH]; intros Hd Hnew; [reflexivity |].
  cbn [distinct app] in *. apply andb_prop in Hd. destruct Hd as [Hi Hd].
  apply andb_true_intro. split.
  - rewrite existsb_app. cbn [existsb].
    apply negb_true_iff in Hi. rewrite Hi. cbn.
    rewrite orb_false_r. apply negb_true_iff. apply String.eqb_neq.
    intros ->. apply Hnew. left. reflexivity.
  - apply IH; [exact Hd |]. intros H. apply Hnew. right. exact H.
Qed.

Lemma dropOwned_before (id : string) (attrs block : list ERAttribute.t) :
  Forall (fun a => ERAttribute.entityId a <> id) block ->
  dropOwned id (attrs ++ block) = dropOwned id attrs ++ block.
Proof.
  intros Hblock. induction attrs as [| a attrs IH].
  - cbn. destruct Hblock as [| b block Hb _]; [reflexivity |].
    cbn. apply String.eqb_neq in Hb. rewrite Hb. reflexivity.
  - cbn [app dropOwned].
    destruct (String.eqb (ERAttribute.entityId a) id);
      [exact IH | reflexivity].
Qed.

Lemma dropOwned_all (id : string) (block : list ERAttribute.t) :
  Forall (fun a => ERAttribute.entityId a = id) block ->
  dropOwned id block = [].
Proof.
  induction 1 as [| a block Ha _ IH]; [reflexivity |].
  cbn. rewrite Ha, String.eqb_refl. exact IH.
Qed.

(** A new entity and its attributes, pushed after the others. *)
Lemma ownedInOrder_snoc (es : list EREntity.t) (attrs : list ERAttribute.t)
    (e : EREntity.t) (block : list ERAttribute.t) :
  ownedInOrder es attrs = true ->
  ~ In (EREntity.id e) (map EREntity.id es) ->
  Forall (fun a => ERAttribute.entityId a = EREntity.id e) block ->
  ownedInOrder (es ++ [e]) (attrs ++ block) = true.
Proof.
  intros Ho Hnew Hblock. revert attrs Ho.
  induction es as [| e1 es IH]; intros attrs Ho.
  - destruct attrs; [| discriminate Ho].
    cbn. rewrite (dropOwned_all _ _ Hblock). reflexivity.
  - cbn [app ownedInOrder] in *.
    rewrite dropOwned_before.
    + apply IH; [| exact Ho]. intros H. apply Hnew. right. exact H.
    + eapply Forall_impl; [| exact Hblock]. cbn. intros a Ha E.
      apply Hnew. left. congruence.
Qed.

Section Building.

Variable measureTextWidth : string -> Q -> string -> string -> Q.
Variable fontSizes : FontSizes.
Variable defaultSizes : DefaultSizes.
Variable Math_PI : Q.
Variable Math_cos : Q -> Q.
Variable Math_sin : Q -> Q.
Variable nonce : nat -> string.

(** Two draws of the clock and the random generator never give the same
    text. *)
Hypothesis nonce_injective : forall i j, nonce i = nonce j -> i = j.

Lemma importAttributes_block (entityId : string) (clock : nat)
    (attrDatas : list AttrData) (attrs : list ERAttribute.t) :
  exists block,
    fst (importAttributes measureTextWidth fontSizes defaultSizes nonce
           entityId clock attrDatas attrs) = attrs ++ block /\
    Forall (fun a => ERAttribute.entityId a = entityId) block /\
    forallb (fun a => displayNameKept (ERAttribute.name a)
                        (ERAttribute.displayName a)) block = true /\
    (clock <= snd (importAttributes measureTextWidth fontSizes defaultSizes
                     nonce entityId clock attrDatas attrs))%nat.
Proof.
  revert clock attrs.
  induction attrDatas as [| d attrDatas IH]; intros clock attrs.
  - exists []. cbn. rewrite app_nil_r. repeat split; auto.
  - cbn [importAttributes].
    destruct (IH (S clock) (attrs ++ [newERAttribute measureTextWidth
                fontSizes defaultSizes (nonce clock) (ad_name d) (ad_type d)
                entityId (ad_isPK d) (ad_isFK d) (ad_displayName d)
                (ad_comment d)]))
      as (block & Hfst & Hown & Hkept & Hclock).
    eexists (_ :: block). rewrite Hfst, <- app_assoc. cbn [app].
    split; [reflexivity |]. split; [constructor; [reflexivity | exact Hown] |].
    split; [| lia].
    cbn [forallb]. rewrite Hkept, andb_true_r.
    apply displayNameKept_js_or.
Qed.

Lemma same_erasure_owned (es : list EREntity.t)
    (attrs attrs' : list ERAttribute.t) :
  map eraseAttribute attrs' = map eraseAttribute attrs ->
  ownedInOrder es attrs' = ownedInOrder es attrs /\
  forallb (fun a => displayNameKept (ERAttribute.name a)
                      (ERAttribute.displayName a)) attrs'
  = forallb (fun a => displayNameKept (ERAttribute.name a)
                        (ERAttribute.displayName a)) attrs.
Proof.
  intros H. split.
  - rewrite <- (ownedInOrder_erased es attrs'), H. apply ownedInOrder_erased.
  - transitivity
      (forallb (fun a => displayNameKept (ERAttribute.name a)
                           (ERAttribute.displayName a))
         (map eraseAttribute attrs')).
    + rewrite forallb_through_map. reflexivity.
    + rewrite H, forallb_through_map. reflexivity.
Qed.

(** The loop over [data.entities] keeps: entity ids distinct and drawn
    before the current clock, attributes stored entity by entity, display
    names kept. *)
Lemma importEntities_invariant (entityDatas : list EntityData)
    (index clock : nat) (m : Model) :
  distinct (map EREntity.id (entities m)) = true ->
  ownedInOrder (entities m) (attributes m) = true ->
  forallb (fun e => displayNameKept (EREntity.name e)
                      (EREntity.displayName e)) (entities m) = true ->
  forallb (fun a => displayNameKept (ERAttribute.name a)
                      (ERAttribute.displayName a)) (attributes m) = true ->
  Forall (fun e => exists k, (k < clock)%nat /\
                    EREntity.id e = ("entity_" ++ nonce k)%string)
    (entities m) ->
  let m' :=
    fst (importEntities measureTextWidth fontSizes defaultSizes
           Math_PI Math_cos Math_sin nonce index clock entityDatas m) in
  distinct (map EREntity.id (entities m')) = true /\
  ownedInOrder (entities m') (attributes m') = true /\
  forallb (fun e => displayNameKept (EREntity.name e)
                      (EREntity.displayName e)) (entities m') = true /\
  forallb (fun a => displayNameKept (ERAttribute.name a)
                      (ERAttribute.displayName a)) (attributes m') = true /\
  relationships m' = relationships m.
Proof.
  revert index clock m.
  induction entityDatas as [| d entityDatas IH];
    intros index clock m Hd Ho Hke Hka Hids; cbn zeta.
  - cbn. auto.
  - cbn [importEntities].
    set (entity := newEREntity measureTextWidth fontSizes defaultSizes
                     (nonce clock) (ed_name d)
                     (200 + ofNat (index mod 3) * 300)
                     (100 + ofNat (index / 3) * 300) (ed_displayName d)).
    destruct (importAttributes_block (EREntity.id entity) (S clock)
                (ed_attributes d) (attributes m))
      as (block & Hfst & Hown & Hkept & Hclock).
    destruct (importAttributes measureTextWidth fontSizes defaultSizes nonce
                (EREntity.id entity) (S clock) (ed_attributes d)
                (attributes m)) as [attrs clock'].
    cbn [fst snd] in Hfst, Hclock. subst attrs.
    assert (Hnew : ~ In (EREntity.id entity) (map EREntity.id (entities m))).
    { intros Hin. apply in_map_iff in Hin. destruct Hin as (e & He & Hin).
      rewrite Forall_forall in Hids.
      destruct (Hids e Hin) as (k & Hk & Hid).
      rewrite Hid in He. cbn in He. injection He as He.
      apply nonce_injective in He. lia. }
    destruct (same_erasure_owned (entities m ++ [entity])
                (attributes m ++ block)
                (arrangeAttrs Math_PI Math_cos Math_sin
                   (entities m ++ [entity]) (EREntity.id entity)
                   (attributes m ++ block))
                (arrangeAttrs_erased Math_PI Math_cos Math_sin _ _ _))
      as [Ho' Hka'].
    unfold arrangeAttributes. cbn [entities attributes relationships].
    match goal with
    | |- context [importEntities _ _ _ _ _ _ _ ?i ?c ?l ?m0] =>
      specialize (IH i c m0)
    end.
    cbn [entities attributes relationships] in IH. cbn zeta in IH.
    destruct IH as (H1 & H2 & H3 & H4 & H5).
    + rewrite map_app. apply distinct_snoc; assumption.
    + rewrite Ho'. apply ownedInOrder_snoc; assumption.
    + rewrite forallb_app, Hke. cbn [forallb]. rewrite andb_true_r.
      apply displayNameKept_js_or.
    + rewrite Hka', forallb_app, Hka, Hkept. reflexivity.
    + apply Forall_app. split.
      * eapply Forall_impl; [| exact Hids]. cbn.
        intros e (k & Hk & Hid). exists k. split; [lia | exact Hid].
      * constructor; [| constructor]. exists clock. split; [lia |].
        reflexivity.
    + auto.
Qed.

Lemma importRelationships_invariant (relDatas : list RelData) (clock : nat)
    (m : Model) :
  forallb (fun r => displayNameKept (ERRelationship.name r)
                      (ERRelationship.displayName r)) (relationships m)
  = true ->
  let m' :=
    importRelationships measureTextWidth fontSizes defaultSizes nonce
      clock relDatas m in
  entities m' = entities m /\
  attributes m' = attributes m /\
  forallb (fun r => displayNameKept (ERRelationship.name r)
                      (ERRelationship.displayName r)) (relationships m')
  = true.
Proof.
  revert clock m.
  induction relDatas as [| d relDatas IH]; intros clock m Hk; cbn zeta.
  - auto.
  - cbn [importRelationships].
    destruct (find _ (entities m)) as [fromEntity |]; [| apply IH; exact Hk].
    destruct (find _ (entities m)) as [toEntity |]; [| apply IH; exact Hk].
    match goal with
    | |- context [importRelationships _ _ _ _ ?c ?l ?m0] =>
      specialize (IH c m0)
    end.
    cbn [entities attributes relationships] in IH. apply IH.
    rewrite forallb_app, Hk. cbn [forallb]. rewrite andb_true_r.
    apply displayNameKept_js_or.
Qed.

(** A successful import builds a well-formed model. *)
Lemma doImport_wellFormed (data : ParseData) (confirmed : bool)
    (clock : nat) (m : Model) :
  wellFormed
    (fst (doImport measureTextWidth fontSizes defaultSizes
            Math_PI Math_cos Math_sin nonce (Response true data)
            confirmed clock m))
  = true.
Proof.
  cbn [doImport].
  pose proof (importEntities_invariant (pd_entities data) 0 clock
                (mkModel [] [] []) eq_refl eq_refl eq_refl eq_refl
                (Forall_nil _)) as Hent.
  cbn zeta in Hent.
  destruct (importEntities measureTextWidth fontSizes defaultSizes
              Math_PI Math_cos Math_sin nonce 0 clock (pd_entities data)
              (mkModel [] [] [])) as [m1 clock1].
  cbn [fst] in *. destruct Hent as (H1 & H2 & H3 & H4 & H5).
  cbn [relationships] in H5.
  pose proof (importRelationships_invariant (pd_relationships data) clock1
                m1) as Hrel.
  rewrite H5 in Hrel. specialize (Hrel eq_refl). cbn zeta in Hrel.
  destruct Hrel as (R1 & R2 & R3).
  unfold wellFormed. rewrite R1, R2, H1, H2, H3, H4, R3. reflexivity.
Qed.

(** Automatic layout keeps a model well formed. *)
Lemma autoLayout_wellFormed
    (dagre : option (Graph -> option (string -> Q * Q))) (m : Model) :
  wellFormed (autoLayout Math_PI Math_cos Math_sin dagre m) = wellFormed m.
Proof.
  unfold autoLayout.
  destruct (entities m) as [| e0 es0] eqn:He; [reflexivity |].
  destruct dagre as [layout |]; [| reflexivity].
  destruct (layout (layoutGraph Math_PI m)) as [position |]; [| reflexivity].
  rewrite <- He. apply wellFormed_same_erasure.
  unfold erasePositions. cbn [entities attributes relationships].
  f_equal.
  - apply applyPositions_erased.
  - apply arrangeAll_erased.
  - rewrite map_map. apply map_ext. intros r. apply placeRelationship_erased.
Qed.

End Building.

(** ** Saving and loading a project *)

Lemma js_or_kept (name displayName : string) :
  displayNameKept name displayName = true ->
  js_or (Some displayName) name = displayName.
Proof.
  unfold displayNameKept, js_or. intros H.
  destruct (String.eqb displayName "") eqn:E; [| reflexivity].
  cbn in H. apply String.eqb_eq in H. apply String.eqb_eq in E.
  congruence.
Qed.

Lemma existsb_eqb_false (id : string) (ids : list string) :
  existsb (String.eqb id) ids = false -> ~ In id ids.
Proof.
  intros H Hin.
  assert (existsb (String.eqb id) ids = true) as E.
  { apply existsb_exists. exists id. split; [exact Hin |].
    apply String.eqb_refl. }
  congruence.
Qed.

Lemma attributesOf_app (id : string) (l1 l2 : list ERAttribute.t) :
  attributesOf id (l1 ++ l2) = attributesOf id l1 ++ attributesOf id l2.
Proof. apply filter_app. Qed.

Lemma attributesOf_all (id : string) (l : list ERAttribute.t) :
  Forall (fun a => ERAttribute.entityId a = id) l -> attributesOf id l = l.
Proof.
  induction 1 as [| a l Ha _ IH]; [reflexivity |].
  cbn. rewrite Ha, String.eqb_refl. f_equal. exact IH.
Qed.

Lemma attributesOf_none (id : string) (l : list ERAttribute.t) :
  Forall (fun a => ERAttribute.entityId a <> id) l -> attributesOf id l = [].
Proof.
  induction 1 as [| a l Ha _ IH]; [reflexivity |].
  cbn. apply String.eqb_neq in Ha. rewrite Ha. exact IH.
Qed.

(** A list is its leading run of attributes owned by [id], then the rest. *)
Lemma dropOwned_split (id : string) (attrs : list ERAttribute.t) :
  exists own,
    attrs = own ++ dropOwned id attrs /\
    Forall (fun a => ERAttribute.entityId a = id) own.
Proof.
  induction attrs as [| a attrs (own & Hsplit & Hown)].
  - exists []. split; [reflexivity | constructor].
  - cbn [dropOwned].
    destruct (String.eqb (ERAttribute.entityId a) id) eqn:E.
    + exists (a :: own). split.
      * cbn. f_equal. exact Hsplit.
      * constructor; [apply String.eqb_eq; exact E | exact Hown].
    + exists []. split; [reflexivity | constructor].
Qed.

Lemma ownedInOrder_owners (es : list EREntity.t)
    (attrs : list ERAttribute.t) :
  ownedInOrder es attrs = true ->
  Forall (fun a => In (ERAttribute.entityId a) (map EREntity.id es)) attrs.
Proof.
  revert attrs. induction es as [| e es IH]; intros attrs H.
  - destruct attrs; [constructor | discriminate H].
  - cbn [ownedInOrder] in H.
    destruct (dropOwned_split (EREntity.id e) attrs) as (own & Hsplit & Hown).
    rewrite Hsplit. apply Forall_app. split.
    + eapply Forall_impl; [| exact Hown]. intros a Ha. left. auto.
    + eapply Forall_impl; [| exact (IH _ H)]. intros a Ha. right. exact Ha.
Qed.

Lemma flat_map_agree {A B : Type} (f g : A -> list B) (l : list A) :
  (forall a, In a l -> f a = g a) -> flat_map f l = flat_map g l.
Proof.
  induction l as [| a l IH]; intros H; [reflexivity |].
  cbn. rewrite (H a (or_introl eq_refl)). f_equal.
  apply IH. intros b Hb. apply H. right. exact Hb.
Qed.

(** Entity by entity, the owned attributes make up the whole array. *)
Lemma attributes_by_entity (es : list EREntity.t)
    (attrs : list ERAttribute.t) :
  distinct (map EREntity.id es) = true ->
  ownedInOrder es attrs = true ->
  flat_map (fun e => attributesOf (EREntity.id e) attrs) es = attrs.
Proof.
  revert attrs. induction es as [| e es IH]; intros attrs Hd Ho.
  - destruct attrs; [reflexivity | discriminate Ho].
  - cbn [map distinct] in Hd. apply andb_prop in Hd. destruct Hd as [Hnew Hd].
    apply negb_true_iff in Hnew. apply existsb_eqb_false in Hnew.
    cbn [ownedInOrder] in Ho.
    destruct (dropOwned_split (EREntity.id e) attrs) as (own & Hsplit & Hown).
    set (rest := dropOwned (EREntity.id e) attrs) in *.
    pose proof (ownedInOrder_owners es rest Ho) as Hrest.
    assert (Hmine : attributesOf (EREntity.id e) attrs = own).
    { rewrite Hsplit, attributesOf_app, (attributesOf_all _ own Hown).
      rewrite (attributesOf_none (EREntity.id e) rest).
      - apply app_nil_r.
      - eapply Forall_impl; [| exact Hrest]. cbn. intros a Ha E.
        apply Hnew. rewrite <- E. exact Ha. }
    assert (Hothers :
              flat_map (fun e' => attributesOf (EREntity.id e') attrs) es
              = rest).
    { transitivity
        (flat_map (fun e' => attributesOf (EREntity.id e') rest) es);
        [| exact (IH rest Hd Ho)].
      apply flat_map_agree. intros e' He'.
      rewrite Hsplit, attributesOf_app.
      rewrite (attributesOf_none (EREntity.id e') own); [reflexivity |].
      eapply Forall_impl; [| exact Hown]. cbn. intros a Ha E.
      apply Hnew. rewrite <- Ha, E. apply in_map. exact He'. }
    cbn [flat_map]. rewrite Hmine, Hothers. symmetry. exact Hsplit.
Qed.

Section Persistence.

Variable measureTextWidth : string -> Q -> string -> string -> Q.
Variable fontSizes : FontSizes.
Variable defaultSizes : DefaultSizes.
Variable nonce : nat -> string.

Lemma restoreAttributes_owned (entityId : string) (clock : nat)
    (own attrs : list ERAttribute.t) :
  Forall (fun a => ERAttribute.entityId a = entityId) own ->
  forallb (fun a => displayNameKept (ERAttribute.name a)
                      (ERAttribute.displayName a)) own = true ->
  fst (restoreAttributes measureTextWidth fontSizes defaultSizes nonce
         entityId clock (map attrSnapshot own) attrs)
  = attrs ++ own.
Proof.
  intros Hown. revert clock attrs.
  induction Hown as [| a own Ha _ IH]; intros clock attrs Hdn.
  - cbn. rewrite app_nil_r. reflexivity.
  - cbn [forallb] in Hdn. apply andb_prop in Hdn. destruct Hdn as [Hk Hdn].
    cbn [map restoreAttributes]. rewrite IH by exact Hdn.
    rewrite <- app_assoc. f_equal. cbn [app]. f_equal.
    unfold newERAttribute, attrSnapshot. cbn -[js_or].
    rewrite (js_or_kept _ _ Hk). destruct a. cbn in *. congruence.
Qed.

Lemma forallb_attributesOf (p : ERAttribute.t -> bool) (id : string)
    (attrs : list ERAttribute.t) :
  forallb p attrs = true -> forallb p (attributesOf id attrs) = true.
Proof.
  intros H. apply forallb_forall. intros a Ha.
  apply filter_In in Ha. destruct Ha as [Ha _].
  revert a Ha. apply forallb_forall. exact H.
Qed.

Lemma attributesOf_owned (id : string) (attrs : list ERAttribute.t) :
  Forall (fun a => ERAttribute.entityId a = id) (attributesOf id attrs).
Proof.
  apply Forall_forall. intros a Ha. apply filter_In in Ha.
  destruct Ha as [_ Ha]. apply String.eqb_eq. exact Ha.
Qed.

Lemma restoreEntities_snapshot (allAttrs : list ERAttribute.t)
    (es : list EREntity.t) (clock : nat) (m : Model) :
  forallb (fun e => displayNameKept (EREntity.name e)
                      (EREntity.displayName e)) es = true ->
  forallb (fun a => displayNameKept (ERAttribute.name a)
                      (ERAttribute.displayName a)) allAttrs = true ->
  fst (restoreEntities measureTextWidth fontSizes defaultSizes nonce clock
         (map (entitySnapshot allAttrs) es) m)
  = mkModel (entities m ++ es)
      (attributes m
       ++ flat_map (fun e => attributesOf (EREntity.id e) allAttrs) es)
      (relationships m).
Proof.
  intros He Ha. revert clock m.
  induction es as [| e es IH]; intros clock m.
  - cbn. rewrite !app_nil_r. destruct m. reflexivity.
  - cbn [forallb] in He. apply andb_prop in He. destruct He as [Hk He].
    cbn [map restoreEntities].
    cbn [entitySnapshot es_attributes es_name es_x es_y es_displayName
         es_id es_width es_height].
    match goal with
    | |- context [restoreAttributes ?a ?b ?c ?d ?i ?k ?l ?acc] =>
      pose proof (restoreAttributes_owned i k
                    (attributesOf (EREntity.id e) allAttrs) acc
                    (attributesOf_owned _ _)
                    (forallb_attributesOf _ _ _ Ha)) as Hr;
      destruct (restoreAttributes a b c d i k l acc) as [attrs clock']
    end.
    cbn [fst] in Hr. subst attrs.
    rewrite (IH He). cbn [entities attributes relationships flat_map].
    rewrite <- !app_assoc. cbn [app]. f_equal. f_equal. f_equal.
    unfold newEREntity. cbn -[js_or]. rewrite (js_or_kept _ _ Hk).
    destruct e. reflexivity.
Qed.

Lemma restoreRelationships_snapshot (clock : nat)
    (rels acc : list ERRelationship.t) :
  forallb (fun r => displayNameKept (ERRelationship.name r)
                      (ERRelationship.displayName r)) rels = true ->
  restoreRelationships measureTextWidth fontSizes defaultSizes nonce clock
    (map relSnapshot rels) acc
  = acc ++ map withoutJoinAttrs rels.
Proof.
  revert clock acc. induction rels as [| r rels IH]; intros clock acc Hr.
  - cbn. rewrite app_nil_r. reflexivity.
  - cbn [forallb] in Hr. apply andb_prop in Hr. destruct Hr as [Hk Hr].
    cbn [map restoreRelationships]. rewrite (IH _ _ Hr).
    rewrite <- app_assoc. f_equal. cbn [app]. f_equal.
    unfold newERRelationship, relSnapshot, withoutJoinAttrs. cbn -[js_or].
    rewrite (js_or_kept _ _ Hk). reflexivity.
Qed.

(** What [loadProject] rebuilds from the snapshot of a well-formed model. *)
Lemma loadProject_restore_snapshot
    (currentProjectId : option string) (projectName sql : string)
    (clock : nat) (m : Model) :
  wellFormed m = true ->
  loadProject_restore measureTextWidth fontSizes defaultSizes nonce clock
    (saveProject_projectData currentProjectId projectName sql m)
  = mkModel (entities m) (attributes m)
      (map withoutJoinAttrs (relationships m)).
Proof.
  unfold wellFormed. intros Hwf.
  repeat (apply andb_prop in Hwf; destruct Hwf as [Hwf ?]).
  unfold loadProject_restore, saveProject_projectData.
  cbn [project_entities project_relationships].
  match goal with
  | |- context [restoreEntities ?a ?b ?c ?d ?k ?l ?m0] =>
    pose proof (restoreEntities_snapshot (attributes m) (entities m) k m0
                  ltac:(assumption) ltac:(assumption)) as Hr;
    destruct (restoreEntities a b c d k l m0) as [m1 clock1]
  end.
  cbn [fst] in Hr. subst m1. cbn [entities attributes relationships app].
  rewrite attributes_by_entity by assumption.
  rewrite restoreRelationships_snapshot by assumption.
  reflexivity.
Qed.

(** C3 (amended). For a Model whose entity ids are distinct, whose attributes
    are stored entity by entity in the order of the entities, each owned by
    one of them, and whose display names are kept by [displayName || name]
    (they are not empty, or the name is empty too), the snapshot of
    [saveProject] read back by [loadProject] gives the same entities and the
    same attributes, field by field and in the same order, and relationships
    with the same id, name, display name, ends, type, position and size, in
    the same order; no layout function is called on the way. *)
Theorem saveProject_loadProject_roundtrip
    (currentProjectId : option string) (projectName sql : string)
    (clock : nat) (m : Model) :
  wellFormed m = true ->
  let m' :=
    loadProject_restore measureTextWidth fontSizes defaultSizes nonce clock
      (saveProject_projectData currentProjectId projectName sql m) in
  entities m' = entities m /\
  attributes m' = attributes m /\
  Forall2
    (fun r r' =>
       ERRelationship.id r' = ERRelationship.id r /\
       ERRelationship.name r' = ERRelationship.name r /\
       ERRelationship.displayName r' = ERRelationship.displayName r /\
       ERRelationship.x r' = ERRelationship.x r /\
       ERRelationship.y r' = ERRelationship.y r /\
       ERRelationship.width r' = ERRelationship.width r /\
       ERRelationship.height r' = ERRelationship.height r /\
       ERRelationship.fromEntityId r' = ERRelationship.fromEntityId r /\
       ERRelationship.toEntityId r' = ERRelationship.toEntityId r /\
       ERRelationship.type r' = ERRelationship.type r)
    (relationships m) (relationships m').
Proof.
  intros Hwf m'. unfold m'.
  rewrite (loadProject_restore_snapshot _ _ _ _ _ Hwf).
  cbn [entities attributes relationships].
  split; [reflexivity |]. split; [reflexivity |].
  apply Forall2_map_right. intros r. cbn. repeat split; reflexivity.
Qed.

End Persistence.

(** The sample model is well formed; saved and loaded it comes back with its
    entities and attributes, and with its relationship at the same place. *)
Lemma saveProject_loadProject_roundtrip_witness :
  wellFormed companyModel = true /\
  let m' :=
    loadProject_restore sampleMeasure sampleFonts initialDefaultSizes
      sampleNonce 0
      (saveProject_projectData None "company" "CREATE TABLE" companyModel) in
  entities m' = [department; employee] /\
  attributes m' = [dept_id; emp_id; emp_dept_id] /\
  Forall2
    (fun r r' =>
       ERRelationship.id r' = ERRelationship.id r /\
       ERRelationship.name r' = ERRelationship.name r /\
       ERRelationship.displayName r' = ERRelationship.displayName r /\
       ERRelationship.x r' = ERRelationship.x r /\
       ERRelationship.y r' = ERRelationship.y r /\
       ERRelationship.width r' = ERRelationship.width r /\
       ERRelationship.height r' = ERRelationship.height r /\
       ERRelationship.fromEntityId r' = ERRelationship.fromEntityId r /\
       ERRelationship.toEntityId r' = ERRelationship.toEntityId r /\
       ERRelationship.type r' = ERRelationship.type r)
    [belongs_to] (relationships m').
Proof.
  split; [reflexivity |].
  exact (saveProject_loadProject_roundtrip sampleMeasure sampleFonts
           initialDefaultSizes sampleNonce None "company" "CREATE TABLE" 0
           companyModel eq_refl).
Defined.

(** C3, as stated for every Model state, fails: without these conditions
    the round trip changes the Model.  Two entities with one id: the
    attribute of that id is saved under both and comes back twice.  An
    attribute whose owner is not among the entities is not saved.  An empty
    display name comes back as the name.  Attributes stored in another order
    come back entity by entity. *)
Lemma saveProject_loadProject_roundtrip_counterexample :
  (let m :=
     mkModel [department;
              EREntity.make "entity_1" "Branch" "Branch" 500 100 120 60]
       [dept_id] [] in
   wellFormed m = false /\
   attributes
     (loadProject_restore sampleMeasure sampleFonts initialDefaultSizes
        sampleNonce 0 (saveProject_projectData None "company" "" m))
   = [dept_id; dept_id] /\
   attributes
     (loadProject_restore sampleMeasure sampleFonts initialDefaultSizes
        sampleNonce 0 (saveProject_projectData None "company" "" m))
   <> attributes m) /\
  (let m := mkModel [department] [dept_id; emp_id] [] in
   attributes
     (loadProject_restore sampleMeasure sampleFonts initialDefaultSizes
        sampleNonce 0 (saveProject_projectData None "company" "" m))
   = [dept_id]) /\
  (let m :=
     mkModel [EREntity.make "entity_1" "Department" "" 200 100 120 60] []
       [] in
   map EREntity.displayName
     (entities
        (loadProject_restore sampleMeasure sampleFonts initialDefaultSizes
           sampleNonce 0 (saveProject_projectData None "company" "" m)))
   = ["Department"]) /\
  (let m :=
     mkModel [department; employee] [emp_id; dept_id; emp_dept_id] [] in
   attributes
     (loadProject_restore sampleMeasure sampleFonts initialDefaultSizes
        sampleNonce 0 (saveProject_projectData None "company" "" m))
   = [dept_id; emp_id; emp_dept_id]).
Proof.
  cbv zeta. repeat split; try reflexivity.
  intros H. discriminate H.
Qed.

(** * Further properties *)

(** ** Attribute and relationship sizes *)

Lemma half_monotone (v w : Q) : v <= w -> (v + 30) / 2 <= (w + 30) / 2.
Proof.
  intros H. unfold Qdiv. apply Qmult_le_compat_r; [lra | discriminate].
Qed.

Section OtherWidths.

Variable measureTextWidth : string -> Q -> string -> string -> Q.
Variable fontSizes : FontSizes.

(** X1. The radius of an attribute's ellipse lies between 40 and 150 and the
    width of a relationship's diamond between 50 and 200, and neither
    decreases when the measured text width grows.  Inside the clamp range
    the radius is half of the measured width plus 30, and the width of the
    diamond is the measured width plus 30. *)
Theorem calculateAttributeWidth_calculateRelationshipWidth_clamped :
  let attrText name :=
    measureTextWidth name (fs_attr fontSizes) arial "normal" in
  let relText name :=
    measureTextWidth name (fs_rel fontSizes) arial "normal" in
  let attrRx := calculateAttributeWidth measureTextWidth fontSizes in
  let relWidth := calculateRelationshipWidth measureTextWidth fontSizes in
  (forall name, 40 <= attrRx name <= 150) /\
  (forall name, 50 <= relWidth name <= 200) /\
  (forall name1 name2,
      attrText name1 <= attrText name2 -> attrRx name1 <= attrRx name2) /\
  (forall name1 name2,
      relText name1 <= relText name2 -> relWidth name1 <= relWidth name2) /\
  (forall name,
      40 <= (attrText name + 30) / 2 -> (attrText name + 30) / 2 <= 150 ->
      attrRx name == (attrText name + 30) / 2) /\
  (forall name,
      50 <= relText name + 30 -> relText name + 30 <= 200 ->
      relWidth name == relText name + 30).
Proof.
  intros attrText relText attrRx relWidth.
  unfold attrRx, relWidth, attrText, relText,
    calculateAttributeWidth, calculateRelationshipWidth.
  split; [| split; [| split; [| split; [| split]]]].
  - intros name. apply clamp_bounds. discriminate.
  - intros name. apply clamp_bounds. discriminate.
  - intros name1 name2 H. apply clamp_monotone. apply half_monotone. exact H.
  - intros name1 name2 H. apply clamp_monotone. lra.
  - intros name Hlo Hhi. apply clamp_inside; assumption.
  - intros name Hlo Hhi. apply clamp_inside; assumption.
Qed.

End OtherWidths.

Lemma calculateAttributeWidth_calculateRelationshipWidth_clamped_witness :
  calculateAttributeWidth sampleMeasure sampleFonts "id"
  <= calculateAttributeWidth sampleMeasure sampleFonts "dept_id" /\
  calculateRelationshipWidth sampleMeasure sampleFonts "has"
  <= calculateRelationshipWidth sampleMeasure sampleFonts "belongs_to".
Proof.
  destruct (calculateAttributeWidth_calculateRelationshipWidth_clamped
              sampleMeasure sampleFonts) as (_ & _ & Ha & Hr & _).
  split.
  - apply Ha. vm_compute. discriminate.
  - apply Hr. vm_compute. discriminate.
Defined.

(** ** The attribute ring, continued *)

Lemma js_max_spread_bounds (xs : list Q) (floor : Q) :
  floor <= js_max_spread xs floor /\
  Forall (fun x => x <= js_max_spread xs floor) xs.
Proof.
  induction xs as [| x xs [IHf IHx]]; cbn.
  - split; [apply Qle_refl | constructor].
  - split.
    + eapply Qle_trans; [exact IHf | apply Q.le_max_r].
    + constructor; [apply Q.le_max_l |].
      eapply Forall_impl; [| exact IHx]. cbn. intros y Hy.
      eapply Qle_trans; [exact Hy | apply Q.le_max_r].
Qed.

Section RingMore.

Variable Math_PI : Q.

Lemma baseRadii_at_least (entity : EREntity.t)
    (entityAttrs : list ERAttribute.t) :
  110 <= fst (baseRadii Math_PI entity entityAttrs) /\
  95 <= snd (baseRadii Math_PI entity entityAttrs).
Proof.
  unfold baseRadii. cbn [fst snd].
  set (mult := Qmin (radiusMultiplier Math_PI entityAttrs) 1.5).
  assert (Hmult : 1 <= mult).
  { apply Q.min_glb; [apply Q.le_max_l | discriminate]. }
  pose proof (Q.le_max_r (EREntity.width entity / 2 + 50) 80) as Hx.
  pose proof (Q.le_max_r (EREntity.height entity / 2 + 40) 70) as Hy.
  split; nra.
Qed.

Lemma proximityStep_between (entity : EREntity.t) (base final : Q * Q)
    (otherEntity : EREntity.t) :
  fst final <= fst base * 1.3 -> snd final <= snd base * 1.3 ->
  fst final <= fst (proximityStep entity base final otherEntity) /\
  snd final <= snd (proximityStep entity base final otherEntity).
Proof.
  destruct base as [bx by_], final as [fx fy]. cbn [fst snd].
  intros Hx Hy. unfold proximityStep.
  case_tests; cbn [fst snd]; split;
    try apply Qle_refl; apply Q.min_glb; lra.
Qed.

Lemma proximityLoop_between (entity : EREntity.t) (base : Q * Q)
    (otherEntities : list EREntity.t) (final : Q * Q) :
  fst final <= fst base * 1.3 -> snd final <= snd base * 1.3 ->
  fst final
  <= fst (fold_left (proximityStep entity base) otherEntities final) /\
  snd final
  <= snd (fold_left (proximityStep entity base) otherEntities final).
Proof.
  revert final.
  induction otherEntities as [| other rest IH]; intros final Hx Hy.
  - split; apply Qle_refl.
  - cbn [fold_left].
    destruct (proximityStep_bound entity base final other Hx Hy) as [Bx By].
    destruct (proximityStep_between entity base final other Hx Hy)
      as [Sx Sy].
    destruct (IH _ Bx By) as [Ix Iy].
    split; eapply Qle_trans; eassumption.
Qed.

(** X2. The proximity loop of [arrangeAttributes] never shrinks the ring: the
    final radii are at least the base radii, which are at least 110 and 95,
    and at most 1.3 times the base radii. *)
Theorem arrangeAttributes_radius_between
    (entityId : string) (es : list EREntity.t)
    (entity : EREntity.t) (entityAttrs : list ERAttribute.t) :
  let base := baseRadii Math_PI entity entityAttrs in
  let final := finalRadii Math_PI entityId es entity entityAttrs in
  (110 <= fst base /\ fst base <= fst final /\ fst final <= 1.3 * fst base) /\
  (95 <= snd base /\ snd base <= snd final /\ snd final <= 1.3 * snd base).
Proof.
  intros base final.
  destruct (baseRadii_at_least entity entityAttrs) as [Bx By].
  fold base in Bx, By.
  assert (Ix : fst base <= fst base * 1.3) by lra.
  assert (Iy : snd base <= snd base * 1.3) by lra.
  destruct (proximityLoop_bound entity base
              (filter (fun e => negb (String.eqb (EREntity.id e) entityId))
                 es) base Ix Iy) as [Ux Uy].
  destruct (proximityLoop_between entity base
              (filter (fun e => negb (String.eqb (EREntity.id e) entityId))
                 es) base Ix Iy) as [Lx Ly].
  unfold final, finalRadii. fold base.
  repeat split; try assumption; lra.
Qed.

(** X3. The size [autoLayout] gives the node of an entity is at least the
    entity's box; for an entity with attributes the radii estimated for the
    node are the base radii of [arrangeAttributes], and the node's half width
    and half height hold that base ring plus the ellipse of each of its
    attributes. *)
Theorem layoutNode_covers_base_ring
    (attrs : list ERAttribute.t) (entity : EREntity.t) :
  let node := layoutNode Math_PI attrs entity in
  let entityAttrs := attributesOf (EREntity.id entity) attrs in
  let base := baseRadii Math_PI entity entityAttrs in
  EREntity.width entity <= nl_width node /\
  EREntity.height entity <= nl_height node /\
  (entityAttrs <> [] ->
   radiusX (estimateAttributeRadii Math_PI entity entityAttrs) = fst base /\
   radiusY (estimateAttributeRadii Math_PI entity entityAttrs) = snd base /\
   Forall (fun a =>
             fst base + ERAttribute.rx a <= nl_width node / 2 /\
             snd base + ERAttribute.ry a <= nl_height node / 2)
     entityAttrs).
Proof.
  intros node entityAttrs base. unfold node, layoutNode.
  fold entityAttrs.
  destruct entityAttrs as [| a own] eqn:E.
  - cbn [nl_width nl_height]. split; [apply Qle_refl |].
    split; [apply Qle_refl |]. intros H. contradiction.
  - set (r := estimateAttributeRadii Math_PI entity (a :: own)).
    cbn [nl_width nl_height].
    pose proof (Q.le_max_l (EREntity.width entity / 2)
                  (radiusX r + maxRx r)) as Wl.
    pose proof (Q.le_max_l (EREntity.height entity / 2)
                  (radiusY r + maxRy r)) as Hl.
    pose proof (Q.le_max_r (EREntity.width entity / 2)
                  (radiusX r + maxRx r)) as Wr.
    pose proof (Q.le_max_r (EREntity.height entity / 2)
                  (radiusY r + maxRy r)) as Hr.
    assert (W2 : EREntity.width entity == 2 * (EREntity.width entity / 2))
      by field.
    assert (H2 : EREntity.height entity == 2 * (EREntity.height entity / 2))
      by field.
    split; [lra |]. split; [lra |]. intros _.
    split; [reflexivity |]. split; [reflexivity |].
    destruct (js_max_spread_bounds (map ERAttribute.rx (a :: own)) 30)
      as [_ Hrx].
    destruct (js_max_spread_bounds (map ERAttribute.ry (a :: own)) 20)
      as [_ Hry].
    rewrite Forall_map in Hrx, Hry.
    rewrite Forall_forall in Hrx, Hry. apply Forall_forall. intros b Hb.
    specialize (Hrx b Hb). specialize (Hry b Hb).
    change (radiusX r) with (fst base) in Wr.
    change (radiusY r) with (snd base) in Hr.
    change (maxRx r)
      with (js_max_spread (map ERAttribute.rx (a :: own)) 30) in Wr.
    change (maxRy r)
      with (js_max_spread (map ERAttribute.ry (a :: own)) 20) in Hr.
    set (hw := Qmax (EREntity.width entity / 2) _) in *.
    set (hh := Qmax (EREntity.height entity / 2) _) in *.
    assert (Ew : hw * 2 / 2 == hw) by field.
    assert (Eh : hh * 2 / 2 == hh) by field.
    split; lra.
Qed.

End RingMore.

(** ** Arranging attributes, continued *)

Section ArrangeMore.

Variable Math_PI : Q.
Variable Math_cos : Q -> Q.
Variable Math_sin : Q -> Q.

Lemma placeOnRing_frame (ring : Ring) (entityId : string) (i : nat)
    (attrs : list ERAttribute.t) :
  Forall2
    (fun a a' =>
       if String.eqb (ERAttribute.entityId a) entityId
       then eraseAttribute a' = eraseAttribute a
       else a' = a)
    attrs (placeOnRing Math_cos Math_sin ring entityId i attrs).
Proof.
  revert i. induction attrs as [| a attrs IH]; intros i; cbn [placeOnRing].
  - constructor.
  - destruct (String.eqb (ERAttribute.entityId a) entityId) eqn:E;
      constructor; try apply IH; rewrite E; reflexivity.
Qed.

Lemma placeOnRing_positions (ring : Ring) (entityId : string) (i : nat)
    (attrs : list ERAttribute.t) :
  map (fun a => (ERAttribute.x a, ERAttribute.y a))
    (attributesOf entityId
       (placeOnRing Math_cos Math_sin ring entityId i attrs))
  = map (ringPoint Math_cos Math_sin ring)
      (seq i (List.length (attributesOf entityId attrs))).
Proof.
  revert i. induction attrs as [| a attrs IH]; intros i; [reflexivity |].
  cbn [placeOnRing attributesOf filter].
  destruct (String.eqb (ERAttribute.entityId a) entityId) eqn:E.
  - cbn [filter attributeMoveTo ERAttribute.entityId]. rewrite E.
    cbn [map List.length seq]. f_equal. apply IH.
  - cbn [filter]. rewrite E. apply IH.
Qed.

(** X4. [arrangeAttributes] does nothing when the entity is not found or
    owns no attribute.  Otherwise it moves the attributes of that entity and
    nothing else: every other attribute is left as it is, the owned ones
    keep all but their position, and the owned attribute of index [i] is put
    at the angle [start] plus [i] times [2 PI / n] on the ring around the
    entity's centre. *)
Theorem arrangeAttributes_places_evenly
    (es : list EREntity.t) (entityId : string) (attrs : list ERAttribute.t) :
  let arranged := arrangeAttrs Math_PI Math_cos Math_sin es entityId attrs in
  (findEntity entityId es = None \/ attributesOf entityId attrs = [] ->
   arranged = attrs) /\
  (forall entity,
      findEntity entityId es = Some entity ->
      attributesOf entityId attrs <> [] ->
      let ring :=
        attributeRing Math_PI entityId es entity
          (attributesOf entityId attrs) in
      let n := List.length (attributesOf entityId attrs) in
      Forall2
        (fun a a' =>
           if String.eqb (ERAttribute.entityId a) entityId
           then eraseAttribute a' = eraseAttribute a
           else a' = a)
        attrs arranged /\
      map (fun a => (ERAttribute.x a, ERAttribute.y a))
        (attributesOf entityId arranged)
      = map (ringPoint Math_cos Math_sin ring) (seq 0 n) /\
      ring_cx ring = px (entityCenter entity) /\
      ring_cy ring = py (entityCenter entity) /\
      ring_step ring = 2 * Math_PI / ofNat n).
Proof.
  intros arranged. subst arranged. split.
  - unfold arrangeAttrs. intros [H | H].
    + rewrite H. reflexivity.
    + rewrite H. destruct (findEntity entityId es); reflexivity.
  - intros entity Hfind Hown. cbv zeta. unfold arrangeAttrs. rewrite Hfind.
    destruct (attributesOf entityId attrs) as [| a own] eqn:E;
      [contradiction |].
    split; [apply placeOnRing_frame |].
    split; [| repeat split; reflexivity].
    rewrite placeOnRing_positions, E. reflexivity.
Qed.

(** ** Automatic layout, continued *)

Lemma autoLayout_erased
    (dagre : option (Graph -> option (string -> Q * Q))) (m : Model) :
  erasePositions (autoLayout Math_PI Math_cos Math_sin dagre m)
  = erasePositions m.
Proof.
  unfold autoLayout.
  destruct (entities m) as [| e0 es0] eqn:He; [reflexivity |].
  destruct dagre as [layout |]; [| reflexivity].
  destruct (layout (layoutGraph Math_PI m)) as [position |]; [| reflexivity].
  rewrite <- He.
  unfold erasePositions. cbn [entities attributes relationships].
  f_equal.
  - apply applyPositions_erased.
  - apply arrangeAll_erased.
  - rewrite map_map. apply map_ext. intros r. apply placeRelationship_erased.
Qed.

(** X6. [autoLayout] changes positions only: identities, names, sizes,
    owners, relationship ends and the order of the three arrays are as
    before.  Without entities, without the dagre library, or when
    [dagre.layout] throws, it changes nothing at all. *)
Theorem autoLayout_changes_positions_only
    (dagre : option (Graph -> option (string -> Q * Q))) (m : Model) :
  erasePositions (autoLayout Math_PI Math_cos Math_sin dagre m)
  = erasePositions m /\
  (entities m = [] ->
   autoLayout Math_PI Math_cos Math_sin dagre m = m) /\
  (dagre = None -> autoLayout Math_PI Math_cos Math_sin dagre m = m) /\
  (forall layout,
      dagre = Some layout -> layout (layoutGraph Math_PI m) = None ->
      autoLayout Math_PI Math_cos Math_sin dagre m = m).
Proof.
  split; [apply autoLayout_erased |]. unfold autoLayout. repeat split.
  - intros ->. reflexivity.
  - intros ->. destruct (entities m); reflexivity.
  - intros layout -> ->. destruct (entities m); reflexivity.
Qed.

End ArrangeMore.

(** *** Entities are centred on their nodes *)

Lemma map_unchanged {A : Type} (f : A -> A) (l : list A) :
  (forall a, In a l -> f a = a) -> map f l = l.
Proof.
  induction l as [| a l IH]; intros H; [reflexivity |].
  cbn. rewrite (H a (or_introl eq_refl)). f_equal.
  apply IH. intros b Hb. apply H. right. exact Hb.
Qed.

Lemma centerEntityAt_distinct (nodeId : string) (node : Q * Q)
    (es : list EREntity.t) :
  distinct (map EREntity.id es) = true ->
  centerEntityAt nodeId node es
  = map (fun e =>
           if String.eqb (EREntity.id e) nodeId
           then entityMoveTo e (fst node - EREntity.width e / 2)
                               (snd node - EREntity.height e / 2)
           else e)
      es.
Proof.
  induction es as [| e es IH]; intros Hd; [reflexivity |].
  cbn [map distinct] in Hd. apply andb_prop in Hd. destruct Hd as [Hnew Hd].
  apply negb_true_iff in Hnew. apply existsb_eqb_false in Hnew.
  cbn [centerEntityAt map].
  destruct (String.eqb (EREntity.id e) nodeId) eqn:E.
  - f_equal. symmetry. apply map_unchanged. intros e' He'.
    destruct (String.eqb (EREntity.id e') nodeId) eqn:E'; [| reflexivity].
    exfalso. apply Hnew. apply String.eqb_eq in E. apply String.eqb_eq in E'.
    rewrite E, <- E'. apply in_map. exact He'.
  - f_equal. apply IH. exact Hd.
Qed.

Lemma centerEntityAt_ids (nodeId : string) (node : Q * Q)
    (es : list EREntity.t) :
  map EREntity.id (centerEntityAt nodeId node es) = map EREntity.id es.
Proof.
  induction es as [| e es IH]; [reflexivity |].
  cbn [centerEntityAt].
  destruct (String.eqb (EREntity.id e) nodeId); cbn [map].
  - reflexivity.
  - rewrite IH. reflexivity.
Qed.

Lemma applyPositions_distinct (position : string -> Q * Q)
    (nodes : list (string * option NodeLabel)) (es : list EREntity.t) :
  distinct (map EREntity.id es) = true ->
  applyPositions position nodes es
  = map (fun e => if hasLabel (EREntity.id e) nodes
                  then centredOn position e else e)
      es.
Proof.
  unfold applyPositions. revert es.
  induction nodes as [| [n [l |]] nodes IH]; intros es Hd; cbn [fold_left].
  - cbn. symmetry. apply map_unchanged. reflexivity.
  - cbn [fst snd]. rewrite IH by (rewrite centerEntityAt_ids; exact Hd).
    rewrite (centerEntityAt_distinct _ _ _ Hd), map_map.
    apply map_ext. intros e. unfold hasLabel. cbn [existsb fst snd].
    rewrite andb_true_r, (String.eqb_sym n).
    destruct (String.eqb (EREntity.id e) n) eqn:E.
    + apply String.eqb_eq in E. subst n. cbn [orb].
      change (EREntity.id (entityMoveTo e _ _)) with (EREntity.id e).
      destruct (existsb _ nodes); reflexivity.
    + reflexivity.
  - cbn [fst snd]. rewrite IH by exact Hd.
    apply map_ext. intros e. unfold hasLabel. cbn [existsb fst snd].
    rewrite andb_false_r. reflexivity.
Qed.

Lemma hasLabel_setNodeLabel (v u : string) (label : NodeLabel)
    (nodes : list (string * option NodeLabel)) :
  hasLabel u (setNodeLabel v (Some label) nodes)
  = String.eqb v u || hasLabel u nodes.
Proof.
  induction nodes as [| [w l] nodes IH].
  - cbn. rewrite andb_true_r, orb_false_r. reflexivity.
  - cbn [setNodeLabel].
    destruct (String.eqb w v) eqn:E.
    + apply String.eqb_eq in E. subst w. unfold hasLabel.
      cbn [existsb fst snd]. rewrite andb_true_r.
      destruct (String.eqb v u); [reflexivity |]. reflexivity.
    + unfold hasLabel in *. cbn [existsb fst snd]. rewrite IH.
      destruct (String.eqb w u && _); [| reflexivity].
      cbn. apply eq_sym, orb_true_r.
Qed.

Lemma hasLabel_ensureNode (v u : string)
    (nodes : list (string * option NodeLabel)) :
  hasLabel u (ensureNode v nodes) = hasLabel u nodes.
Proof.
  unfold ensureNode. destruct (existsb _ nodes); [reflexivity |].
  unfold hasLabel. rewrite existsb_app. cbn [existsb fst snd].
  rewrite andb_false_r, !orb_false_r. reflexivity.
Qed.

Section CentredEntities.

Variable Math_PI : Q.
Variable Math_cos : Q -> Q.
Variable Math_sin : Q -> Q.

Lemma layoutGraph_nodes_labelled (m : Model) (entity : EREntity.t) :
  In entity (entities m) ->
  hasLabel (EREntity.id entity) (g_nodes (layoutGraph Math_PI m)) = true.
Proof.
  intros Hin. unfold layoutGraph.
  assert (Hnodes :
            forall es g,
              In entity es \/
              hasLabel (EREntity.id entity) (g_nodes g) = true ->
              hasLabel (EREntity.id entity)
                (g_nodes
                   (fold_left
                      (fun g e =>
                         setNode (EREntity.id e)
                           (layoutNode Math_PI (attributes m) e) g)
                      es g)) = true).
  { induction es as [| e es IH]; intros g H; cbn [fold_left].
    - destruct H as [[] | H]. exact H.
    - apply IH. unfold setNode. cbn [g_nodes].
      rewrite hasLabel_setNodeLabel.
      destruct H as [[-> | H] | H].
      + right. rewrite String.eqb_refl. reflexivity.
      + left. exact H.
      + right. rewrite H. apply orb_true_r. }
  assert (Hedges :
            forall rs g,
              hasLabel (EREntity.id entity) (g_nodes g) = true ->
              hasLabel (EREntity.id entity)
                (g_nodes
                   (fold_left
                      (fun g rel =>
                         setEdge (ERRelationship.fromEntityId rel)
                           (ERRelationship.toEntityId rel)
                           (mkEdgeLabel (ERRelationship.displayName rel) 1)
                           g)
                      rs g)) = true).
  { induction rs as [| r rs IH]; intros g H; cbn [fold_left]; [exact H |].
    apply IH. unfold setEdge. cbn [g_nodes].
    rewrite !hasLabel_ensureNode. exact H. }
  apply Hedges. apply Hnodes. left. exact Hin.
Qed.

(** X7. When the entity ids are distinct and [dagre.layout] returns, after
    [autoLayout] every entity has its centre at the point dagre gave the
    node of its id, and has changed in nothing but its position. *)
Theorem autoLayout_centres_entities
    (layout : Graph -> option (string -> Q * Q))
    (position : string -> Q * Q) (m : Model) :
  distinct (map EREntity.id (entities m)) = true ->
  layout (layoutGraph Math_PI m) = Some position ->
  let laidOut := autoLayout Math_PI Math_cos Math_sin (Some layout) m in
  entities laidOut = map (centredOn position) (entities m) /\
  Forall
    (fun e =>
       px (entityCenter e) == fst (position (EREntity.id e)) /\
       py (entityCenter e) == snd (position (EREntity.id e)))
    (entities laidOut).
Proof.
  intros Hd Hl laidOut. subst laidOut.
  assert (Hes : entities (autoLayout Math_PI Math_cos Math_sin
                            (Some layout) m)
                = map (centredOn position) (entities m)).
  { unfold autoLayout. rewrite Hl.
    destruct (entities m) as [| e0 es0] eqn:He; [exact He |].
    cbn [entities]. rewrite <- He in *.
    rewrite applyPositions_distinct by exact Hd.
    apply map_ext_in. intros e Hin.
    rewrite (layoutGraph_nodes_labelled m e Hin). reflexivity. }
  split; [exact Hes |].
  rewrite Hes. apply Forall_forall. intros e' Hin.
  apply in_map_iff in Hin. destruct Hin as (e & <- & _).
  unfold centredOn, entityCenter. cbn. split; ring.
Qed.

End CentredEntities.

(** The sample model under the stand-in for dagre. *)
Lemma autoLayout_centres_entities_witness :
  entities (autoLayout (355 / 113) (fun _ => 0) (fun _ => 1) sampleDagre
              companyModel)
  = [centredOn (fun nodeId => if String.eqb nodeId "entity_1"
                              then (200, 100) else (200, 400)) department;
     centredOn (fun nodeId => if String.eqb nodeId "entity_1"
                              then (200, 100) else (200, 400)) employee].
Proof.
  exact (proj1 (autoLayout_centres_entities (355 / 113) (fun _ => 0)
                  (fun _ => 1) _ _ companyModel eq_refl eq_refl)).
Defined.

(** ** The rendered scene *)

Lemma attributeConnection_lines (es : list EREntity.t)
    (attrs : list ERAttribute.t) :
  filter isAttributeLine (flat_map (attributeConnection es) attrs)
  = flat_map (attributeConnection es) attrs.
Proof.
  induction attrs as [| a attrs IH]; [reflexivity |].
  cbn [flat_map]. rewrite filter_app, IH. f_equal.
  unfold attributeConnection.
  destruct (findEntity (ERAttribute.entityId a) es); reflexivity.
Qed.

Lemma relationshipConnection_lines (es : list EREntity.t)
    (rels : list ERRelationship.t) :
  filter isAttributeLine (flat_map (relationshipConnection es) rels) = [].
Proof.
  induction rels as [| r rels IH]; [reflexivity |].
  cbn [flat_map]. rewrite filter_app, IH, app_nil_r.
  unfold relationshipConnection.
  destruct (findEntity (ERRelationship.fromEntityId r) es);
    [| reflexivity].
  destruct (findEntity (ERRelationship.toEntityId r) es); [| reflexivity].
  destruct (typeSymbols (ERRelationship.type r)).
  case_tests; reflexivity.
Qed.

(** X8. [toggleRelationships] flips the flag, and a second call gives back
    the first scene.  With the relationships hidden the scene has no
    relationship diamond and no cardinality label, its connectors are
    exactly the entity-attribute lines of the full scene, and the entities
    and attributes are drawn as before. *)
Theorem toggleRelationships_hides_relationships
    (showRelationships : bool) (m : Model) :
  fst (toggleRelationships showRelationships m) = negb showRelationships /\
  toggleRelationships (fst (toggleRelationships showRelationships m)) m
  = (showRelationships, renderDiagram showRelationships m) /\
  relationshipGroups (renderDiagram false m) = [] /\
  labelTexts (connections (renderDiagram false m)) = [] /\
  connections (renderDiagram false m)
  = filter isAttributeLine (connections (renderDiagram true m)) /\
  entityGroups (renderDiagram false m)
  = entityGroups (renderDiagram true m) /\
  attributeGroups (renderDiagram false m)
  = attributeGroups (renderDiagram true m).
Proof.
  unfold toggleRelationships, renderDiagram, updateConnections.
  cbn [fst connections relationshipGroups entityGroups attributeGroups].
  rewrite negb_involutive, app_nil_r, filter_app.
  rewrite attributeConnection_lines, relationshipConnection_lines, app_nil_r.
  repeat split. apply attributeConnection_no_label.
Qed.

(** X9. For a relationship whose two entities are found,
    [updateConnections] draws two lines and then, for each of the two lines,
    a label background of 20 by 18 and a label text.  The first line ends
    and the second starts on two opposite corners of the diamond, so that
    the relationship's position is their midpoint, and only the second line
    carries the arrow head; when the centres of the two entities are
    further apart in x than in y the corners are the left and right ones,
    otherwise the top and bottom ones. *)
Theorem relationshipConnection_opposite_corners
    (es : list EREntity.t) (rel : ERRelationship.t)
    (fromEntity toEntity : EREntity.t) :
  findEntity (ERRelationship.fromEntityId rel) es = Some fromEntity ->
  findEntity (ERRelationship.toEntityId rel) es = Some toEntity ->
  exists fromX fromY toX toY portFromX portFromY portToX portToY
         bg1X bg1Y label1X label1Y text1 bg2X bg2Y label2X label2Y text2,
    relationshipConnection es rel
    = [Line "connection entity-rel-line" portFromX portFromY
         (Some fromX) (Some fromY) false;
       Line "connection entity-rel-line" (Some toX) (Some toY)
         portToX portToY true;
       LabelRect bg1X bg1Y 20 18;
       LabelText label1X label1Y text1;
       LabelRect bg2X bg2Y 20 18;
       LabelText label2X label2Y text2] /\
    (fromX + toX) / 2 == ERRelationship.x rel /\
    (fromY + toY) / 2 == ERRelationship.y rel /\
    (Qabs (py (entityCenter fromEntity) - py (entityCenter toEntity))
     < Qabs (px (entityCenter fromEntity) - px (entityCenter toEntity)) ->
     fromY = ERRelationship.y rel /\ toY = ERRelationship.y rel /\
     Qabs (fromX - toX) == Qabs (ERRelationship.width rel)) /\
    (Qabs (px (entityCenter fromEntity) - px (entityCenter toEntity))
     <= Qabs (py (entityCenter fromEntity) - py (entityCenter toEntity)) ->
     fromX = ERRelationship.x rel /\ toX = ERRelationship.x rel /\
     Qabs (fromY - toY) == Qabs (ERRelationship.height rel)).
Proof.
  intros Hf Ht. unfold relationshipConnection. rewrite Hf, Ht.
  unfold entityCenter. cbn [px py].
  destruct (typeSymbols (ERRelationship.type rel)) as [symFrom symTo].
  set (w := ERRelationship.width rel). set (h := ERRelationship.height rel).
  assert (Hw : forall x, Qabs (x - w / 2 - (x + w / 2)) == Qabs w).
  { intros x. rewrite <- (Qabs_opp w). apply Qabs_wd. field. }
  assert (Hw' : forall x, Qabs (x + w / 2 - (x - w / 2)) == Qabs w).
  { intros x. apply Qabs_wd. field. }
  assert (Hh : forall y, Qabs (y - h / 2 - (y + h / 2)) == Qabs h).
  { intros y. rewrite <- (Qabs_opp h). apply Qabs_wd. field. }
  assert (Hh' : forall y, Qabs (y + h / 2 - (y - h / 2)) == Qabs h).
  { intros y. apply Qabs_wd. field. }
  destruct (Qlt_le_dec _ _) as [Hxy | Hxy];
    destruct (Qlt_le_dec _ _) as [Hdir | Hdir];
    cbn [px py];
    do 18 eexists;
    (split; [reflexivity |]);
    (split; [field |]);
    (split; [field |]);
    (split; intros Hcase);
    try (exfalso; lra);
    repeat split; auto.
Qed.

(** The relationship of the sample model, between Employee and
    Department. *)
Lemma relationshipConnection_opposite_corners_witness :
  exists fromX fromY toX toY portFromX portFromY portToX portToY
         bg1X bg1Y label1X label1Y text1 bg2X bg2Y label2X label2Y text2,
    relationshipConnection [department; employee] belongs_to
    = [Line "connection entity-rel-line" portFromX portFromY
         (Some fromX) (Some fromY) false;
       Line "connection entity-rel-line" (Some toX) (Some toY)
         portToX portToY true;
       LabelRect bg1X bg1Y 20 18;
       LabelText label1X label1Y text1;
       LabelRect bg2X bg2Y 20 18;
       LabelText label2X label2Y text2] /\
    (fromX + toX) / 2 == ERRelationship.x belongs_to /\
    (fromY + toY) / 2 == ERRelationship.y belongs_to.
Proof.
  destruct (relationshipConnection_opposite_corners
              [department; employee] belongs_to employee department
              eq_refl eq_refl)
    as (fromX & fromY & toX & toY & p1 & p2 & p3 & p4
        & b1 & b2 & l1 & l2 & t1 & b3 & b4 & l3 & l4 & t2
        & H1 & H2 & H3 & _).
  exists fromX, fromY, toX, toY, p1, p2, p3, p4,
    b1, b2, l1, l2, t1, b3, b4, l3, l4, t2.
  auto.
Defined.

(** ** Replacing one element of an array *)

Lemma nth_error_replaceNth_other {A : Type} (k j : nat) (v : A)
    (l : list A) :
  j <> k -> nth_error (replaceNth k v l) j = nth_error l j.
Proof.
  revert k j. induction l as [| a l IH]; intros [| k] [| j] H; cbn;
    try reflexivity; try contradiction.
  apply IH. intros ->. apply H. reflexivity.
Qed.

Lemma map_replaceNth_same {A B : Type} (f : A -> B) (k : nat) (v a : A)
    (l : list A) :
  nth_error l k = Some a -> f v = f a ->
  map f (replaceNth k v l) = map f l.
Proof.
  revert k. induction l as [| b l IH]; intros [| k] H Hf; cbn in *;
    try discriminate.
  - injection H as ->. rewrite Hf. reflexivity.
  - rewrite (IH k H Hf). reflexivity.
Qed.

Lemma forallb_replaceNth {A : Type} (p : A -> bool) (k : nat) (v : A)
    (l : list A) :
  forallb p l = true -> p v = true -> forallb p (replaceNth k v l) = true.
Proof.
  revert k. induction l as [| b l IH]; intros [| k] H Hv; cbn in *;
    try reflexivity.
  - apply andb_prop in H. destruct H as [_ H]. rewrite Hv, H. reflexivity.
  - apply andb_prop in H. destruct H as [Hb H].
    rewrite Hb, (IH k H Hv). reflexivity.
Qed.

Lemma forallb_nth_error {A : Type} (p : A -> bool) (k : nat) (a : A)
    (l : list A) :
  forallb p l = true -> nth_error l k = Some a -> p a = true.
Proof.
  intros H Hk. rewrite forallb_forall in H. apply H.
  apply nth_error_In with k. exact Hk.
Qed.

(** What [ownedInOrder] reads: the ids of the entities and the owners of
    the attributes. *)
Lemma dropOwned_owners (id : string) (attrs attrs' : list ERAttribute.t) :
  map ERAttribute.entityId attrs = map ERAttribute.entityId attrs' ->
  map ERAttribute.entityId (dropOwned id attrs)
  = map ERAttribute.entityId (dropOwned id attrs').
Proof.
  revert attrs'. induction attrs as [| a attrs IH]; intros [| a' attrs'] H;
    cbn in H; try discriminate; [reflexivity |].
  injection H as Ha H. cbn [dropOwned]. rewrite <- Ha.
  destruct (String.eqb (ERAttribute.entityId a) id).
  - apply IH. exact H.
  - cbn. rewrite Ha, H. reflexivity.
Qed.

Lemma ownedInOrder_reads (es es' : list EREntity.t)
    (attrs attrs' : list ERAttribute.t) :
  map EREntity.id es = map EREntity.id es' ->
  map ERAttribute.entityId attrs = map ERAttribute.entityId attrs' ->
  ownedInOrder es attrs = ownedInOrder es' attrs'.
Proof.
  revert es' attrs attrs'.
  induction es as [| e es IH]; intros [| e' es'] attrs attrs' He Ha;
    cbn in He; try discriminate.
  - destruct attrs, attrs'; cbn in Ha; try discriminate; reflexivity.
  - injection He as Hid He. cbn [ownedInOrder]. rewrite <- Hid.
    apply IH; [exact He |]. apply dropOwned_owners. exact Ha.
Qed.

(** A model is well formed when one that agrees with it on the ids, the
    owners and the names is. *)
Lemma wellFormed_renamed (m m' : Model) :
  map EREntity.id (entities m') = map EREntity.id (entities m) ->
  map ERAttribute.entityId (attributes m')
  = map ERAttribute.entityId (attributes m) ->
  (forallb (fun e => displayNameKept (EREntity.name e)
                       (EREntity.displayName e)) (entities m) = true ->
   forallb (fun e => displayNameKept (EREntity.name e)
                       (EREntity.displayName e)) (entities m') = true) ->
  (forallb (fun a => displayNameKept (ERAttribute.name a)
                       (ERAttribute.displayName a)) (attributes m) = true ->
   forallb (fun a => displayNameKept (ERAttribute.name a)
                       (ERAttribute.displayName a)) (attributes m') = true) ->
  (forallb (fun r => displayNameKept (ERRelationship.name r)
                       (ERRelationship.displayName r)) (relationships m)
   = true ->
   forallb (fun r => displayNameKept (ERRelationship.name r)
                       (ERRelationship.displayName r)) (relationships m')
   = true) ->
  wellFormed m = true -> wellFormed m' = true.
Proof.
  intros Hid Hown He Ha Hr. unfold wellFormed.
  rewrite Hid, (ownedInOrder_reads _ _ _ _ Hid Hown).
  intros H. repeat (apply andb_prop in H; destruct H as [H ?]).
  rewrite H, H3, He, Ha, Hr by assumption. reflexivity.
Qed.

Lemma displayNameKept_nonempty (name newValue : string) :
  newValue <> "" -> displayNameKept name newValue = true.
Proof.
  intros H. unfold displayNameKept. apply String.eqb_neq in H.
  rewrite H. reflexivity.
Qed.

Lemma handleSave_commits_iff (newValue currentText : string) :
  handleSave_commits newValue currentText = true
  <-> newValue <> "" /\ newValue <> currentText.
Proof.
  unfold handleSave_commits.
  rewrite andb_true_iff, !negb_true_iff, !String.eqb_neq. reflexivity.
Qed.

(** ** Inline editing *)

Section InlineEdit.

Variable measureTextWidth : string -> Q -> string -> string -> Q.
Variable fontSizes : FontSizes.

(** X10. Saving the inline editor of an entity with the empty text, or with
    the text already shown, changes nothing.  Any other text becomes the
    display name of that entity, whose width becomes the clamped text width,
    between 80 and 300; its id, name, position and height, every other
    entity, the attributes and the relationships stay as they are, and a
    well-formed model stays well formed. *)
Theorem editEntityName_renames_one
    (k : nat) (newValue : string) (m : Model) (entityData : EREntity.t) :
  nth_error (entities m) k = Some entityData ->
  exists m',
    editEntityName measureTextWidth fontSizes k newValue m = Some m' /\
    (newValue = "" \/ newValue = EREntity.displayName entityData ->
     m' = m) /\
    (newValue <> "" -> newValue <> EREntity.displayName entityData ->
     exists renamed,
       nth_error (entities m') k = Some renamed /\
       EREntity.displayName renamed = newValue /\
       80 <= EREntity.width renamed <= 300 /\
       EREntity.width renamed
       = calculateEntityWidth measureTextWidth fontSizes newValue /\
       EREntity.id renamed = EREntity.id entityData /\
       EREntity.name renamed = EREntity.name entityData /\
       EREntity.x renamed = EREntity.x entityData /\
       EREntity.y renamed = EREntity.y entityData /\
       EREntity.height renamed = EREntity.height entityData) /\
    (forall j, j <> k ->
               nth_error (entities m') j = nth_error (entities m) j) /\
    attributes m' = attributes m /\
    relationships m' = relationships m /\
    (wellFormed m = true -> wellFormed m' = true).
Proof.
  intros Hk. unfold editEntityName. rewrite Hk.
  destruct (handleSave_commits newValue (EREntity.displayName entityData))
    eqn:Hc.
  - apply handleSave_commits_iff in Hc. destruct Hc as [Hne Hnew].
    eexists. split; [reflexivity |]. cbn [entities attributes relationships].
    split; [intros [H | H]; contradiction |].
    split; [| split; [| split; [reflexivity | split; [reflexivity |]]]].
    + intros _ _. eexists. split; [apply nth_error_replaceNth with entityData;
                                   exact Hk |].
      cbn. repeat split; try reflexivity;
        apply (clamp_bounds 80 300); discriminate.
    + intros j Hj. apply nth_error_replaceNth_other. exact Hj.
    + apply wellFormed_renamed; cbn [entities attributes relationships];
        auto.
      * apply map_replaceNth_same with entityData; [exact Hk | reflexivity].
      * intros H. apply forallb_replaceNth; [exact H |].
        apply displayNameKept_nonempty. exact Hne.
  - exists m. split; [reflexivity |]. repeat split; auto.
    intros Hne Hnew. exfalso.
    assert (H : handleSave_commits newValue
                  (EREntity.displayName entityData) = true)
      by (apply handleSave_commits_iff; split; assumption).
    rewrite H in Hc. discriminate.
Qed.

(** X11. Saving the inline editor of an attribute or of a relationship
    changes nothing for the empty text or the text already shown.  Any other
    text becomes the display name of that one element and sets its width to
    the clamped text width of the new text ([calculateAttributeWidth] for an
    attribute's [rx], between 40 and 150, [calculateRelationshipWidth] for
    a relationship's width, between 50 and 200); positions, owners, ends and
    every other element are untouched, and a well-formed model stays well
    formed. *)
Theorem editAttributeName_editRelationshipName_rename_one
    (k : nat) (newValue : string) (m : Model) :
  (forall attributeData,
      nth_error (attributes m) k = Some attributeData ->
      exists m',
        editAttributeName measureTextWidth fontSizes k newValue m
        = Some m' /\
        (newValue = "" \/ newValue = ERAttribute.displayName attributeData ->
         m' = m) /\
        (newValue <> "" ->
         newValue <> ERAttribute.displayName attributeData ->
         exists renamed,
           nth_error (attributes m') k = Some renamed /\
           ERAttribute.displayName renamed = newValue /\
           ERAttribute.rx renamed
           = calculateAttributeWidth measureTextWidth fontSizes newValue /\
           40 <= ERAttribute.rx renamed <= 150 /\
           ERAttribute.id renamed = ERAttribute.id attributeData /\
           ERAttribute.name renamed = ERAttribute.name attributeData /\
           ERAttribute.x renamed = ERAttribute.x attributeData /\
           ERAttribute.y renamed = ERAttribute.y attributeData /\
           ERAttribute.entityId renamed
           = ERAttribute.entityId attributeData /\
           ERAttribute.ry renamed = ERAttribute.ry attributeData) /\
        (forall j, j <> k ->
                   nth_error (attributes m') j = nth_error (attributes m) j)
        /\
        entities m' = entities m /\
        relationships m' = relationships m /\
        (wellFormed m = true -> wellFormed m' = true)) /\
  (forall relationshipData,
      nth_error (relationships m) k = Some relationshipData ->
      exists m',
        editRelationshipName measureTextWidth fontSizes k newValue m
        = Some m' /\
        (newValue = "" \/
         newValue = ERRelationship.displayName relationshipData ->
         m' = m) /\
        (newValue <> "" ->
         newValue <> ERRelationship.displayName relationshipData ->
         exists renamed,
           nth_error (relationships m') k = Some renamed /\
           ERRelationship.displayName renamed = newValue /\
           ERRelationship.width renamed
           = calculateRelationshipWidth measureTextWidth fontSizes newValue
           /\
           50 <= ERRelationship.width renamed <= 200 /\
           ERRelationship.x renamed = ERRelationship.x relationshipData /\
           ERRelationship.y renamed = ERRelationship.y relationshipData /\
           ERRelationship.fromEntityId renamed
           = ERRelationship.fromEntityId relationshipData /\
           ERRelationship.toEntityId renamed
           = ERRelationship.toEntityId relationshipData /\
           ERRelationship.type renamed
           = ERRelationship.type relationshipData /\
           ERRelationship.height renamed
           = ERRelationship.height relationshipData) /\
        (forall j, j <> k ->
                   nth_error (relationships m') j
                   = nth_error (relationships m) j) /\
        entities m' = entities m /\
        attributes m' = attributes m /\
        (wellFormed m = true -> wellFormed m' = true)).
Proof.
  split.
  - intros attributeData Hk. unfold editAttributeName. rewrite Hk.
    destruct (handleSave_commits newValue
                (ERAttribute.displayName attributeData)) eqn:Hc.
    + apply handleSave_commits_iff in Hc. destruct Hc as [Hne Hnew].
      eexists. split; [reflexivity |].
      cbn [entities attributes relationships].
      split; [intros [H | H]; contradiction |].
      split; [| split; [| split; [reflexivity | split; [reflexivity |]]]].
      * intros _ _. eexists.
        split; [apply nth_error_replaceNth with attributeData; exact Hk |].
        cbn. repeat split; try reflexivity;
          apply (clamp_bounds 40 150); discriminate.
      * intros j Hj. apply nth_error_replaceNth_other. exact Hj.
      * apply wellFormed_renamed; cbn [entities attributes relationships];
          auto.
        -- apply map_replaceNth_same with attributeData;
             [exact Hk | reflexivity].
        -- intros H. apply forallb_replaceNth; [exact H |].
           apply displayNameKept_nonempty. exact Hne.
    + exists m. split; [reflexivity |]. repeat split; auto.
      intros Hne Hnew. exfalso.
      assert (H : handleSave_commits newValue
                    (ERAttribute.displayName attributeData) = true)
        by (apply handleSave_commits_iff; split; assumption).
      rewrite H in Hc. discriminate.
  - intros relationshipData Hk. unfold editRelationshipName. rewrite Hk.
    destruct (handleSave_commits newValue
                (ERRelationship.displayName relationshipData)) eqn:Hc.
    + apply handleSave_commits_iff in Hc. destruct Hc as [Hne Hnew].
      eexists. split; [reflexivity |].
      cbn [entities attributes relationships].
      split; [intros [H | H]; contradiction |].
      split; [| split; [| split; [reflexivity | split; [reflexivity |]]]].
      * intros _ _. eexists.
        split; [apply nth_error_replaceNth with relationshipData;
                exact Hk |].
        cbn. repeat split; try reflexivity;
          apply (clamp_bounds 50 200); discriminate.
      * intros j Hj. apply nth_error_replaceNth_other. exact Hj.
      * apply wellFormed_renamed; cbn [entities attributes relationships];
          auto.
        intros H. apply forallb_replaceNth; [exact H |].
        apply displayNameKept_nonempty. exact Hne.
    + exists m. split; [reflexivity |]. repeat split; auto.
      intros Hne Hnew. exfalso.
      assert (H : handleSave_commits newValue
                    (ERRelationship.displayName relationshipData) = true)
        by (apply handleSave_commits_iff; split; assumption).
      rewrite H in Hc. discriminate.
Qed.

End InlineEdit.

(** Renaming Employee to Staff in the sample model. *)
Lemma editEntityName_renames_one_witness :
  exists m',
    editEntityName sampleMeasure sampleFonts 1 "Staff" companyModel
    = Some m' /\
    attributes m' = attributes companyModel /\
    relationships m' = relationships companyModel /\
    wellFormed m' = true.
Proof.
  destruct (editEntityName_renames_one sampleMeasure sampleFonts 1 "Staff"
              companyModel employee eq_refl)
    as (m' & H1 & _ & _ & _ & H2 & H3 & H4).
  exists m'. repeat split; auto.
Defined.

(** ** The size settings *)

Lemma parsedOr_nonzero (parsed : option Z) (fallback : Q) :
  ~ fallback == 0 -> ~ parsedOr parsed fallback == 0.
Proof.
  intros Hf. unfold parsedOr. destruct parsed as [z |]; [| exact Hf].
  destruct (Z.eqb z 0) eqn:E; [exact Hf |].
  apply Z.eqb_neq in E. intros H. apply E.
  unfold Qeq in H. cbn in H. lia.
Qed.

Section SizeSettings.

Variable measureTextWidth : string -> Q -> string -> string -> Q.
Variable fontSizes : FontSizes.

Lemma updateEntitySize_frame (widthInput heightInput : option Z)
    (sizes : DefaultSizes) (m : Model) :
  map withoutEntitySize
    (entities (snd (updateEntitySize measureTextWidth fontSizes
                      widthInput heightInput (sizes, m))))
  = map withoutEntitySize (entities m).
Proof.
  cbn. rewrite map_map. apply map_ext. reflexivity.
Qed.

Lemma updateAttributeSize_frame (rxInput ryInput : option Z)
    (sizes : DefaultSizes) (m : Model) :
  map withoutAttributeSize
    (attributes (snd (updateAttributeSize measureTextWidth fontSizes
                        rxInput ryInput (sizes, m))))
  = map withoutAttributeSize (attributes m).
Proof.
  cbn. rewrite map_map. apply map_ext. reflexivity.
Qed.

Lemma updateRelationshipSize_frame (widthInput heightInput : option Z)
    (sizes : DefaultSizes) (m : Model) :
  map withoutRelationshipSize
    (relationships (snd (updateRelationshipSize measureTextWidth fontSizes
                           widthInput heightInput (sizes, m))))
  = map withoutRelationshipSize (relationships m).
Proof.
  cbn. rewrite map_map. apply map_ext. reflexivity.
Qed.

Lemma updateEntitySize_floor (widthInput heightInput : option Z)
    (sizes : DefaultSizes) (m : Model) :
  Forall
    (fun e => parsedOr widthInput 120 <= EREntity.width e /\
              80 <= EREntity.width e /\
              EREntity.height e = parsedOr heightInput 60)
    (entities (snd (updateEntitySize measureTextWidth fontSizes
                      widthInput heightInput (sizes, m)))).
Proof.
  cbn [updateEntitySize snd entities]. apply Forall_map, Forall_forall.
  intros e _. cbn. repeat split.
  - apply Q.le_max_l.
  - eapply Qle_trans; [| apply Q.le_max_r].
    apply (clamp_bounds 80 300). discriminate.
Qed.

Lemma updateAttributeSize_floor (rxInput ryInput : option Z)
    (sizes : DefaultSizes) (m : Model) :
  Forall
    (fun a => parsedOr rxInput 60 <= ERAttribute.rx a /\
              40 <= ERAttribute.rx a /\
              ERAttribute.ry a = parsedOr ryInput 25)
    (attributes (snd (updateAttributeSize measureTextWidth fontSizes
                        rxInput ryInput (sizes, m)))).
Proof.
  cbn [updateAttributeSize snd attributes]. apply Forall_map, Forall_forall.
  intros a _. cbn. repeat split.
  - apply Q.le_max_l.
  - eapply Qle_trans; [| apply Q.le_max_r].
    apply (clamp_bounds 40 150). discriminate.
Qed.

Lemma updateRelationshipSize_floor (widthInput heightInput : option Z)
    (sizes : DefaultSizes) (m : Model) :
  Forall
    (fun r => parsedOr widthInput 80 <= ERRelationship.width r /\
              50 <= ERRelationship.width r /\
              ERRelationship.height r = parsedOr heightInput 50)
    (relationships (snd (updateRelationshipSize measureTextWidth fontSizes
                           widthInput heightInput (sizes, m)))).
Proof.
  cbn [updateRelationshipSize snd relationships].
  apply Forall_map, Forall_forall.
  intros r _. cbn. repeat split.
  - apply Q.le_max_l.
  - eapply Qle_trans; [| apply Q.le_max_r].
    apply (clamp_bounds 50 200). discriminate.
Qed.

(** X12. [updateEntitySize], [updateAttributeSize] and
    [updateRelationshipSize] resize the elements of their own kind and touch
    nothing else: no element is added, removed, renamed or moved.  The
    requested width is a lower bound of the new width and so is the minimum
    of the text-fitting width (80, 40 and 50), whatever number is typed; the
    requested height is taken as it is; and a blank input or a zero reads as
    the preset (120 by 60, 60 by 25, 80 by 50), so that no requested size is
    zero. *)
Theorem size_updates_keep_text_width
    (widthInput heightInput : option Z) (sizes : DefaultSizes) (m : Model) :
  let byEntity :=
    updateEntitySize measureTextWidth fontSizes widthInput heightInput
      (sizes, m) in
  let byAttribute :=
    updateAttributeSize measureTextWidth fontSizes widthInput heightInput
      (sizes, m) in
  let byRelationship :=
    updateRelationshipSize measureTextWidth fontSizes widthInput heightInput
      (sizes, m) in
  (map withoutEntitySize (entities (snd byEntity))
   = map withoutEntitySize (entities m) /\
   attributes (snd byEntity) = attributes m /\
   relationships (snd byEntity) = relationships m /\
   Forall
     (fun e => parsedOr widthInput 120 <= EREntity.width e /\
               80 <= EREntity.width e /\
               EREntity.height e = parsedOr heightInput 60)
     (entities (snd byEntity))) /\
  (entities (snd byAttribute) = entities m /\
   map withoutAttributeSize (attributes (snd byAttribute))
   = map withoutAttributeSize (attributes m) /\
   relationships (snd byAttribute) = relationships m /\
   Forall
     (fun a => parsedOr widthInput 60 <= ERAttribute.rx a /\
               40 <= ERAttribute.rx a /\
               ERAttribute.ry a = parsedOr heightInput 25)
     (attributes (snd byAttribute))) /\
  (entities (snd byRelationship) = entities m /\
   attributes (snd byRelationship) = attributes m /\
   map withoutRelationshipSize (relationships (snd byRelationship))
   = map withoutRelationshipSize (relationships m) /\
   Forall
     (fun r => parsedOr widthInput 80 <= ERRelationship.width r /\
               50 <= ERRelationship.width r /\
               ERRelationship.height r = parsedOr heightInput 50)
     (relationships (snd byRelationship))) /\
  (widthInput = None \/ widthInput = Some 0%Z ->
   ds_entity_width (fst byEntity) = 120 /\
   ds_attribute_rx (fst byAttribute) = 60 /\
   ds_relationship_width (fst byRelationship) = 80) /\
  ~ ds_entity_width (fst byEntity) == 0 /\
  ~ ds_entity_height (fst byEntity) == 0.
Proof.
  cbv zeta.
  split; [split; [apply updateEntitySize_frame |];
          split; [reflexivity |]; split; [reflexivity |];
          apply updateEntitySize_floor |].
  split; [split; [reflexivity |];
          split; [apply updateAttributeSize_frame |];
          split; [reflexivity |]; apply updateAttributeSize_floor |].
  split; [split; [reflexivity |]; split; [reflexivity |];
          split; [apply updateRelationshipSize_frame |];
          apply updateRelationshipSize_floor |].
  split.
  - intros [-> | ->]; repeat split; reflexivity.
  - split; cbn; apply parsedOr_nonzero; discriminate.
Qed.

End SizeSettings.

Lemma Forall_same_image {A B : Type} (f : A -> B) (P : B -> Prop)
    (l l' : list A) :
  map f l' = map f l -> Forall (fun a => P (f a)) l ->
  Forall (fun a => P (f a)) l'.
Proof.
  intros H Hl. apply Forall_map. rewrite H. apply Forall_map. exact Hl.
Qed.

Section UniformSize.

Variable measureTextWidth : string -> Q -> string -> string -> Q.
Variable fontSizes : FontSizes.
Variable Math_PI : Q.
Variable Math_cos : Q -> Q.
Variable Math_sin : Q -> Q.

Lemma applyUniformSize_arrays
    (inputs : SizeInputs) (sizes : DefaultSizes) (m : Model) :
  snd (applyUniformSize measureTextWidth fontSizes
         Math_PI Math_cos Math_sin inputs (sizes, m))
  = mkModel
      (entities (snd (updateEntitySize measureTextWidth fontSizes
                        (in_entity_width inputs) (in_entity_height inputs)
                        (sizes, m))))
      (arrangeAll Math_PI Math_cos Math_sin
         (entities (snd (updateEntitySize measureTextWidth fontSizes
                           (in_entity_width inputs)
                           (in_entity_height inputs) (sizes, m))))
         (attributes (snd (updateAttributeSize measureTextWidth fontSizes
                             (in_attr_width inputs) (in_attr_height inputs)
                             (sizes, m)))))
      (relationships
         (snd (updateRelationshipSize measureTextWidth fontSizes
                 (in_rel_width inputs) (in_rel_height inputs) (sizes, m)))).
Proof.
  reflexivity.
Qed.

(** X13. [applyUniformSize] keeps every element, with its id, names, owner
    and ends; entities and relationships stay where they are and only the
    attributes are moved, onto the rings of their entities, so that
    arranging once more would move nothing.  Afterwards every entity is at
    least 80 wide, every attribute has [rx] at least 40 and every
    relationship is at least 50 wide, whatever the six inputs hold; and a
    well-formed model stays well formed. *)
Theorem applyUniformSize_resizes_and_arranges
    (inputs : SizeInputs) (sizes : DefaultSizes) (m : Model) :
  let resized :=
    snd (applyUniformSize measureTextWidth fontSizes
           Math_PI Math_cos Math_sin inputs (sizes, m)) in
  map withoutEntitySize (entities resized)
  = map withoutEntitySize (entities m) /\
  map (fun a => withoutAttributeSize (eraseAttribute a)) (attributes resized)
  = map (fun a => withoutAttributeSize (eraseAttribute a)) (attributes m) /\
  map withoutRelationshipSize (relationships resized)
  = map withoutRelationshipSize (relationships m) /\
  Forall (fun e => 80 <= EREntity.width e) (entities resized) /\
  Forall (fun a => 40 <= ERAttribute.rx a) (attributes resized) /\
  Forall (fun r => 50 <= ERRelationship.width r) (relationships resized) /\
  arrangeAll Math_PI Math_cos Math_sin (entities resized)
    (attributes resized)
  = attributes resized /\
  (wellFormed m = true -> wellFormed resized = true).
Proof.
  intros resized. subst resized. rewrite applyUniformSize_arrays.
  pose proof (updateEntitySize_frame measureTextWidth fontSizes
                (in_entity_width inputs) (in_entity_height inputs) sizes m)
    as He.
  pose proof (updateEntitySize_floor measureTextWidth fontSizes
                (in_entity_width inputs) (in_entity_height inputs) sizes m)
    as Hew.
  pose proof (updateAttributeSize_frame measureTextWidth fontSizes
                (in_attr_width inputs) (in_attr_height inputs) sizes m)
    as Ha.
  pose proof (updateAttributeSize_floor measureTextWidth fontSizes
                (in_attr_width inputs) (in_attr_height inputs) sizes m)
    as Haw.
  pose proof (updateRelationshipSize_frame measureTextWidth fontSizes
                (in_rel_width inputs) (in_rel_height inputs) sizes m)
    as Hr.
  pose proof (updateRelationshipSize_floor measureTextWidth fontSizes
                (in_rel_width inputs) (in_rel_height inputs) sizes m)
    as Hrw.
  generalize dependent
    (entities (snd (updateEntitySize measureTextWidth fontSizes
                      (in_entity_width inputs) (in_entity_height inputs)
                      (sizes, m)))).
  intros es He Hew.
  generalize dependent
    (attributes (snd (updateAttributeSize measureTextWidth fontSizes
                        (in_attr_width inputs) (in_attr_height inputs)
                        (sizes, m)))).
  intros attrs Ha Haw.
  generalize dependent
    (relationships
       (snd (updateRelationshipSize measureTextWidth fontSizes
               (in_rel_width inputs) (in_rel_height inputs) (sizes, m)))).
  intros rels Hr Hrw.
  cbn [entities attributes relationships].
  pose proof (arrangeAll_erased Math_PI Math_cos Math_sin es attrs) as Harr.
  assert (Hera : forall l l' : list ERAttribute.t,
             map eraseAttribute l = map eraseAttribute l' ->
             map (fun a => withoutAttributeSize (eraseAttribute a)) l
             = map (fun a => withoutAttributeSize (eraseAttribute a)) l').
  { intros l l' H.
    rewrite <- (map_map eraseAttribute withoutAttributeSize l).
    rewrite <- (map_map eraseAttribute withoutAttributeSize l'), H.
    reflexivity. }
  split; [exact He |].
  split.
  { transitivity
      (map (fun a => withoutAttributeSize (eraseAttribute a)) attrs).
    - apply Hera. exact Harr.
    - change (fun a => withoutAttributeSize (eraseAttribute a))
        with (fun a => eraseAttribute (withoutAttributeSize a)).
      rewrite <- (map_map withoutAttributeSize eraseAttribute attrs).
      rewrite <- (map_map withoutAttributeSize eraseAttribute
                    (attributes m)).
      rewrite Ha. reflexivity. }
  split; [exact Hr |].
  split; [revert Hew; apply Forall_impl; intros e (_ & H & _); exact H |].
  split.
  { apply (Forall_same_image eraseAttribute
             (fun a => 40 <= ERAttribute.rx a) attrs); [exact Harr |].
    revert Haw. apply Forall_impl. intros a (_ & H & _). exact H. }
  split; [revert Hrw; apply Forall_impl; intros r (_ & H & _); exact H |].
  split; [apply arrangeAll_idempotent |].
  apply wellFormed_renamed; cbn [entities attributes relationships].
  - exact (eq_trans (eq_sym (map_map withoutEntitySize EREntity.id es))
             (eq_trans (f_equal (map EREntity.id) He)
                (map_map withoutEntitySize EREntity.id (entities m)))).
  - transitivity (map ERAttribute.entityId attrs).
    + exact (eq_trans
               (eq_sym (map_map eraseAttribute ERAttribute.entityId
                          (arrangeAll Math_PI Math_cos Math_sin es attrs)))
               (eq_trans (f_equal (map ERAttribute.entityId) Harr)
                  (map_map eraseAttribute ERAttribute.entityId attrs))).
    + exact (eq_trans
               (eq_sym (map_map withoutAttributeSize ERAttribute.entityId
                          attrs))
               (eq_trans (f_equal (map ERAttribute.entityId) Ha)
                  (map_map withoutAttributeSize ERAttribute.entityId
                     (attributes m)))).
  - intros H.
    pose proof (forallb_through_map
                  (fun e => displayNameKept (EREntity.name e)
                              (EREntity.displayName e))
                  withoutEntitySize es) as H1.
    pose proof (forallb_through_map
                  (fun e => displayNameKept (EREntity.name e)
                              (EREntity.displayName e))
                  withoutEntitySize (entities m)) as H2.
    rewrite He in H1. cbn beta in H1, H2.
    exact (eq_trans (eq_sym H1) (eq_trans H2 H)).
  - intros H.
    pose proof (forallb_through_map
                  (fun a => displayNameKept (ERAttribute.name a)
                              (ERAttribute.displayName a))
                  withoutAttributeSize attrs) as H1.
    pose proof (forallb_through_map
                  (fun a => displayNameKept (ERAttribute.name a)
                              (ERAttribute.displayName a))
                  withoutAttributeSize (attributes m)) as H2.
    pose proof (forallb_through_map
                  (fun a => displayNameKept (ERAttribute.name a)
                              (ERAttribute.displayName a))
                  eraseAttribute attrs) as H3.
    pose proof (forallb_through_map
                  (fun a => displayNameKept (ERAttribute.name a)
                              (ERAttribute.displayName a))
                  eraseAttribute
                  (arrangeAll Math_PI Math_cos Math_sin es attrs)) as H4.
    rewrite Ha in H1. rewrite Harr in H4.
    exact (eq_trans (eq_sym H4)
             (eq_trans H3 (eq_trans (eq_sym H1) (eq_trans H2 H)))).
  - intros H.
    pose proof (forallb_through_map
                  (fun r => displayNameKept (ERRelationship.name r)
                              (ERRelationship.displayName r))
                  withoutRelationshipSize rels) as H1.
    pose proof (forallb_through_map
                  (fun r => displayNameKept (ERRelationship.name r)
                              (ERRelationship.displayName r))
                  withoutRelationshipSize (relationships m)) as H2.
    rewrite Hr in H1.
    exact (eq_trans (eq_sym H1) (eq_trans H2 H)).
Qed.

End UniformSize.

(** ** Dragging an attribute, a relationship, and a whole gesture *)

Lemma replaceNth_attribute_erased (k : nat) (d : ERAttribute.t) (x y : Q)
    (attrs : list ERAttribute.t) :
  nth_error attrs k = Some d ->
  map eraseAttribute (replaceNth k (attributeMoveTo d x y) attrs)
  = map eraseAttribute attrs.
Proof.
  intros H. apply map_replaceNth_same with d; [exact H | reflexivity].
Qed.

Lemma replaceNth_relationship_erased (k : nat) (d : ERRelationship.t)
    (x y : Q) (rels : list ERRelationship.t) :
  nth_error rels k = Some d ->
  map eraseRelationship (replaceNth k (relationshipMoveTo d x y) rels)
  = map eraseRelationship rels.
Proof.
  intros H. apply map_replaceNth_same with d; [exact H | reflexivity].
Qed.

(** X14. [draggedAttribute] and [draggedRelationship] put the dragged
    element at the pointer and change nothing else: every other element of
    the three arrays is as before, the dragged one keeps all but its
    position, and in particular the owning entity does not follow its
    attribute. *)
Theorem draggedAttribute_draggedRelationship_move_one
    (event : Point) (k : nat) (m : Model) :
  (forall d,
      nth_error (attributes m) k = Some d ->
      exists m',
        draggedAttribute event k m = Some m' /\
        entities m' = entities m /\
        relationships m' = relationships m /\
        nth_error (attributes m') k
        = Some (attributeMoveTo d (px event) (py event)) /\
        (forall j, j <> k ->
                   nth_error (attributes m') j = nth_error (attributes m) j)
        /\
        erasePositions m' = erasePositions m) /\
  (forall d,
      nth_error (relationships m) k = Some d ->
      exists m',
        draggedRelationship event k m = Some m' /\
        entities m' = entities m /\
        attributes m' = attributes m /\
        nth_error (relationships m') k
        = Some (relationshipMoveTo d (px event) (py event)) /\
        (forall j, j <> k ->
                   nth_error (relationships m') j
                   = nth_error (relationships m) j) /\
        erasePositions m' = erasePositions m).
Proof.
  split; intros d Hd.
  - unfold draggedAttribute. rewrite Hd. eexists.
    split; [reflexivity |]. cbn [entities attributes relationships].
    split; [reflexivity |]. split; [reflexivity |].
    split; [apply nth_error_replaceNth with d; exact Hd |].
    split; [intros j Hj; apply nth_error_replaceNth_other; exact Hj |].
    unfold erasePositions. cbn [entities attributes relationships].
    rewrite (replaceNth_attribute_erased k d _ _ _ Hd). reflexivity.
  - unfold draggedRelationship. rewrite Hd. eexists.
    split; [reflexivity |]. cbn [entities attributes relationships].
    split; [reflexivity |]. split; [reflexivity |].
    split; [apply nth_error_replaceNth with d; exact Hd |].
    split; [intros j Hj; apply nth_error_replaceNth_other; exact Hj |].
    unfold erasePositions. cbn [entities attributes relationships].
    rewrite (replaceNth_relationship_erased k d _ _ _ Hd). reflexivity.
Qed.

Lemma Forall2_refl_on {A : Type} (R : A -> A -> Prop) (l : list A) :
  (forall a, R a a) -> Forall2 R l l.
Proof.
  intros H. induction l; constructor; auto.
Qed.

Lemma Forall2_map_left {A B : Type} (R : A -> B -> Prop)
    (R' : A -> B -> Prop) (f : A -> A) (l : list A) (l' : list B) :
  (forall a b, R' (f a) b -> R a b) ->
  Forall2 R' (map f l) l' -> Forall2 R l l'.
Proof.
  intros H. revert l'.
  induction l as [| a l IH]; intros l' HF; cbn in HF; inversion HF; subst;
    constructor; auto.
Qed.

Lemma last_cons_default {A : Type} (a d : A) (l : list A) :
  last (a :: l) d = last l a.
Proof.
  revert a d. induction l as [| b l IH]; intros a d; [reflexivity |].
  change (last (a :: b :: l) d) with (last (b :: l) d).
  rewrite (IH b d). symmetry. apply IH.
Qed.

(** X15. However the pointer moves during a drag of an entity, the gesture
    ends with the entity at the last pointer position and otherwise as it
    was, with the other entities and the attributes of other entities as they
    were, and with every attribute of the entity changed in its position
    only: each coordinate is the one before the gesture to which the
    differences between consecutive pointer positions, starting from the
    entity's, have been added one by one in binary64. *)
Theorem dragEntityGesture_positions
    (events : list Binary64.Point) (k : nat)
    (es : list Binary64.EREntity.t) (attrs : list Binary64.ERAttribute.t)
    (d : Binary64.EREntity.t) :
  nth_error es k = Some d ->
  exists es' attrs',
    Binary64.dragEntityGesture events k (es, attrs) = Some (es', attrs') /\
    nth_error es' k
    = Some (Binary64.entityMoveTo d
              (last (map Binary64.px events) (Binary64.EREntity.x d))
              (last (map Binary64.py events) (Binary64.EREntity.y d))) /\
    (forall j, j <> k -> nth_error es' j = nth_error es j) /\
    Forall2
      (fun a a' =>
         if String.eqb (Binary64.ERAttribute.entityId a)
                       (Binary64.EREntity.id d)
         then a' = Binary64.attributeMoveTo a
                     (Binary64.dragPath (Binary64.EREntity.x d)
                        (map Binary64.px events) (Binary64.ERAttribute.x a))
                     (Binary64.dragPath (Binary64.EREntity.y d)
                        (map Binary64.py events) (Binary64.ERAttribute.y a))
         else a' = a)
      attrs attrs'.
Proof.
  revert es attrs d.
  induction events as [| event events IH]; intros es attrs d Hd.
  - exists es, attrs. cbn [Binary64.dragEntityGesture map last].
    split; [reflexivity |].
    split; [rewrite Hd; destruct d; reflexivity |].
    split; [reflexivity |].
    apply Forall2_refl_on. intros a.
    destruct (String.eqb _ _); [| reflexivity].
    destruct a; reflexivity.
  - cbn [Binary64.dragEntityGesture]. unfold Binary64.draggedEntity.
    rewrite Hd.
    set (d1 := Binary64.entityMoveTo d (Binary64.px event)
                 (Binary64.py event)).
    set (es1 := replaceNth k d1 es).
    assert (Hd1 : nth_error es1 k = Some d1)
      by (apply nth_error_replaceNth with d; exact Hd).
    match goal with
    | |- context [Binary64.dragEntityGesture events k (es1, ?l)] =>
      set (attrs1 := l)
    end.
    destruct (IH es1 attrs1 d1 Hd1) as (es' & attrs' & Hg & Hk & Ho & HF).
    exists es', attrs'.
    split; [exact Hg |].
    split.
    { rewrite Hk. cbn [map]. rewrite !last_cons_default. reflexivity. }
    split.
    { intros j Hj. rewrite (Ho j Hj). unfold es1.
      apply nth_error_replaceNth_other. exact Hj. }
    unfold attrs1 in HF. revert HF. apply Forall2_map_left. intros a a'.
    change (Binary64.EREntity.id d1) with (Binary64.EREntity.id d).
    destruct (String.eqb (Binary64.ERAttribute.entityId a)
                         (Binary64.EREntity.id d)) eqn:E.
    + change (Binary64.ERAttribute.entityId
                (Binary64.attributeMoveTo a _ _))
        with (Binary64.ERAttribute.entityId a).
      rewrite E. intros ->. reflexivity.
    + rewrite E. intros ->. reflexivity.
Qed.

(** Dragging Employee from (500,100) through (530,80) to (610,240). *)
Lemma dragEntityGesture_positions_witness :
  exists es',
    Binary64.dragEntityGesture
      [Binary64.mkPoint 530 80; Binary64.mkPoint 610 240] 1
      ([Binary64.department; Binary64.employee],
       [Binary64.dept_id; Binary64.emp_id; Binary64.emp_dept_id])
    = Some (es',
            [Binary64.dept_id;
             Binary64.attributeMoveTo Binary64.emp_id 665 160;
             Binary64.attributeMoveTo Binary64.emp_dept_id 665 380]) /\
    nth_error es' 1
    = Some (Binary64.entityMoveTo Binary64.employee 610 240) /\
    nth_error es' 0 = Some Binary64.department.
Proof.
  destruct (dragEntityGesture_positions
              [Binary64.mkPoint 530 80; Binary64.mkPoint 610 240] 1
              [Binary64.department; Binary64.employee]
              [Binary64.dept_id; Binary64.emp_id; Binary64.emp_dept_id]
              Binary64.employee eq_refl)
    as (es' & attrs' & Hg & Hk & Ho & HF).
  exists es'.
  inversion HF as [| ? ? ? ? H1 HF1]; subst.
  inversion HF1 as [| ? ? ? ? H2 HF2]; subst.
  inversion HF2 as [| ? ? ? ? H3 HF3]; subst.
  inversion HF3; subst.
  cbn in H1, H2, H3. subst.
  split; [exact Hg |]. split; [exact Hk |].
  rewrite (Ho 0%nat); [reflexivity | discriminate].
Defined.

(** The offset of an attribute to its entity is not kept over a gesture
    whose arithmetic rounds: dragging Employee from (500,100) through
    (0.1,100) to (0.2,100) leaves [emp_id], which was 55 to the right of the
    entity, at another offset. *)
Example dragEntityGesture_offset_drifts :
  exists es' a1 a2 a3 vp va',
    Binary64.dragEntityGesture
      [Binary64.mkPoint (1 / 10) 100; Binary64.mkPoint (2 / 10) 100] 1
      ([Binary64.department; Binary64.employee],
       [Binary64.dept_id; Binary64.emp_id; Binary64.emp_dept_id])
    = Some (es', [a1; a2; a3]) /\
    Binary64.valueOf (2 / 10)%float = Some vp /\
    Binary64.valueOf (Binary64.ERAttribute.x a2) = Some va' /\
    ~ va' - vp == 555 - 500.
Proof.
  do 6 eexists.
  split; [vm_compute; reflexivity |].
  split; [vm_compute; reflexivity |].
  split; [vm_compute; reflexivity |].
  intros H. vm_compute in H. discriminate H.
Qed.

(** ** Export bounds, continued *)

Lemma accMin_here (acc : option Q) (v w : Q) :
  v <= w -> aboveMin (accMin acc v) w.
Proof.
  intros H. destruct acc as [a |]; cbn; [| exact H].
  eapply Qle_trans; [apply Q.le_min_r | exact H].
Qed.

Lemma accMin_keeps (acc : option Q) (v w : Q) :
  aboveMin acc w -> aboveMin (accMin acc v) w.
Proof.
  destruct acc as [a |]; cbn; [| contradiction].
  intros H. eapply Qle_trans; [apply Q.le_min_l | exact H].
Qed.

Lemma accMax_here (acc : option Q) (v w : Q) :
  w <= v -> belowMax (accMax acc v) w.
Proof.
  intros H. destruct acc as [a |]; cbn; [| exact H].
  eapply Qle_trans; [exact H | apply Q.le_max_r].
Qed.

Lemma accMax_keeps (acc : option Q) (v w : Q) :
  belowMax acc w -> belowMax (accMax acc v) w.
Proof.
  destruct acc as [a |]; cbn; [| contradiction].
  intros H. eapply Qle_trans; [exact H | apply Q.le_max_l].
Qed.

Lemma fold_covers {A : Type} (step : Extent -> A -> Extent)
    (l : list A) (acc : Extent) (x0 y0 x1 y1 : Q) :
  (forall acc a, covers acc x0 y0 x1 y1 -> covers (step acc a) x0 y0 x1 y1) ->
  covers acc x0 y0 x1 y1 -> covers (fold_left step l acc) x0 y0 x1 y1.
Proof.
  intros Hstep. revert acc.
  induction l as [| a l IH]; intros acc H; cbn; [exact H |].
  apply IH, Hstep, H.
Qed.

Lemma fold_covers_element {A : Type} (step : Extent -> A -> Extent)
    (l : list A) (acc : Extent) (a : A) (x0 y0 x1 y1 : Q) :
  (forall acc b, covers acc x0 y0 x1 y1 -> covers (step acc b) x0 y0 x1 y1) ->
  (forall acc, covers (step acc a) x0 y0 x1 y1) ->
  In a l -> covers (fold_left step l acc) x0 y0 x1 y1.
Proof.
  intros Hstep Ha. revert acc.
  induction l as [| b l IH]; intros acc Hin; [destruct Hin |].
  cbn. destruct Hin as [-> | Hin].
  - apply fold_covers; [exact Hstep | apply Ha].
  - apply IH. exact Hin.
Qed.

Lemma extendEntity_keeps (acc : Extent) (e : EREntity.t) (x0 y0 x1 y1 : Q) :
  covers acc x0 y0 x1 y1 -> covers (extendEntity acc e) x0 y0 x1 y1.
Proof.
  intros (H1 & H2 & H3 & H4 & _). unfold covers, extendEntity. cbn.
  repeat split; auto using accMin_keeps, accMax_keeps.
Qed.

Lemma extendAttribute_keeps (acc : Extent) (a : ERAttribute.t)
    (x0 y0 x1 y1 : Q) :
  covers acc x0 y0 x1 y1 -> covers (extendAttribute acc a) x0 y0 x1 y1.
Proof.
  intros (H1 & H2 & H3 & H4 & _). unfold covers, extendAttribute. cbn.
  repeat split; auto using accMin_keeps, accMax_keeps.
Qed.

Lemma extendRelationship_keeps (acc : Extent) (r : ERRelationship.t)
    (x0 y0 x1 y1 : Q) :
  covers acc x0 y0 x1 y1 -> covers (extendRelationship acc r) x0 y0 x1 y1.
Proof.
  intros (H1 & H2 & H3 & H4 & _). unfold covers, extendRelationship. cbn.
  repeat split; auto using accMin_keeps, accMax_keeps.
Qed.

Lemma extendConnector_keeps (es : list EREntity.t) (acc : Extent)
    (r : ERRelationship.t) (x0 y0 x1 y1 : Q) :
  covers acc x0 y0 x1 y1 -> covers (extendConnector es acc r) x0 y0 x1 y1.
Proof.
  intros H. unfold extendConnector.
  destruct (findEntity (ERRelationship.fromEntityId r) es); [| exact H].
  destruct (findEntity (ERRelationship.toEntityId r) es); [| exact H].
  destruct H as (H1 & H2 & H3 & H4 & H5). unfold covers. cbn.
  repeat split; auto using accMin_keeps, accMax_keeps.
Qed.

Lemma diagramExtent_covers_entity (m : Model) (e : EREntity.t) :
  In e (entities m) ->
  covers (diagramExtent m) (EREntity.x e) (EREntity.y e)
    (EREntity.x e + EREntity.width e) (EREntity.y e + EREntity.height e).
Proof.
  intros Hin. unfold diagramExtent.
  apply fold_covers; [intros; apply extendConnector_keeps; assumption |].
  apply fold_covers; [intros; apply extendRelationship_keeps; assumption |].
  apply fold_covers; [intros; apply extendAttribute_keeps; assumption |].
  apply fold_covers_element with e;
    [intros; apply extendEntity_keeps; assumption | | exact Hin].
  intros acc. unfold covers, extendEntity. cbn.
  repeat split; auto using accMin_here, accMax_here, Qle_refl.
Qed.

Lemma diagramExtent_covers_attribute (m : Model) (a : ERAttribute.t) :
  In a (attributes m) ->
  covers (diagramExtent m)
    (ERAttribute.x a - ERAttribute.rx a) (ERAttribute.y a - ERAttribute.ry a)
    (ERAttribute.x a + ERAttribute.rx a) (ERAttribute.y a + ERAttribute.ry a).
Proof.
  intros Hin. unfold diagramExtent.
  apply fold_covers; [intros; apply extendConnector_keeps; assumption |].
  apply fold_covers; [intros; apply extendRelationship_keeps; assumption |].
  apply fold_covers_element with a;
    [intros; apply extendAttribute_keeps; assumption | | exact Hin].
  intros acc. unfold covers, extendAttribute. cbn.
  repeat split; auto using accMin_here, accMax_here, Qle_refl.
Qed.

Lemma diagramExtent_covers_relationship (m : Model) (r : ERRelationship.t) :
  In r (relationships m) ->
  covers (diagramExtent m)
    (ERRelationship.x r - ERRelationship.width r / 2)
    (ERRelationship.y r - ERRelationship.height r / 2)
    (ERRelationship.x r + ERRelationship.width r / 2)
    (ERRelationship.y r + ERRelationship.height r / 2).
Proof.
  intros Hin. unfold diagramExtent.
  apply fold_covers; [intros; apply extendConnector_keeps; assumption |].
  apply fold_covers_element with r;
    [intros; apply extendRelationship_keeps; assumption | | exact Hin].
  intros acc. unfold covers, extendRelationship. cbn.
  repeat split; auto using accMin_here, accMax_here, Qle_refl.
Qed.

Lemma covered_enclosed (vp : Viewport) (m : Model) (x0 y0 x1 y1 : Q) :
  covers (diagramExtent m) x0 y0 x1 y1 ->
  encloses (exportAsSVG_bounds false vp m) x0 y0 x1 y1 /\
  encloses (exportAsPNG_bounds false vp m) x0 y0 x1 y1.
Proof.
  unfold covers, exportAsSVG_bounds, exportAsPNG_bounds, diagramCorners.
  destruct (diagramExtent m) as [[a |] [b |] [c |] [d |] has]; cbn;
    try tauto.
  intros (H1 & H2 & H3 & H4 & ->). unfold encloses. cbn.
  pose proof (Q.le_max_l (c - a + 50 * 2) 400).
  pose proof (Q.le_max_l (d - b + 50 * 2) 300).
  repeat split; lra.
Qed.

(** X16. A full-diagram export encloses every element with a margin of 50:
    the rectangle of every entity, the box of every attribute's ellipse and
    the box of every relationship's diamond lie at least 50 inside the
    export bounds of [exportAsSVG] and of [exportAsPNG].  The two have the
    same origin, and the PNG bounds are at least as large, and at least 400
    by 300. *)
Theorem export_bounds_enclose_elements (vp : Viewport) (m : Model) :
  (forall e, In e (entities m) ->
     encloses (exportAsSVG_bounds false vp m)
       (EREntity.x e) (EREntity.y e)
       (EREntity.x e + EREntity.width e)
       (EREntity.y e + EREntity.height e) /\
     encloses (exportAsPNG_bounds false vp m)
       (EREntity.x e) (EREntity.y e)
       (EREntity.x e + EREntity.width e)
       (EREntity.y e + EREntity.height e)) /\
  (forall a, In a (attributes m) ->
     encloses (exportAsSVG_bounds false vp m)
       (ERAttribute.x a - ERAttribute.rx a)
       (ERAttribute.y a - ERAttribute.ry a)
       (ERAttribute.x a + ERAttribute.rx a)
       (ERAttribute.y a + ERAttribute.ry a) /\
     encloses (exportAsPNG_bounds false vp m)
       (ERAttribute.x a - ERAttribute.rx a)
       (ERAttribute.y a - ERAttribute.ry a)
       (ERAttribute.x a + ERAttribute.rx a)
       (ERAttribute.y a + ERAttribute.ry a)) /\
  (forall r, In r (relationships m) ->
     encloses (exportAsSVG_bounds false vp m)
       (ERRelationship.x r - ERRelationship.width r / 2)
       (ERRelationship.y r - ERRelationship.height r / 2)
       (ERRelationship.x r + ERRelationship.width r / 2)
       (ERRelationship.y r + ERRelationship.height r / 2) /\
     encloses (exportAsPNG_bounds false vp m)
       (ERRelationship.x r - ERRelationship.width r / 2)
       (ERRelationship.y r - ERRelationship.height r / 2)
       (ERRelationship.x r + ERRelationship.width r / 2)
       (ERRelationship.y r + ERRelationship.height r / 2)) /\
  b_x (exportAsPNG_bounds false vp m) = b_x (exportAsSVG_bounds false vp m) /\
  b_y (exportAsPNG_bounds false vp m) = b_y (exportAsSVG_bounds false vp m) /\
  b_width (exportAsSVG_bounds false vp m)
  <= b_width (exportAsPNG_bounds false vp m) /\
  b_height (exportAsSVG_bounds false vp m)
  <= b_height (exportAsPNG_bounds false vp m) /\
  400 <= b_width (exportAsPNG_bounds false vp m) /\
  300 <= b_height (exportAsPNG_bounds false vp m).
Proof.
  split; [intros e H; apply covered_enclosed, diagramExtent_covers_entity,
                      H |].
  split; [intros a H; apply covered_enclosed, diagramExtent_covers_attribute,
                      H |].
  split; [intros r H;
          apply covered_enclosed, diagramExtent_covers_relationship, H |].
  unfold exportAsSVG_bounds, exportAsPNG_bounds.
  destruct (diagramCorners vp m) as [[[a b] c] d]. cbn.
  repeat split; try reflexivity;
    try apply Q.le_max_l; try apply Q.le_max_r.
Qed.

(** X17. A current-view export takes the part of the diagram that the zoom
    transform shows on the canvas: for a zoom scale other than zero the
    transform maps the origin of the export bounds to the corner (0, 0) of
    the canvas and their opposite corner to (width, height).  [exportAsPNG]
    and [exportAsSVG] use the same bounds, with no padding and no minimum
    size. *)
Theorem currentView_bounds_map_to_canvas (vp : Viewport) (m : Model) :
  ~ transform_k vp == 0 ->
  let b := exportAsPNG_bounds true vp m in
  let t := viewportTransform vp in
  exportAsSVG_bounds true vp m = b /\
  px (applyTransform t (mkPoint (b_x b) (b_y b))) == 0 /\
  py (applyTransform t (mkPoint (b_x b) (b_y b))) == 0 /\
  px (applyTransform t
        (mkPoint (b_x b + b_width b) (b_y b + b_height b)))
  == canvasWidth vp /\
  py (applyTransform t
        (mkPoint (b_x b + b_width b) (b_y b + b_height b)))
  == canvasHeight vp.
Proof.
  intros Hk. cbv zeta.
  unfold exportAsPNG_bounds, exportAsSVG_bounds, currentViewBounds,
    viewportTransform, applyTransform.
  cbn. repeat split; try reflexivity; field; exact Hk.
Qed.

(** Zoomed in twice and panned by (-100, -40) on a canvas of 800 by 600. *)
Lemma currentView_bounds_map_to_canvas_witness :
  exportAsSVG_bounds true
    (mkViewport 800 600 (-100) (-40) 2 (mkBounds 0 0 0 0)) companyModel
  = exportAsPNG_bounds true
      (mkViewport 800 600 (-100) (-40) 2 (mkBounds 0 0 0 0)) companyModel /\
  exportAsPNG_bounds true
    (mkViewport 800 600 (-100) (-40) 2 (mkBounds 0 0 0 0)) companyModel
  = mkBounds (- -100 / 2) (- -40 / 2) (800 / 2) (600 / 2).
Proof.
  split; [| reflexivity].
  apply (currentView_bounds_map_to_canvas
           (mkViewport 800 600 (-100) (-40) 2 (mkBounds 0 0 0 0))
           companyModel).
  discriminate.
Defined.

(** ** Zoom to fit *)

Lemma extendBox_keeps (corners : Q * Q * Q * Q) (box other : Bounds) :
  boxWithin corners box -> boxWithin (extendBox corners other) box.
Proof.
  destruct corners as [[[a b] c] d]. cbn. intros (H1 & H2 & H3 & H4).
  repeat split.
  - eapply Qle_trans; [apply Q.le_min_l | exact H1].
  - eapply Qle_trans; [apply Q.le_min_l | exact H2].
  - eapply Qle_trans; [exact H3 | apply Q.le_max_l].
  - eapply Qle_trans; [exact H4 | apply Q.le_max_l].
Qed.

Lemma extendBox_here (corners : Q * Q * Q * Q) (box : Bounds) :
  boxWithin (extendBox corners box) box.
Proof.
  destruct corners as [[[a b] c] d]. cbn.
  repeat split; try apply Q.le_min_r; apply Q.le_max_r.
Qed.

Lemma fold_extendBox_keeps (rest : list Bounds) (corners : Q * Q * Q * Q)
    (box : Bounds) :
  boxWithin corners box -> boxWithin (fold_left extendBox rest corners) box.
Proof.
  revert corners. induction rest as [| other rest IH]; intros corners H;
    cbn; [exact H |].
  apply IH, extendBox_keeps, H.
Qed.

Lemma fold_extendBox_element (rest : list Bounds) (corners : Q * Q * Q * Q)
    (box : Bounds) :
  In box rest -> boxWithin (fold_left extendBox rest corners) box.
Proof.
  revert corners. induction rest as [| other rest IH]; intros corners Hin;
    [destruct Hin |].
  cbn. destruct Hin as [-> | Hin].
  - apply fold_extendBox_keeps, extendBox_here.
  - apply IH, Hin.
Qed.

Lemma zoomFitBounds_within (boxes : list Bounds) (corners : Q * Q * Q * Q) :
  zoomFitBounds boxes = Some corners ->
  Forall (boxWithin corners) boxes.
Proof.
  destruct boxes as [| first rest]; [discriminate |].
  cbn [zoomFitBounds]. intros H. injection H as <-.
  apply Forall_forall. intros box [<- | Hin].
  - apply fold_extendBox_keeps. cbn. repeat split; apply Qle_refl.
  - apply fold_extendBox_element, Hin.
Qed.

Lemma scale_fits (available extent other : Q) :
  0 < extent ->
  Qmin (available / extent) other * 0.9 * extent <= 0.9 * available.
Proof.
  intros He.
  assert (H : Qmin (available / extent) other * extent <= available).
  { setoid_replace available with (available / extent * extent) at 2
      by (field; lra).
    apply Qmult_le_compat_r; [apply Q.le_min_l | lra]. }
  lra.
Qed.

Lemma shown_inside (s lo hi x full : Q) :
  0 <= s -> lo <= x -> x <= hi -> s * (hi - lo) <= 0.9 * full ->
  0.05 * full <= 1 * s * x + (0 + 1 * (full / 2 - s * (lo + (hi - lo) / 2)))
  /\
  1 * s * x + (0 + 1 * (full / 2 - s * (lo + (hi - lo) / 2))) <= 0.95 * full.
Proof.
  intros Hs Hlo Hhi Hfit.
  assert (Hl : 0 <= s * (x - lo)) by (apply Qmult_le_0_compat; lra).
  assert (Hr : 0 <= s * (hi - x)) by (apply Qmult_le_0_compat; lra).
  assert (El : 1 * s * x + (0 + 1 * (full / 2 - s * (lo + (hi - lo) / 2)))
               == s * (x - lo) + (1 # 2) * full
                  - (1 # 2) * (s * (hi - lo))) by field.
  assert (Er : 1 * s * x + (0 + 1 * (full / 2 - s * (lo + (hi - lo) / 2)))
               == (1 # 2) * full + (1 # 2) * (s * (hi - lo))
                  - s * (hi - x)) by field.
  split; [rewrite El | rewrite Er].
  - set (u := s * (x - lo)) in *. set (v := s * (hi - lo)) in *. lra.
  - set (u := s * (hi - x)) in *. set (v := s * (hi - lo)) in *. lra.
Qed.

Section ZoomFit.

Variable entityBBox : EREntity.t -> Q * Q.
Variable attributeBBox : ERAttribute.t -> Q * Q.
Variable relationshipBBox : ERRelationship.t -> Q * Q.

Hypothesis entityBBox_size :
  forall d, 0 <= fst (entityBBox d) /\ 0 <= snd (entityBBox d).
Hypothesis attributeBBox_size :
  forall d, 0 <= fst (attributeBBox d) /\ 0 <= snd (attributeBBox d).
Hypothesis relationshipBBox_size :
  forall d, 0 <= fst (relationshipBBox d) /\ 0 <= snd (relationshipBBox d).

Lemma renderedBoxes_size (showRelationships : bool) (m : Model) :
  Forall (fun box => 0 <= b_width box /\ 0 <= b_height box)
    (renderedBoxes entityBBox attributeBBox relationshipBBox
       showRelationships m).
Proof.
  unfold renderedBoxes.
  apply Forall_app; split; [| apply Forall_app; split].
  - apply Forall_map, Forall_forall. intros d _. apply entityBBox_size.
  - apply Forall_map, Forall_forall. intros d _. apply attributeBBox_size.
  - destruct showRelationships; [| constructor].
    apply Forall_map, Forall_forall. intros d _.
    apply relationshipBBox_size.
Qed.

(** X18. When [zoomFit] sets a transform on a canvas of positive size, the
    scale is positive, the middle of the bounds it computes is shown at the
    middle of the canvas, the bounds fill nine tenths of the canvas in one
    direction and at most that in the other, and the box it takes for every
    rendered group, from the position [(d.x, d.y)] of the group's datum to
    that position plus the width and the height of the group's bounding box,
    is shown inside the canvas, five hundredths of its size away from the
    edges.  That box is not the area the group is drawn on: an attribute and
    a relationship are drawn centred on the position of their datum.  The
    guard on an empty width or height of the bounds is what keeps the two
    divisions defined. *)
Theorem zoomFit_fits_boxes
    (showRelationships : bool) (width height : Q) (m : Model)
    (t : Transform) :
  0 < width -> 0 < height ->
  zoomFit entityBBox attributeBBox relationshipBBox showRelationships
    width height m = Some t ->
  exists minX minY maxX maxY,
    zoomFitBounds
      (renderedBoxes entityBBox attributeBBox relationshipBBox
         showRelationships m)
    = Some (minX, minY, maxX, maxY) /\
    minX < maxX /\ minY < maxY /\
    0 < t_k t /\
    px (applyTransform t (mkPoint ((minX + maxX) / 2) ((minY + maxY) / 2)))
    == width / 2 /\
    py (applyTransform t (mkPoint ((minX + maxX) / 2) ((minY + maxY) / 2)))
    == height / 2 /\
    t_k t * (maxX - minX) <= 0.9 * width /\
    t_k t * (maxY - minY) <= 0.9 * height /\
    (t_k t * (maxX - minX) == 0.9 * width \/
     t_k t * (maxY - minY) == 0.9 * height) /\
    Forall
      (fun box =>
         shownWithin t box (0.05 * width) (0.05 * height)
           (0.95 * width) (0.95 * height))
      (renderedBoxes entityBBox attributeBBox relationshipBBox
         showRelationships m).
Proof.
  intros Hw Hh. unfold zoomFit.
  pose proof (renderedBoxes_size showRelationships m) as Hsize.
  remember (renderedBoxes entityBBox attributeBBox relationshipBBox
              showRelationships m) as boxes eqn:Hboxes.
  clear Hboxes.
  destruct (entities m) as [| e0 es0]; [discriminate |].
  destruct (zoomFitBounds boxes) as [[[[a b] c] d] |] eqn:Hb;
    [| discriminate].
  pose proof (zoomFitBounds_within boxes _ Hb) as Hin.
  destruct (Qeq_bool (c - a) 0) eqn:Hgw; [discriminate |].
  destruct (Qeq_bool (d - b) 0) eqn:Hgh; [discriminate |].
  cbn [orb].
  apply Qeq_bool_neq in Hgw. apply Qeq_bool_neq in Hgh.
  assert (Hac : a <= c /\ b <= d).
  { destruct boxes as [| first rest]; [discriminate |].
    inversion Hin as [| ? ? Hfirst _]. subst.
    inversion Hsize as [| ? ? Hfsize _]. subst.
    cbn in Hfirst. destruct Hfirst as (H1 & H2 & H3 & H4).
    destruct Hfsize as (H5 & H6).
    split; lra. }
  destruct Hac as [Hac Hbd].
  assert (Hbw : 0 < c - a) by lra.
  assert (Hbh : 0 < d - b) by lra.
  set (s := Qmin (width / (c - a)) (height / (d - b)) * 0.9).
  assert (Hqw : 0 < width / (c - a)) by (apply Qlt_shift_div_l; lra).
  assert (Hqh : 0 < height / (d - b)) by (apply Qlt_shift_div_l; lra).
  assert (Hq : 0 < Qmin (width / (c - a)) (height / (d - b)))
    by (apply Q.min_glb_lt; assumption).
  assert (Hs : 0 < s) by (unfold s; lra).
  assert (Hsw : s * (c - a) <= 0.9 * width)
    by (apply scale_fits; exact Hbw).
  assert (Hsh : s * (d - b) <= 0.9 * height).
  { unfold s. rewrite Q.min_comm. apply scale_fits. exact Hbh. }
  assert (Hone : s * (c - a) == 0.9 * width \/ s * (d - b) == 0.9 * height).
  { unfold s.
    destruct (Q.min_spec (width / (c - a)) (height / (d - b)))
      as [[_ ->] | [_ ->]]; [left | right]; field; lra. }
  intros H. injection H as <-.
  exists a, b, c, d. split; [reflexivity |].
  unfold translateThenScale, applyTransform. cbn [t_k t_x t_y px py].
  fold s.
  split; [lra |]. split; [lra |]. split; [lra |].
  split; [field |]. split; [field |].
  split; [lra |]. split; [lra |].
  split; [destruct Hone as [H | H]; [left | right]; lra |].
  apply Forall_forall. intros box Hbox.
  rewrite Forall_forall in Hin, Hsize.
  destruct (Hin box Hbox) as (H1 & H2 & H3 & H4).
  unfold shownWithin, applyTransform. cbn [t_k t_x t_y px py].
  destruct (Hsize box Hbox) as (H5 & H6).
  repeat split.
  - apply (shown_inside s a c (b_x box) width); lra.
  - apply (shown_inside s b d (b_y box) height); lra.
  - apply (shown_inside s a c (b_x box + b_width box) width); lra.
  - apply (shown_inside s b d (b_y box + b_height box) height); lra.
Qed.

End ZoomFit.

(** The sample model on a canvas of 800 by 600, every group with a bounding
    box of 100 by 50. *)
Lemma zoomFit_fits_boxes_witness :
  exists t minX minY maxX maxY,
    zoomFit (fun _ => (100, 50)) (fun _ => (100, 50)) (fun _ => (100, 50))
      true 800 600 companyModel = Some t /\
    zoomFitBounds
      (renderedBoxes (fun _ => (100, 50)) (fun _ => (100, 50))
         (fun _ => (100, 50)) true companyModel)
    = Some (minX, minY, maxX, maxY) /\
    0 < t_k t /\
    t_k t * (maxX - minX) <= 0.9 * 800 /\
    t_k t * (maxY - minY) <= 0.9 * 600.
Proof.
  eexists.
  destruct (zoomFit_fits_boxes
              (fun _ => (100, 50)) (fun _ => (100, 50)) (fun _ => (100, 50))
              (fun _ => conj (Qle_bool_imp_le 0 100 eq_refl)
                          (Qle_bool_imp_le 0 50 eq_refl))
              (fun _ => conj (Qle_bool_imp_le 0 100 eq_refl)
                          (Qle_bool_imp_le 0 50 eq_refl))
              (fun _ => conj (Qle_bool_imp_le 0 100 eq_refl)
                          (Qle_bool_imp_le 0 50 eq_refl))
              true 800 600 companyModel _ eq_refl eq_refl eq_refl)
    as (a & b & c & d & H1 & _ & _ & H2 & _ & _ & H3 & H4 & _).
  exists a, b, c, d. split; [reflexivity |]. auto.
Defined.

(** ** Focus *)

(** X19. [focusEntity], [focusAttribute] and [focusRelationship] do nothing
    when no element has the id.  Otherwise they zoom to one and a half and
    show the position of the element at the middle of the canvas: for an
    attribute and a relationship that is its centre, for an entity its
    top-left corner, so that the centre of the entity is shown three
    quarters of its size right of and below the middle. *)
Theorem focus_centres_position (id : string) (width height : Q) (m : Model) :
  (findEntity id (entities m) = None ->
   focusEntity id width height m = None) /\
  (forall entity,
      findEntity id (entities m) = Some entity ->
      exists t,
        focusEntity id width height m = Some t /\
        t_k t == 1.5 /\
        px (applyTransform t (mkPoint (EREntity.x entity) (EREntity.y entity)))
        == width / 2 /\
        py (applyTransform t (mkPoint (EREntity.x entity) (EREntity.y entity)))
        == height / 2 /\
        px (applyTransform t (entityCenter entity))
        == width / 2 + 0.75 * EREntity.width entity /\
        py (applyTransform t (entityCenter entity))
        == height / 2 + 0.75 * EREntity.height entity) /\
  (find (fun a => String.eqb (ERAttribute.id a) id) (attributes m) = None ->
   focusAttribute id width height m = None) /\
  (forall attr,
      find (fun a => String.eqb (ERAttribute.id a) id) (attributes m)
      = Some attr ->
      exists t,
        focusAttribute id width height m = Some t /\
        t_k t == 1.5 /\
        px (applyTransform t
              (mkPoint (ERAttribute.x attr) (ERAttribute.y attr)))
        == width / 2 /\
        py (applyTransform t
              (mkPoint (ERAttribute.x attr) (ERAttribute.y attr)))
        == height / 2) /\
  (find (fun r => String.eqb (ERRelationship.id r) id) (relationships m)
   = None ->
   focusRelationship id width height m = None) /\
  (forall rel,
      find (fun r => String.eqb (ERRelationship.id r) id) (relationships m)
      = Some rel ->
      exists t,
        focusRelationship id width height m = Some t /\
        t_k t == 1.5 /\
        px (applyTransform t
              (mkPoint (ERRelationship.x rel) (ERRelationship.y rel)))
        == width / 2 /\
        py (applyTransform t
              (mkPoint (ERRelationship.x rel) (ERRelationship.y rel)))
        == height / 2).
Proof.
  unfold focusEntity, focusAttribute, focusRelationship.
  split; [intros ->; reflexivity |].
  split.
  { intros entity ->. eexists. split; [reflexivity |].
    unfold translateThenScale, applyTransform, entityCenter.
    cbn [t_k t_x t_y px py]. repeat split; field. }
  split; [intros ->; reflexivity |].
  split.
  { intros attr ->. eexists. split; [reflexivity |].
    unfold translateThenScale, applyTransform.
    cbn [t_k t_x t_y px py]. repeat split; field. }
  split; [intros ->; reflexivity |].
  intros rel ->. eexists. split; [reflexivity |].
  unfold translateThenScale, applyTransform.
  cbn [t_k t_x t_y px py]. repeat split; field.
Qed.

(** The ellipse of an attribute is drawn around the position of its datum,
    so its left half can be left outside the canvas: here the bounding boxes
    are those of the shapes, and the leftmost point of the ellipse is shown
    at a negative abscissa. *)
Example zoomFit_attribute_drawn_outside :
  let attr :=
    ERAttribute.make "attr_1" "id" "id" None "INT" "entity_1" true false
      (-200) 25 150 25 in
  exists t,
    zoomFit (fun d => (EREntity.width d, EREntity.height d))
      (fun d => (2 * ERAttribute.rx d, 2 * ERAttribute.ry d))
      (fun d => (ERRelationship.width d, ERRelationship.height d))
      true 800 600 (mkModel [department] [attr] [])
    = Some t /\
    px (applyTransform t
          (mkPoint (ERAttribute.x attr - ERAttribute.rx attr)
             (ERAttribute.y attr)))
    < 0.
Proof.
  cbv zeta. eexists. split; [reflexivity |]. vm_compute. reflexivity.
Qed.

(** ** The import dialogue *)

Section ImportDialogue.

Variable measureTextWidth : string -> Q -> string -> string -> Q.
Variable fontSizes : FontSizes.
Variable defaultSizes : DefaultSizes.
Variable Math_PI : Q.
Variable Math_cos : Q -> Q.
Variable Math_sin : Q -> Q.
Variable nonce : nat -> string.

(** X20. With the translation asked for, [executeImport] imports nothing:
    it leaves the three arrays as they are, and records the import as
    pending exactly when the price reply is a success for a logged-in user
    with a sufficient balance.  [confirmCharge] runs a pending import and
    clears it, so that a second confirmation does nothing;
    [closeChargeConfirm] drops it, so that a later confirmation imports
    nothing.  Without the translation the import runs at once and what is
    pending stays; a blank text changes nothing. *)
Theorem executeImport_waits_for_confirmation
    (sql : string) (price : PriceResult) (response response' : FetchResult)
    (confirmed confirmed' : bool) (clock clock' : nat)
    (pending : Pending) (m : Model) :
  let imported :=
    fst (doImport measureTextWidth fontSizes defaultSizes
           Math_PI Math_cos Math_sin nonce response confirmed clock m) in
  let asked :=
    executeImport measureTextWidth fontSizes defaultSizes
      Math_PI Math_cos Math_sin nonce sql false true price response
      confirmed clock (pending, m) in
  let agreed :=
    confirmCharge measureTextWidth fontSizes defaultSizes
      Math_PI Math_cos Math_sin nonce response confirmed clock
      (pending, m) in
  snd asked = m /\
  (fst asked = Some (sql, true) \/ fst asked = pending) /\
  (fst asked = Some (sql, true) <->
   pending = Some (sql, true) \/
   exists priceData,
     price = PriceReply priceData /\
     price_success priceData = true /\
     price_logged_in priceData = true /\
     price_sufficient priceData = true) /\
  (forall waiting, pending = Some waiting -> agreed = (None, imported)) /\
  (pending = None -> agreed = (None, m)) /\
  confirmCharge measureTextWidth fontSizes defaultSizes
    Math_PI Math_cos Math_sin nonce response' confirmed' clock' agreed
  = agreed /\
  confirmCharge measureTextWidth fontSizes defaultSizes
    Math_PI Math_cos Math_sin nonce response confirmed clock
    (closeChargeConfirm (pending, m))
  = (None, m) /\
  executeImport measureTextWidth fontSizes defaultSizes
    Math_PI Math_cos Math_sin nonce sql false false price response
    confirmed clock (pending, m)
  = (pending, imported) /\
  (forall enableTranslation,
      executeImport measureTextWidth fontSizes defaultSizes
        Math_PI Math_cos Math_sin nonce sql true enableTranslation price
        response confirmed clock (pending, m)
      = (pending, m)).
Proof.
  cbv zeta. unfold executeImport, confirmCharge, closeChargeConfirm.
  cbn [fst snd negb].
  split.
  { destruct price as [| [[] [] []]]; reflexivity. }
  split.
  { destruct price as [| [[] [] []]]; cbn; auto. }
  split.
  { destruct price as [| [[] [] []]]; cbn; split;
      try (intros H; left; exact H);
      try (intros _; reflexivity);
      try (intros H; right; eexists; repeat split; reflexivity);
      try (intros [H | (pd & Hp & H1 & H2 & H3)];
           [exact H | try discriminate Hp;
                      injection Hp as <-; cbn in *; discriminate]). }
  split; [intros waiting ->; reflexivity |].
  split; [intros ->; reflexivity |].
  split; [destruct pending; reflexivity |].
  repeat split.
Qed.

End ImportDialogue.

(** ** What an import builds *)

Lemma find_member {A : Type} (p : A -> bool) (a : A) (l : list A) :
  In a l -> p a = true -> find p l <> None.
Proof.
  intros Hin Hp Hnone. rewrite (find_none p l Hnone a Hin) in Hp.
  discriminate.
Qed.

Lemma findEntity_grows (id : string) (es more : list EREntity.t) :
  findEntity id es <> None -> findEntity id (es ++ more) <> None.
Proof.
  unfold findEntity. intros H.
  destruct (find (fun e => String.eqb (EREntity.id e) id) es) as [e |]
    eqn:E; [| contradiction].
  apply find_some in E. destruct E as [Hin Hp].
  apply find_member with e; [apply in_or_app; left; exact Hin | exact Hp].
Qed.

Lemma unaryNonce_injective (i j : nat) :
  unaryNonce i = unaryNonce j -> i = j.
Proof.
  revert j. induction i as [| i IH]; intros [| j] H; cbn in H;
    try discriminate; [reflexivity |].
  injection H as H. f_equal. apply IH. exact H.
Qed.

Section ImportBuilds.

Variable measureTextWidth : string -> Q -> string -> string -> Q.
Variable fontSizes : FontSizes.
Variable defaultSizes : DefaultSizes.
Variable Math_PI : Q.
Variable Math_cos : Q -> Q.
Variable Math_sin : Q -> Q.
Variable nonce : nat -> string.

Lemma importEntities_grid (entityDatas : list EntityData)
    (index clock : nat) (m : Model) :
  exists news,
    entities (fst (importEntities measureTextWidth fontSizes defaultSizes
                     Math_PI Math_cos Math_sin nonce index clock
                     entityDatas m))
    = entities m ++ news /\
    Forall2
      (fun d e =>
         EREntity.name e = ed_name d /\
         EREntity.displayName e = js_or (ed_displayName d) (ed_name d))
      entityDatas news /\
    (forall i e,
        nth_error news i = Some e ->
        EREntity.x e = 200 + ofNat ((index + i) mod 3) * 300 /\
        EREntity.y e = 100 + ofNat ((index + i) / 3) * 300) /\
    relationships
      (fst (importEntities measureTextWidth fontSizes defaultSizes
              Math_PI Math_cos Math_sin nonce index clock entityDatas m))
    = relationships m.
Proof.
  revert index clock m.
  induction entityDatas as [| d entityDatas IH]; intros index clock m.
  - exists []. cbn. rewrite app_nil_r.
    split; [reflexivity |]. split; [constructor |].
    split; [| reflexivity].
    intros [| i] e H; discriminate H.
  - cbn [importEntities].
    destruct (importAttributes measureTextWidth fontSizes defaultSizes
                nonce _ (S clock) (ed_attributes d) (attributes m))
      as [attrs clock'].
    match goal with
    | |- context [importEntities _ _ _ _ _ _ _ ?i ?c entityDatas ?m0] =>
      destruct (IH i c m0) as (news & He & Hn & Hg & Hr)
    end.
    cbn [arrangeAttributes entities relationships] in He, Hr.
    eexists (_ :: news). rewrite He, <- app_assoc. cbn [app].
    split; [reflexivity |].
    split; [constructor; [split; reflexivity | exact Hn] |].
    split; [| exact Hr].
    intros [| i] e H; cbn in H.
    + injection H as <-. rewrite Nat.add_0_r. split; reflexivity.
    + rewrite Nat.add_succ_r. apply (Hg i e H).
Qed.

Lemma importRelationships_ends (relDatas : list RelData) (clock : nat)
    (m : Model) :
  let m' :=
    importRelationships measureTextWidth fontSizes defaultSizes nonce
      clock relDatas m in
  entities m' = entities m /\
  (Forall
     (fun r =>
        findEntity (ERRelationship.fromEntityId r) (entities m) <> None /\
        findEntity (ERRelationship.toEntityId r) (entities m) <> None)
     (relationships m) ->
   Forall
     (fun r =>
        findEntity (ERRelationship.fromEntityId r) (entities m) <> None /\
        findEntity (ERRelationship.toEntityId r) (entities m) <> None)
     (relationships m')).
Proof.
  revert clock m.
  induction relDatas as [| d relDatas IH]; intros clock m; cbn zeta.
  - split; [reflexivity | auto].
  - cbn [importRelationships].
    destruct (find (fun e => String.eqb (EREntity.name e) (rd_from d))
                (entities m)) as [fromEntity |] eqn:Ef; [| apply IH].
    destruct (find (fun e => String.eqb (EREntity.name e) (rd_to d))
                (entities m)) as [toEntity |] eqn:Et; [| apply IH].
    match goal with
    | |- context [importRelationships _ _ _ _ ?c relDatas ?m0] =>
      destruct (IH c m0) as [He Hf]
    end.
    cbn [entities relationships] in He, Hf.
    split; [exact He |]. intros H. apply Hf.
    apply Forall_app. split; [exact H |].
    constructor; [| constructor].
    apply find_some in Ef. apply find_some in Et.
    cbn [relationshipMoveTo newERRelationship
         ERRelationship.fromEntityId ERRelationship.toEntityId].
    split; unfold findEntity.
    + apply find_member with fromEntity; [apply Ef | apply String.eqb_refl].
    + apply find_member with toEntity; [apply Et | apply String.eqb_refl].
Qed.

(** Two draws of the clock and the random generator never give the same
    text. *)
Hypothesis nonce_injective : forall i j, nonce i = nonce j -> i = j.

(** X21. A successful import replaces the diagram: the result does not
    depend on the arrays before.  It has one entity for every entity of the
    reply, in order, with that name and the display name [displayName ||
    name]; the entity of index [i] is put on a grid of three columns with a
    pitch of 300, at column [i % 3] and row [floor(i / 3)] counted from
    (200, 100); every relationship
    it keeps joins two of the imported entities; and the model is well
    formed: the ids are distinct and the attributes are stored entity by
    entity. *)
Theorem doImport_builds_model (data : ParseData) (confirmed : bool)
    (clock : nat) (m : Model) :
  let imported :=
    fst (doImport measureTextWidth fontSizes defaultSizes
           Math_PI Math_cos Math_sin nonce (Response true data)
           confirmed clock m) in
  wellFormed imported = true /\
  imported
  = fst (doImport measureTextWidth fontSizes defaultSizes
           Math_PI Math_cos Math_sin nonce (Response true data)
           confirmed clock (mkModel [] [] [])) /\
  Forall2
    (fun d e =>
       EREntity.name e = ed_name d /\
       EREntity.displayName e = js_or (ed_displayName d) (ed_name d))
    (pd_entities data) (entities imported) /\
  (forall i e,
      nth_error (entities imported) i = Some e ->
      EREntity.x e = 200 + ofNat (i mod 3) * 300 /\
      EREntity.y e = 100 + ofNat (i / 3) * 300) /\
  Forall
    (fun r =>
       findEntity (ERRelationship.fromEntityId r) (entities imported)
       <> None /\
       findEntity (ERRelationship.toEntityId r) (entities imported)
       <> None)
    (relationships imported).
Proof.
  intros imported.
  split; [apply (doImport_wellFormed measureTextWidth fontSizes
                   defaultSizes Math_PI Math_cos Math_sin nonce
                   nonce_injective) |].
  split; [reflexivity |].
  subst imported. cbn [doImport].
  destruct (importEntities_grid (pd_entities data) 0 clock
              (mkModel [] [] [])) as (news & He & Hn & Hg & Hr).
  destruct (importEntities measureTextWidth fontSizes defaultSizes
              Math_PI Math_cos Math_sin nonce 0 clock (pd_entities data)
              (mkModel [] [] [])) as [m1 clock1].
  cbn [fst entities relationships app] in *.
  destruct (importRelationships_ends (pd_relationships data) clock1 m1)
    as [Hes Hends].
  rewrite Hes, He.
  split; [exact Hn |]. split; [exact Hg |].
  rewrite <- He. apply Hends. rewrite Hr. constructor.
Qed.

End ImportBuilds.

(** The sample reply, with identifiers that never repeat. *)
Lemma doImport_builds_model_witness :
  wellFormed
    (fst (doImport sampleMeasure sampleFonts initialDefaultSizes
            (355 / 113) (fun _ => 0) (fun _ => 1) unaryNonce
            (Response true sampleParseData) false 0 companyModel))
  = true.
Proof.
  exact (proj1 (doImport_builds_model sampleMeasure sampleFonts
                  initialDefaultSizes (355 / 113) (fun _ => 0) (fun _ => 1)
                  unaryNonce unaryNonce_injective sampleParseData false 0
                  companyModel)).
Defined.

(** ** The simplified diagram *)

Section Simplified.

Variable measureTextWidth : string -> Q -> string -> string -> Q.
Variable fontSizes : FontSizes.
Variable defaultSizes : DefaultSizes.
Variable Math_PI : Q.
Variable Math_cos : Q -> Q.
Variable Math_sin : Q -> Q.
Variable nonce : nat -> string.

Lemma simplifiedEntities_grid (hideAttributes : bool)
    (entityDatas : list SimplifiedEntityData) (index clock : nat)
    (m : Model) :
  exists news,
    entities (fst (simplifiedEntities measureTextWidth fontSizes
                     defaultSizes Math_PI Math_cos Math_sin nonce
                     hideAttributes index clock entityDatas m))
    = entities m ++ news /\
    Forall2
      (fun d e =>
         EREntity.name e = se_name d /\
         EREntity.displayName e = js_or (se_displayName d) (se_name d))
      entityDatas news /\
    (forall i e,
        nth_error news i = Some e ->
        EREntity.x e = 200 + ofNat ((index + i) mod 3) * 250 /\
        EREntity.y e = 100 + ofNat ((index + i) / 3) * 200) /\
    relationships
      (fst (simplifiedEntities measureTextWidth fontSizes defaultSizes
              Math_PI Math_cos Math_sin nonce hideAttributes index clock
              entityDatas m))
    = relationships m /\
    (hideAttributes = true ->
     attributes
       (fst (simplifiedEntities measureTextWidth fontSizes defaultSizes
               Math_PI Math_cos Math_sin nonce hideAttributes index clock
               entityDatas m))
     = attributes m).
Proof.
  revert index clock m.
  induction entityDatas as [| d entityDatas IH]; intros index clock m.
  - exists []. cbn. rewrite app_nil_r.
    split; [reflexivity |]. split; [constructor |].
    split; [| split; reflexivity].
    intros [| i] e H; discriminate H.
  - cbn [simplifiedEntities].
    assert (Hstep :
              forall c m0,
                entities m0
                = entities m
                  ++ [newEREntity measureTextWidth fontSizes defaultSizes
                        (nonce clock) (se_name d)
                        (200 + ofNat (index mod 3) * 250)
                        (100 + ofNat (index / 3) * 200)
                        (se_displayName d)] ->
                relationships m0 = relationships m ->
                (hideAttributes = true -> attributes m0 = attributes m) ->
                exists news,
                  entities (fst (simplifiedEntities measureTextWidth
                                   fontSizes defaultSizes Math_PI Math_cos
                                   Math_sin nonce hideAttributes (S index) c
                                   entityDatas m0))
                  = entities m ++ news /\
                  Forall2
                    (fun d e =>
                       EREntity.name e = se_name d /\
                       EREntity.displayName e
                       = js_or (se_displayName d) (se_name d))
                    (d :: entityDatas) news /\
                  (forall i e,
                      nth_error news i = Some e ->
                      EREntity.x e
                      = 200 + ofNat ((index + i) mod 3) * 250 /\
                      EREntity.y e
                      = 100 + ofNat ((index + i) / 3) * 200) /\
                  relationships
                    (fst (simplifiedEntities measureTextWidth fontSizes
                            defaultSizes Math_PI Math_cos Math_sin nonce
                            hideAttributes (S index) c entityDatas m0))
                  = relationships m /\
                  (hideAttributes = true ->
                   attributes
                     (fst (simplifiedEntities measureTextWidth fontSizes
                             defaultSizes Math_PI Math_cos Math_sin nonce
                             hideAttributes (S index) c entityDatas m0))
                   = attributes m)).
    { intros c m0 He0 Hr0 Ha0.
      destruct (IH (S index) c m0) as (news & He & Hn & Hg & Hr & Ha).
      eexists (_ :: news). rewrite He, He0, <- app_assoc. cbn [app].
      split; [reflexivity |].
      split; [constructor; [split; reflexivity | exact Hn] |].
      split.
      - intros [| i] e H; cbn in H.
        + injection H as <-. rewrite Nat.add_0_r. split; reflexivity.
        + rewrite Nat.add_succ_r. apply (Hg i e H).
      - split; [rewrite Hr; exact Hr0 |].
        intros Hh. rewrite (Ha Hh). apply Ha0, Hh. }
    destruct hideAttributes.
    + apply Hstep; reflexivity.
    + destruct (se_attributes d) as [attrDatas |].
      * destruct (importAttributes measureTextWidth fontSizes defaultSizes
                    nonce _ (S clock) attrDatas (attributes m))
          as [attrs clock'].
        apply Hstep; [reflexivity | reflexivity | discriminate].
      * apply Hstep; [reflexivity | reflexivity | discriminate].
Qed.

Lemma simplifiedRelationships_origin (relDatas : list RelData)
    (clock : nat) (m : Model) :
  let m' :=
    simplifiedRelationships measureTextWidth fontSizes defaultSizes nonce
      clock relDatas m in
  entities m' = entities m /\
  attributes m' = attributes m /\
  (Forall
     (fun r =>
        ERRelationship.x r = 0 /\ ERRelationship.y r = 0 /\
        ERRelationship.fromAttr r = None /\ ERRelationship.toAttr r = None)
     (relationships m) ->
   Forall
     (fun r =>
        ERRelationship.x r = 0 /\ ERRelationship.y r = 0 /\
        ERRelationship.fromAttr r = None /\ ERRelationship.toAttr r = None)
     (relationships m')).
Proof.
  revert clock m.
  induction relDatas as [| d relDatas IH]; intros clock m; cbn zeta.
  - repeat split; auto.
  - cbn [simplifiedRelationships].
    destruct (find (fun e => String.eqb (EREntity.name e) (rd_from d))
                (entities m)) as [fromEntity |]; [| apply IH].
    destruct (find (fun e => String.eqb (EREntity.name e) (rd_to d))
                (entities m)) as [toEntity |]; [| apply IH].
    match goal with
    | |- context [simplifiedRelationships _ _ _ _ ?c relDatas ?m0] =>
      destruct (IH c m0) as (He & Ha & Hf)
    end.
    cbn [entities attributes relationships] in He, Ha, Hf.
    split; [exact He |]. split; [exact Ha |].
    intros H. apply Hf. apply Forall_app. split; [exact H |].
    constructor; [| constructor]. repeat split.
Qed.

(** X22. [executeSimplifiedGeneration] leaves the diagram as it is when the
    request fails or the reply is not ok.  An ok reply replaces the diagram,
    also when its list of entities is missing, which leaves an empty
    diagram that is not rendered.  The entity of index [i] is put on a grid
    of three columns, 250 apart, with rows 200 apart, counted from
    (200, 100), with the name and the display name of the reply; with [hideAttributes] set there is no
    attribute; and every relationship is left at the origin, without join
    attributes. *)
Theorem executeSimplifiedGeneration_outcomes
    (result : SimplifiedResult) (clock : nat) (m : Model) :
  let generated :=
    executeSimplifiedGeneration measureTextWidth fontSizes defaultSizes
      Math_PI Math_cos Math_sin nonce result clock m in
  (result = SimplifiedFetchRejected \/ result = SimplifiedJsonRejected \/
   (exists data, result = SimplifiedResponse false data) ->
   generated = (m, false)) /\
  (forall data,
      result = SimplifiedResponse true data ->
      generated
      = executeSimplifiedGeneration measureTextWidth fontSizes defaultSizes
          Math_PI Math_cos Math_sin nonce result clock (mkModel [] [] [])
      /\
      (sd_entities data = None -> generated = (mkModel [] [] [], false)) /\
      (sd_hideAttributes data = true -> attributes (fst generated) = []) /\
      Forall
        (fun r =>
           ERRelationship.x r = 0 /\ ERRelationship.y r = 0 /\
           ERRelationship.fromAttr r = None /\
           ERRelationship.toAttr r = None)
        (relationships (fst generated)) /\
      (forall entityDatas,
          sd_entities data = Some entityDatas ->
          Forall2
            (fun d e =>
               EREntity.name e = se_name d /\
               EREntity.displayName e
               = js_or (se_displayName d) (se_name d))
            entityDatas (entities (fst generated)) /\
          (forall i e,
              nth_error (entities (fst generated)) i = Some e ->
              EREntity.x e = 200 + ofNat (i mod 3) * 250 /\
              EREntity.y e = 100 + ofNat (i / 3) * 200))).
Proof.
  intros generated. subst generated. split.
  - intros [-> | [-> | [data ->]]]; reflexivity.
  - intros data ->. cbn [executeSimplifiedGeneration].
    split; [reflexivity |].
    unfold applySimplifiedERData.
    destruct (sd_entities data) as [entityDatas |];
      [| repeat split; try discriminate; constructor].
    destruct (simplifiedEntities_grid (sd_hideAttributes data) entityDatas
                0 clock (mkModel [] [] []))
      as (news & He & Hn & Hg & Hr & Ha).
    destruct (simplifiedEntities measureTextWidth fontSizes defaultSizes
                Math_PI Math_cos Math_sin nonce (sd_hideAttributes data) 0
                clock entityDatas (mkModel [] [] [])) as [m1 clock1].
    cbn [fst entities attributes relationships app] in He, Hr, Ha.
    split; [discriminate |].
    destruct (sd_relationships data) as [relDatas |]; cbn [fst].
    + destruct (simplifiedRelationships_origin relDatas clock1 m1)
        as (Hes & Has & Hf).
      rewrite Hes, Has, He.
      split; [exact Ha |].
      split; [apply Hf; rewrite Hr; constructor |].
      intros ? H. injection H as <-. split; [exact Hn | exact Hg].
    + rewrite He. split; [exact Ha |].
      split; [rewrite Hr; constructor |].
      intros ? H. injection H as <-. split; [exact Hn | exact Hg].
Qed.

End Simplified.

(** ** The simplified ring *)

Section SimplifiedRing.

Variable Math_PI : Q.
Variable Math_cos : Q -> Q.
Variable Math_sin : Q -> Q.

Lemma placeKeyAttrs_frame (cx cy radius angleStep : Q) (entityId : string)
    (index : nat) (attrs : list ERAttribute.t) :
  Forall2
    (fun a a' =>
       if String.eqb (ERAttribute.entityId a) entityId
          && (ERAttribute.isPK a || ERAttribute.isFK a)
       then eraseAttribute a' = eraseAttribute a
       else a' = a)
    attrs
    (placeKeyAttrs Math_PI Math_cos Math_sin cx cy radius angleStep
       entityId index attrs).
Proof.
  revert index.
  induction attrs as [| a attrs IH]; intros index; cbn [placeKeyAttrs];
    [constructor |].
  destruct (String.eqb (ERAttribute.entityId a) entityId
            && (ERAttribute.isPK a || ERAttribute.isFK a)) eqn:E;
    constructor; try apply IH; rewrite E; reflexivity.
Qed.

Lemma placeKeyAttrs_positions (cx cy radius angleStep : Q)
    (entityId : string) (index : nat) (attrs : list ERAttribute.t) :
  map (fun a => (ERAttribute.x a, ERAttribute.y a))
    (keyAttrsOf entityId
       (placeKeyAttrs Math_PI Math_cos Math_sin cx cy radius angleStep
          entityId index attrs))
  = map (fun i =>
           (cx + radius * Math_cos (ofNat i * angleStep - Math_PI / 2),
            cy + radius * Math_sin (ofNat i * angleStep - Math_PI / 2)))
      (seq index (List.length (keyAttrsOf entityId attrs))).
Proof.
  revert index. unfold keyAttrsOf, attributesOf.
  induction attrs as [| a attrs IH]; intros index; [reflexivity |].
  cbn [placeKeyAttrs].
  destruct (String.eqb (ERAttribute.entityId a) entityId) eqn:Eo;
    cbn [andb].
  - destruct (ERAttribute.isPK a || ERAttribute.isFK a) eqn:Ek.
    + unfold attributeMoveTo. cbn [filter ERAttribute.entityId].
      rewrite Eo. cbn [filter ERAttribute.isPK ERAttribute.isFK].
      rewrite Ek. cbn [map List.length seq ERAttribute.x ERAttribute.y].
      f_equal. apply IH.
    + cbn [filter]. rewrite Eo. cbn [filter]. rewrite Ek. apply IH.
  - cbn [filter]. rewrite Eo. apply IH.
Qed.

(** X23. [arrangeAttributesSimplified] does nothing when the entity is not
    found.  Otherwise it moves the primary-key and foreign-key attributes
    of that entity and nothing else: entities, relationships and every other
    attribute are left as they are and the moved ones keep everything but
    their position.  The key attribute of index [i] among the [n] of them is
    put at the entity's centre plus the radius times the cosine and the sine
    of the angle [i] times [2 PI / max(n, 1)] minus [PI / 2], where the
    radius is the larger of 80 and six tenths of the entity's width. *)
Theorem arrangeAttributesSimplified_places_keys
    (entityId : string) (m : Model) :
  let arranged :=
    arrangeAttributesSimplified Math_PI Math_cos Math_sin entityId m in
  (findEntity entityId (entities m) = None -> arranged = m) /\
  entities arranged = entities m /\
  relationships arranged = relationships m /\
  (forall entity,
      findEntity entityId (entities m) = Some entity ->
      let radius := Qmax 80 (EREntity.width entity * 0.6) in
      let n := List.length (keyAttrsOf entityId (attributes m)) in
      let angleStep := 2 * Math_PI / Qmax (ofNat n) 1 in
      80 <= radius /\
      EREntity.width entity * 0.6 <= radius /\
      Forall2
        (fun a a' =>
           if String.eqb (ERAttribute.entityId a) entityId
              && (ERAttribute.isPK a || ERAttribute.isFK a)
           then eraseAttribute a' = eraseAttribute a
           else a' = a)
        (attributes m) (attributes arranged) /\
      map (fun a => (ERAttribute.x a, ERAttribute.y a))
        (keyAttrsOf entityId (attributes arranged))
      = map (fun i =>
               (px (entityCenter entity)
                + radius
                  * Math_cos (ofNat i * angleStep - Math_PI / 2),
                py (entityCenter entity)
                + radius
                  * Math_sin (ofNat i * angleStep - Math_PI / 2)))
          (seq 0 n)).
Proof.
  intros arranged. subst arranged. unfold arrangeAttributesSimplified.
  split; [intros ->; reflexivity |].
  destruct (findEntity entityId (entities m)) as [entity |].
  - split; [reflexivity |]. split; [reflexivity |].
    intros ? H. injection H as <-. cbv zeta.
    split; [apply Q.le_max_l |]. split; [apply Q.le_max_r |].
    cbn [attributes]. split; [apply placeKeyAttrs_frame |].
    apply placeKeyAttrs_positions.
  - split; [reflexivity |]. split; [reflexivity |]. discriminate.
Qed.

End SimplifiedRing.

(** ** The project dialogue *)

Lemma relSnapshot_withoutJoinAttrs (rels : list ERRelationship.t) :
  map relSnapshot (map withoutJoinAttrs rels) = map relSnapshot rels.
Proof.
  rewrite map_map. apply map_ext. reflexivity.
Qed.

Section ProjectDialogue.

Variable measureTextWidth : string -> Q -> string -> string -> Q.
Variable fontSizes : FontSizes.
Variable defaultSizes : DefaultSizes.
Variable nonce : nat -> string.

Lemma loadProject_complete (project : LoadedProject)
    (entityDatas : list EntitySnapshot) (relDatas : list RelSnapshot)
    (projectName sql : string) (id : option string) (clock : nat)
    (st : ProjectState) (m : Model) :
  lp_entities project = Some entityDatas ->
  lp_relationships project = Some relDatas ->
  loadProject measureTextWidth fontSizes defaultSizes nonce
    (LoadResponse true (Some project)) clock st m
  = (mkProjectState (lp_id project) (lp_name project),
     loadProject_restore measureTextWidth fontSizes defaultSizes nonce clock
       (mkProjectData id projectName sql entityDatas relDatas),
     true).
Proof.
  intros He Hr. unfold loadProject, loadProject_restore.
  rewrite He, Hr. cbn [project_entities project_relationships].
  destruct (restoreEntities measureTextWidth fontSizes defaultSizes nonce
              clock entityDatas (mkModel [] [] [])) as [m1 clock1].
  reflexivity.
Qed.

(** X24. [loadProject] leaves the diagram and the current project as they
    are when the request fails or the reply is not ok.  After an ok reply
    the old diagram is gone, whatever follows: a reply without a project or
    without entities leaves an empty diagram, and a reply without
    relationships leaves the restored entities and attributes with no
    relationship; in these three cases the current project is not updated
    and nothing is rendered.  A complete reply gives a diagram that depends
    on the reply only, and sets the current project to its id and name. *)
Theorem loadProject_outcomes
    (result : LoadResult) (clock : nat) (st : ProjectState) (m : Model) :
  let loaded :=
    loadProject measureTextWidth fontSizes defaultSizes nonce result clock
      st m in
  (result = LoadFetchRejected \/ result = LoadJsonRejected \/
   (exists project, result = LoadResponse false project) ->
   loaded = (st, m, false)) /\
  (result = LoadResponse true None -> loaded = (st, mkModel [] [] [], false))
  /\
  (forall project,
      result = LoadResponse true (Some project) ->
      (lp_entities project = None ->
       loaded = (st, mkModel [] [] [], false)) /\
      (lp_entities project <> None -> lp_relationships project = None ->
       fst (fst loaded) = st /\ snd loaded = false /\
       relationships (snd (fst loaded)) = [] /\
       snd (fst loaded)
       = snd (fst (loadProject measureTextWidth fontSizes defaultSizes nonce
                     result clock st (mkModel [] [] [])))) /\
      (forall entityDatas relDatas,
          lp_entities project = Some entityDatas ->
          lp_relationships project = Some relDatas ->
          loaded
          = (mkProjectState (lp_id project) (lp_name project),
             loadProject_restore measureTextWidth fontSizes defaultSizes
               nonce clock
               (mkProjectData None "" "" entityDatas relDatas),
             true))).
Proof.
  intros loaded. subst loaded. split.
  { intros [-> | [-> | [project ->]]]; reflexivity. }
  split; [intros ->; reflexivity |].
  intros project ->. split.
  { intros H. cbn [loadProject]. rewrite H. reflexivity. }
  split.
  - intros He Hr. cbn [loadProject]. rewrite Hr.
    destruct (lp_entities project) as [entityDatas |]; [| contradiction].
    assert (Hrel :
              forall ds k m0,
                relationships
                  (fst (restoreEntities measureTextWidth fontSizes
                          defaultSizes nonce k ds m0))
                = relationships m0).
    { induction ds as [| d ds IH]; intros k m0; [reflexivity |].
      cbn [restoreEntities].
      destruct (es_attributes d) as [attrDatas |].
      - destruct (restoreAttributes measureTextWidth fontSizes defaultSizes
                    nonce _ (S k) attrDatas (attributes m0)) as [attrs k'].
        rewrite IH. reflexivity.
      - rewrite IH. reflexivity. }
    specialize (Hrel entityDatas clock (mkModel [] [] [])).
    destruct (restoreEntities measureTextWidth fontSizes defaultSizes nonce
                clock entityDatas (mkModel [] [] [])) as [m1 clock1].
    cbn [fst snd] in *. repeat split. exact Hrel.
  - intros entityDatas relDatas He Hr.
    apply loadProject_complete; assumption.
Qed.

(** X25. What [saveProject] sends for a well-formed diagram, loaded again
    by [loadProject], gives back the entities and the attributes as they
    were and the relationships without their join attributes, whatever the
    diagram was before the load; the current project becomes the one of the
    reply; and saving the loaded diagram sends the same entities and
    relationships again. *)
Theorem saveProject_loadProject_dialogue
    (promptAnswer : option string) (sql : string) (saved : SaveResult)
    (st st' st0 : ProjectState) (m m0 : Model) (data : ProjectData)
    (id name : option string) (clock : nat) :
  wellFormed m = true ->
  saveProject promptAnswer sql saved st m = (st', Some data) ->
  let loaded :=
    loadProject measureTextWidth fontSizes defaultSizes nonce
      (LoadResponse true
         (Some (mkLoadedProject id name (Some (project_entities data))
                  (Some (project_relationships data)))))
      clock st0 m0 in
  loaded
  = (mkProjectState id name,
     mkModel (entities m) (attributes m)
       (map withoutJoinAttrs (relationships m)),
     true) /\
  forall id' name' sql',
    project_entities
      (saveProject_projectData id' name' sql' (snd (fst loaded)))
    = project_entities data /\
    project_relationships
      (saveProject_projectData id' name' sql' (snd (fst loaded)))
    = project_relationships data.
Proof.
  intros Hwf Hsave loaded.
  assert (Hdata : exists projectName,
             data = saveProject_projectData (currentProjectId st)
                      projectName sql m).
  { unfold saveProject in Hsave.
    destruct (projectNameFor st promptAnswer) as [projectName |];
      [| discriminate].
    destruct (String.eqb projectName ""); [discriminate |].
    exists projectName.
    destruct saved as [| | [] newId]; injection Hsave as _ <-; reflexivity. }
  destruct Hdata as [projectName ->].
  assert (Hloaded :
            loaded
            = (mkProjectState id name,
               mkModel (entities m) (attributes m)
                 (map withoutJoinAttrs (relationships m)),
               true)).
  { subst loaded.
    set (data := saveProject_projectData (currentProjectId st) projectName
                   sql m).
    rewrite (loadProject_complete
               (mkLoadedProject id name (Some (project_entities data))
                  (Some (project_relationships data)))
               (project_entities data) (project_relationships data)
               projectName sql (currentProjectId st) clock st0 m0
               eq_refl eq_refl).
    cbn [lp_id lp_name].
    rewrite <- (loadProject_restore_snapshot measureTextWidth fontSizes
                  defaultSizes nonce (currentProjectId st) projectName sql
                  clock m Hwf).
    reflexivity. }
  split; [exact Hloaded |].
  intros id' name' sql'. rewrite Hloaded. cbn.
  split; [reflexivity | apply relSnapshot_withoutJoinAttrs].
Qed.

End ProjectDialogue.

(** The sample model saved under the name it is asked for, and loaded over
    another diagram. *)
Lemma saveProject_loadProject_dialogue_witness :
  loadProject sampleMeasure sampleFonts initialDefaultSizes sampleNonce
    (LoadResponse true
       (Some (mkLoadedProject (Some "7") (Some "Company")
                (Some (project_entities
                         (saveProject_projectData None "Company" "sql"
                            companyModel)))
                (Some (project_relationships
                         (saveProject_projectData None "Company" "sql"
                            companyModel))))))
    0 (mkProjectState None None) singleEntityModel
  = (mkProjectState (Some "7") (Some "Company"),
     mkModel (entities companyModel) (attributes companyModel)
       (map withoutJoinAttrs (relationships companyModel)),
     true).
Proof.
  exact (proj1 (saveProject_loadProject_dialogue sampleMeasure sampleFonts
                  initialDefaultSizes sampleNonce (Some "Company") "sql"
                  (SaveResponse true (Some "7")) (mkProjectState None None)
                  (mkProjectState (Some "7") (Some "Company"))
                  (mkProjectState None None) companyModel singleEntityModel
                  (saveProject_projectData None "Company" "sql" companyModel)
                  (Some "7") (Some "Company") 0 eq_refl eq_refl)).
Defined.

(** X26. [saveProject] sends nothing and keeps the current project when no
    name is at hand: none is set, or an empty one, and the prompt is
    cancelled or left empty.  A save that fails keeps the current project;
    one that succeeds records the name and the id of the reply, after which
    the next save does not need the prompt.  [deleteProject] clears the
    current project only when the user confirms, the request succeeds and
    the deleted project is the current one, after which a save needs the
    prompt again. *)
Theorem saveProject_deleteProject_current_project
    (promptAnswer : option string) (sql : string) (result : SaveResult)
    (st : ProjectState) (m : Model) :
  (projectNameFor st promptAnswer = None \/
   projectNameFor st promptAnswer = Some "" ->
   saveProject promptAnswer sql result st m = (st, None)) /\
  (forall projectName,
      projectNameFor st promptAnswer = Some projectName ->
      projectName <> "" ->
      snd (saveProject promptAnswer sql result st m)
      = Some (saveProject_projectData (currentProjectId st) projectName sql
                m) /\
      (forall newId,
          result = SaveResponse true newId ->
          fst (saveProject promptAnswer sql result st m)
          = mkProjectState newId (Some projectName) /\
          forall answer,
            projectNameFor (fst (saveProject promptAnswer sql result st m))
              answer
            = Some projectName) /\
      (result = SaveFetchRejected \/ result = SaveJsonRejected \/
       (exists newId, result = SaveResponse false newId) ->
       fst (saveProject promptAnswer sql result st m) = st)) /\
  (forall confirmed projectId succeeded,
      (deleteProject confirmed projectId succeeded st
       = mkProjectState None None \/
       deleteProject confirmed projectId succeeded st = st) /\
      (confirmed = false \/ succeeded = false \/
       currentProjectId st <> Some projectId ->
       deleteProject confirmed projectId succeeded st = st) /\
      (currentProjectId st = Some projectId ->
       deleteProject true projectId true st = mkProjectState None None /\
       forall answer,
         projectNameFor (deleteProject true projectId true st) answer
         = answer)).
Proof.
  split.
  { unfold saveProject. intros [-> | ->]; reflexivity. }
  split.
  { intros projectName Hname Hne. unfold saveProject. rewrite Hname.
    apply String.eqb_neq in Hne. rewrite Hne.
    split; [destruct result as [| | [] ?]; reflexivity |].
    split.
    - intros newId ->. cbn [fst]. split; [reflexivity |].
      intros answer. unfold projectNameFor. cbn [currentProjectName].
      rewrite Hne. reflexivity.
    - intros [-> | [-> | [newId ->]]]; reflexivity. }
  intros confirmed projectId succeeded. unfold deleteProject.
  split; [| split].
  - destruct (confirmed && succeeded); [| right; reflexivity].
    destruct (currentProjectId st) as [id |]; [| right; reflexivity].
    destruct (String.eqb projectId id); [left | right]; reflexivity.
  - intros [-> | [-> | Hid]]; try reflexivity.
    + rewrite andb_false_r. reflexivity.
    + destruct (confirmed && succeeded); [| reflexivity].
      destruct (currentProjectId st) as [id |]; [| reflexivity].
      destruct (String.eqb projectId id) eqn:E; [| reflexivity].
      apply String.eqb_eq in E. subst id. contradiction.
  - intros ->. cbn [andb]. rewrite String.eqb_refl.
    split; reflexivity.
Qed.

(** ** Export of a diagram without elements *)

